(** * web_translator: the background task engine

    A shallow embedding of [src/web_translator.py]: the translation client
    ([translate_text]), the task registry ([TASKS], [_safe_update],
    [_get_state]), the batch worker ([_run_task]) and the routes that read
    the registry and the files ([task_status], [sse_progress],
    [download_file]).

    Python text is a list of code points, a dict with string keys is a
    [gmap string], the module-level registry [TASKS] is a field of the world
    the worker runs in.  Statements are computations in a state monad over
    that world whose results distinguish falling through, [return] and a
    propagating exception, so that [try]/[except]/[finally] and early
    returns read as in the source. *)

From Stdlib Require Import ZArith QArith Qround Lia DecimalString.
From stdpp Require Import base option list gmap strings.

Local Open Scope Z_scope.

(** ** Python text *)

(** A [str] is a sequence of Unicode code points. *)
Abbreviation pystr := (list N).

(** String literals of the source are written as they are there and decoded
    from the UTF-8 bytes of the literal. *)
Fixpoint utf8_decode (bs : list N) : pystr :=
  match bs with
  | [] => []
  | b :: rest =>
      if (b <? 128)%N then b :: utf8_decode rest
      else if (b <? 224)%N then
        match rest with
        | b1 :: r =>
            N.lor (N.shiftl (N.land b 31) 6) (N.land b1 63) :: utf8_decode r
        | _ => []
        end
      else if (b <? 240)%N then
        match rest with
        | b1 :: b2 :: r =>
            N.lor (N.shiftl (N.land b 15) 12)
              (N.lor (N.shiftl (N.land b1 63) 6) (N.land b2 63)) :: utf8_decode r
        | _ => []
        end
      else
        match rest with
        | b1 :: b2 :: b3 :: r =>
            N.lor (N.shiftl (N.land b 7) 18)
              (N.lor (N.shiftl (N.land b1 63) 12)
                 (N.lor (N.shiftl (N.land b2 63) 6) (N.land b3 63))) :: utf8_decode r
        | _ => []
        end
  end.

Definition utf8 (s : string) : pystr :=
  utf8_decode ((λ a, Ascii.N_of_ascii a) <$> String.list_ascii_of_string s).

(** [str.isspace] for one character: the code points CPython's
    [_PyUnicode_IsWhitespace] accepts. *)
Definition py_isspace (c : N) : bool :=
  ((9 <=? c) && (c <=? 13) || (28 <=? c) && (c <=? 32)
   || (c =? 133) || (c =? 160) || (c =? 5760)
   || (8192 <=? c) && (c <=? 8202)
   || (c =? 8232) || (c =? 8233) || (c =? 8239) || (c =? 8287)
   || (c =? 12288))%N.

Fixpoint lstrip (s : pystr) : pystr :=
  match s with
  | c :: s' => if py_isspace c then lstrip s' else s
  | [] => []
  end.

Definition rstrip (s : pystr) : pystr := rev (lstrip (rev s)).

(** [s.strip()] *)
Definition strip (s : pystr) : pystr := rstrip (lstrip s).

(** [s.lower()].  ASCII letters are mapped; of the characters outside ASCII
    only the two whose lower case contains an ASCII letter are listed
    (U+212A KELVIN SIGN, U+0130 capital I with dot), the others are left as
    they are: the source compares the result with an ASCII word only. *)
Definition lower_char (c : N) : pystr :=
  if ((65 <=? c) && (c <=? 90))%N then [(c + 32)%N]
  else if (c =? 8490)%N then [107%N]
  else if (c =? 304)%N then [105%N; 775%N]
  else [c].

Definition lower (s : pystr) : pystr := s ≫= lower_char.

(** Truth value of a [str]: non-empty. *)
Definition str_truthy (s : pystr) : bool :=
  match s with [] => false | _ => true end.

(** [str(n)] for an [int]. *)
Definition str_of_nat (n : nat) : pystr :=
  (λ a, Ascii.N_of_ascii a) <$>
    String.list_ascii_of_string (DecimalString.NilZero.string_of_uint (Nat.to_uint n)).

Definition str_of_Z (z : Z) : pystr :=
  if z <? 0 then 45%N :: str_of_nat (Z.to_nat (- z)) else str_of_nat (Z.to_nat z).

(** ** Python values *)

(** Values stored in a task record. Floats (time stamps) are modelled by
    exact rationals. *)
Inductive value : Type :=
| VNone
| VBool (b : bool)
| VInt (z : Z)
| VFloat (q : Q)
| VStr (s : pystr).

Definition truthy (v : value) : bool :=
  match v with
  | VNone => false
  | VBool b => b
  | VInt z => negb (z =? 0)
  | VFloat q => negb (Qeq_bool q 0)
  | VStr s => str_truthy s
  end.

(** A task record is a [dict] with string keys; the registry [TASKS] maps
    task identifiers to records. *)
Abbreviation record := (gmap string value).
Abbreviation registry := (gmap string (gmap string value)).

(** Truth value of a [dict]: non-empty. *)
Definition dict_truthy {V} (d : gmap string V) : bool :=
  match map_to_list d with [] => false | _ => true end.

(** Exceptions carry their class name and [str(e)]. *)
Record exn : Type := Exception { exn_class : string; exn_msg : pystr }.

(** Values decoded from a JSON response body. *)
#[local] Unset Elimination Schemes.
Inductive pyval : Type :=
| PNone
| PBool (b : bool)
| PInt (z : Z)
| PFloat (q : Q)
| PStr (s : pystr)
| PList (l : list pyval)
| PDict (d : list (pystr * pyval)).
#[local] Set Elimination Schemes.

Definition py_truthy (v : pyval) : bool :=
  match v with
  | PNone => false
  | PBool b => b
  | PInt z => negb (z =? 0)
  | PFloat q => negb (Qeq_bool q 0)
  | PStr s => str_truthy s
  | PList l => match l with [] => false | _ => true end
  | PDict d => match d with [] => false | _ => true end
  end.

Definition TypeError : exn := Exception "TypeError" [].
Definition IndexError : exn := Exception "IndexError" [].
Definition KeyError : exn := Exception "KeyError" [].

(** [v[0]]: the keys of a decoded JSON object are strings, so the integer
    key [0] is never found. *)
Definition getitem0 (v : pyval) : exn + pyval :=
  match v with
  | PList (x :: _) => inr x
  | PList [] => inl IndexError
  | PStr (c :: _) => inr (PStr [c])
  | PStr [] => inl IndexError
  | PDict _ => inl KeyError
  | _ => inl TypeError
  end.

(** The elements [for seg in v] goes through. *)
Definition iterate (v : pyval) : exn + list pyval :=
  match v with
  | PList l => inr l
  | PStr s => inr ((λ c, PStr [c]) <$> s)
  | PDict d => inr ((λ kv, PStr kv.1) <$> d)
  | _ => inl TypeError
  end.

(** [sep.join(items)]: every item has to be a [str]. *)
Fixpoint str_join (items : list pyval) : exn + pystr :=
  match items with
  | [] => inr []
  | PStr s :: rest =>
      match str_join rest with
      | inr t => inr (s ++ t)
      | inl e => inl e
      end
  | _ :: _ => inl TypeError
  end.

(** ** The world the code runs in *)

(** An HTTP response: its status code and its body decoded as JSON
    ([None] when the body is not JSON, so that [r.json()] raises). *)
Record response : Type := Response { status_code : Z; body : option pyval }.

(** What [requests.get] does: it returns a response or raises. *)
Inductive net_outcome : Type :=
| Answers (r : response)
| Fails (e : exn).

(** A worksheet as openpyxl holds it: the cells that exist, by (row, column),
    both counted from 1. *)
Inductive cell_value : Type :=
| CNone
| CStr (s : pystr)
| CInt (z : Z)
| CBool (b : bool)
| COther (shown : pystr).  (* a float, a date, ...: carries its [str()] *)

Record worksheet : Type := Worksheet { cells : gmap (nat * nat) cell_value }.

(** A workbook and its active sheet ([wb.active] is [None] without one). *)
Record workbook : Type := Workbook { active : option worksheet }.

Inductive file : Type :=
| XlsxFile (wb : workbook)
| OtherFile.

(** What the worker does that is visible from outside, newest first in the
    trace.  [EvTasks] records the registry after each of its mutations. *)
Inductive event : Type :=
| EvCancel (task_id : string)            (* a cancel request arrived *)
| EvTasks (T : registry)
| EvSnapshot (task_id : string)          (* [_get_state] *)
| EvTranslate (row : nat) (text : pystr) (* [translate_text] is called for a row *)
| EvRequest (q : pystr)                  (* [requests.get] with parameter q *)
| EvSleep (seconds : Q)
| EvPrint
| EvSave (path : pystr) (wb : workbook)  (* [wb.save] *)
| EvRmtree (base : pystr)
| EvCleanup (task_id : string).          (* the eviction thread was started *)

(** What is outside the worker's control, by the number of the atomic action
    at which it is met: the remote endpoint, the clock, the disk, and the
    cancel requests that other threads made since the previous action. *)
Record env : Type := Env {
  net : nat → net_outcome;
  clock : nat → Q;
  save_error : nat → option exn;
  cancel_requests : nat → list string;
}.

Record world : Type := World {
  TASKS : registry;
  files : gmap pystr file;
  steps : nat;                  (* atomic actions performed so far *)
  trace : list event;
  outside : env;
}.

Definition set_TASKS (T : registry) (w : world) : world :=
  World T (files w) (steps w) (trace w) (outside w).
Definition set_files (fs : gmap pystr file) (w : world) : world :=
  World (TASKS w) fs (steps w) (trace w) (outside w).
Definition set_steps (n : nat) (w : world) : world :=
  World (TASKS w) (files w) n (trace w) (outside w).
Definition log (e : event) (w : world) : world :=
  World (TASKS w) (files w) (steps w) (e :: trace w) (outside w).

(** ** Statements *)

(** The result of a statement: it falls through with a value, it executed
    [return r], or an exception propagates. *)
Inductive res (R A : Type) : Type :=
| Val (a : A)
| Ret (r : R)
| Exc (e : exn).
Arguments Val {R A} a.
Arguments Ret {R A} r.
Arguments Exc {R A} e.

Definition M (R A : Type) : Type := world → res R A * world.

Definition ret {R A} (a : A) : M R A := λ w, (Val a, w).
Definition Return {R A} (r : R) : M R A := λ w, (Ret r, w).
Definition raise {R A} (e : exn) : M R A := λ w, (Exc e, w).

Definition bind {R A B} (m : M R A) (f : A → M R B) : M R B :=
  λ w, match m w with
       | (Val a, w') => f a w'
       | (Ret r, w') => (Ret r, w')
       | (Exc e, w') => (Exc e, w')
       end.

Declare Scope stmt_scope.
Delimit Scope stmt_scope with stmt.
Notation "x ← m ; k" := (bind m (λ x, k))
  (at level 20, m at level 100, k at level 200, only parsing) : stmt_scope.
Notation "m ;; k" := (bind m (λ _, k))
  (at level 100, k at level 200, only parsing, right associativity) : stmt_scope.
Local Open Scope stmt_scope.

(** [try: m except Exception as e: h e] *)
Definition try_except {R A} (m : M R A) (h : exn → M R A) : M R A :=
  λ w, match m w with
       | (Exc e, w') => h e w'
       | other => other
       end.

(** [try: m finally: f]: [f] runs whatever [m] did; when [f] falls through,
    what [m] did stands. *)
Definition try_finally {R A} (m : M R A) (f : M R unit) : M R A :=
  λ w, match m w with
       | (r, w') =>
           match f w' with
           | (Val _, w'') => (r, w'')
           | (Ret r', w'') => (Ret r', w'')
           | (Exc e, w'') => (Exc e, w'')
           end
       end.

(** Calling a function: its body runs to a [return] (or falls off the end). *)
Definition call {R A} (body : M A A) : M R A :=
  λ w, match body w with
       | (Val a, w') => (Val a, w')
       | (Ret a, w') => (Val a, w')
       | (Exc e, w') => (Exc e, w')
       end.

(** A fallible pure operation used as a statement. *)
Definition lift {R A} (x : exn + A) : M R A :=
  match x with inr a => ret a | inl e => raise e end.

(** [for x in l: body x] *)
Fixpoint for_ {R A} (l : list A) (body : A → M R unit) : M R unit :=
  match l with
  | [] => ret tt
  | x :: l' => body x ;; for_ l' body
  end.

(** The same with a local variable [s] that the body reassigns. *)
Fixpoint for_with {R A S} (l : list A) (s : S) (body : A → S → M R S) : M R S :=
  match l with
  | [] => ret s
  | x :: l' => s' ← body x s; for_with l' s' body
  end.

(** [[f(x) for x in l]] with a fallible [f]. *)
Fixpoint map_exn {A B} (f : A → exn + B) (l : list A) : exn + list B :=
  match l with
  | [] => inr []
  | x :: l' =>
      match f x with
      | inl e => inl e
      | inr y => match map_exn f l' with inl e => inl e | inr ys => inr (y :: ys) end
      end
  end.

(** ** The task registry *)

(** [st = TASKS.get(task_id); if st: st.update(kv)] on the registry. *)
Definition safe_update_tasks (task_id : string) (kv : record) (T : registry) : registry :=
  match T !! task_id with
  | Some st => if dict_truthy st then <[task_id := kv ∪ st]> T else T
  | None => T
  end.

(** Modelled from the spec: the external cancel request, which sets
    [cancel_requested] on the task's record (no route of the source does it;
    the worker only reads the flag). *)
Definition request_cancel (task_id : string) (T : registry) : registry :=
  safe_update_tasks task_id {[ "cancel_requested" := VBool true ]} T.

Definition deliver (task_id : string) (w : world) : world :=
  let T := request_cancel task_id (TASKS w) in
  log (EvTasks T) (set_TASKS T (log (EvCancel task_id) w)).

(** Every atomic action of the worker comes after whatever the other threads
    did to the registry since its previous one.  [tick] performs that and
    yields the number of the action. *)
Definition ticked (w : world) : world :=
  set_steps (S (steps w)) (foldr deliver w (cancel_requests (outside w) (steps w))).

Definition tick {R} : M R nat := λ w, (Val (steps w), ticked w).
Arguments ticked : simpl never.

Definition emit {R} (e : event) : M R unit := λ w, (Val tt, log e w).

Definition the_world {R} : M R world := λ w, (Val w, w).

(** The world after [st.update(kv)] on the record of [task_id]. *)
Definition updated (task_id : string) (kv : record) (w : world) : world :=
  let T := safe_update_tasks task_id kv (TASKS w) in
  log (EvTasks T) (set_TASKS T w).

(** [_safe_update(task_id, kv)], one critical section. *)
Definition _safe_update {R} (task_id : string) (kv : record) : M R unit :=
  tick ;;
  λ w, (Val tt, updated task_id kv w).

(** [_get_state(task_id)]: [dict(TASKS.get(task_id) or {})], a copy. *)
Definition _get_state {R} (task_id : string) : M R record :=
  tick ;;
  emit (EvSnapshot task_id) ;;
  w ← the_world;
  ret (match TASKS w !! task_id with
       | Some st => if dict_truthy st then st else ∅
       | None => ∅
       end).

(** [d.get(key)] where a missing key gives [None]. *)
Definition dict_get (d : record) (key : string) : value := default VNone (d !! key).

(** ** Library calls *)

Definition time_time {R} : M R Q :=
  n ← tick; w ← the_world; ret (clock (outside w) n).

Definition time_sleep {R} (seconds : Q) : M R unit :=
  tick ;; emit (EvSleep seconds).

Definition print {R} : M R unit := tick ;; emit EvPrint.

(** [requests.get(url, params=dict(..., q=text), timeout=15)] *)
Definition requests_get {R} (q : pystr) : M R response :=
  n ← tick;
  emit (EvRequest q) ;;
  w ← the_world;
  match net (outside w) n with
  | Answers r => ret r
  | Fails e => raise e
  end.

(** [r.json()] *)
Definition response_json {R} (r : response) : M R pyval :=
  match body r with
  | Some v => ret v
  | None => raise (Exception "JSONDecodeError" [])
  end.

(** ** The translation client *)

Definition FAILED : pystr := utf8 "翻译失败".

(** [2 ** attempt + 0.5] *)
Definition backoff (attempt : Z) : Q := (inject_Z (2 ^ attempt) + (1 # 2))%Q.

(** One turn of the retry loop: lines 22 to 32. *)
Definition attempt_once (text : pystr) (attempt : Z) : M pystr unit :=
  try_except
    (r ← requests_get text;
     (if status_code r =? 200 then
        data ← response_json r;
        ok ← (if py_truthy data
              then d0 ← lift (getitem0 data); ret (py_truthy d0)
              else ret false);
        if (ok : bool) then
          d0 ← lift (getitem0 data);
          segs ← lift (iterate d0);
          parts ← lift (map_exn getitem0 segs);
          s ← lift (str_join parts);
          Return s
        else Return FAILED
      else ret tt) ;;
     time_sleep (backoff attempt))
    (λ e,
      if attempt =? 3 then
        print ;;
        Return FAILED
      else time_sleep (backoff attempt)).

Definition translate_text (text : pystr) : M pystr pystr :=
  if negb (str_truthy text) || negb (str_truthy (strip text)) then Return [] else
  let text := take 5000 text in
  for_ [1; 2; 3] (attempt_once text) ;;
  Return FAILED.

(** ** Worksheets (openpyxl) *)

(** [ws.cell(row=r, column=c).value]; a cell that does not exist reads as
    [None].  (openpyxl creates the empty cell on access; every row the
    worker accesses is at most [max_row], so reading is modelled as pure.) *)
Definition cell_value_at (ws : worksheet) (r c : nat) : cell_value :=
  default CNone (cells ws !! (r, c)).

(** [ws.max_row], [ws.max_column]: the largest index of an existing cell,
    1 for an empty sheet. *)
Definition max_row (ws : worksheet) : nat :=
  max_list (1%nat :: ((λ kv, kv.1.1) <$> map_to_list (cells ws))).
Definition max_column (ws : worksheet) : nat :=
  max_list (1%nat :: ((λ kv, kv.1.2) <$> map_to_list (cells ws))).

(** [ws[r]]: the cells of row [r], columns 1 to [max_column]. *)
Definition row_values (ws : worksheet) (r : nat) : list cell_value :=
  (λ c, cell_value_at ws r c) <$> seq 1 (max_column ws).

(** [ws.cell(row=r, column=c, value=v)] *)
Definition write_cell (r c : nat) (v : cell_value) (ws : worksheet) : worksheet :=
  Worksheet (<[(r, c) := v]> (cells ws)).

(** The characters a cell refuses in a text: openpyxl's
    [ILLEGAL_CHARACTERS_RE], [[\000-\010]|[\013-\014]|[\016-\037]]. *)
Definition illegal_char (c : N) : bool :=
  ((c <=? 8) || (11 <=? c) && (c <=? 12) || (14 <=? c) && (c <=? 31))%N.

(** The longest text a cell holds. *)
Definition CELL_TEXT_LIMIT : nat := N.to_nat 32767.

(** [Cell.check_string]: a text is cut to 32767 characters, and refused when
    one of them is illegal. *)
Definition check_string (s : pystr) : exn + pystr :=
  let s := take CELL_TEXT_LIMIT s in
  if existsb illegal_char s
  then inl (Exception "IllegalCharacterError" (s ++ utf8 " cannot be used in worksheets."))
  else inr s.

(** [ws.cell(row=r, column=c, value=text)] for a [str] that is not known in
    advance: the cell takes the checked text, or the call raises. *)
Definition set_cell_text (r c : nat) (text : pystr) (ws : worksheet) : exn + worksheet :=
  match check_string text with
  | inl e => inl e
  | inr s => inr (write_cell r c (CStr s) ws)
  end.

(** [ws.insert_cols(idx)]: the cells from column [idx] on move one column
    to the right. *)
Definition shift_col (idx : nat) (k : nat * nat) : nat * nat :=
  if (idx <=? k.2)%nat then (k.1, S k.2) else k.
Definition insert_cols (idx : nat) (ws : worksheet) : worksheet :=
  Worksheet (kmap (shift_col idx) (cells ws)).

(** [str(cell.value)] *)
Definition str_of_cell (v : cell_value) : pystr :=
  match v with
  | CNone => utf8 "None"
  | CStr s => s
  | CInt z => str_of_Z z
  | CBool true => utf8 "True"
  | CBool false => utf8 "False"
  | COther shown => shown
  end.

Definition str_eqb (a b : pystr) : bool := bool_decide (a = b).

(** [cell.value != s] for a [str] s. *)
Definition cell_differs (v : cell_value) (s : pystr) : bool :=
  match v with
  | CStr t => negb (str_eqb t s)
  | _ => true
  end.

(** The header search: the first [idx] (from [idx0]) whose cell reads
    "title" once stripped and lowered. *)
Fixpoint find_title (idx0 : nat) (row : list cell_value) : option nat :=
  match row with
  | [] => None
  | v :: rest =>
      if str_eqb (lower (strip (str_of_cell v))) (utf8 "title") then Some idx0
      else find_title (S idx0) rest
  end.

(** [[r for r in range(2, ws.max_row + 1)
      if str(ws.cell(row=r, column=col).value).strip()]] *)
Definition rows_to_translate (ws : worksheet) (col : nat) : list nat :=
  filter (λ r, str_truthy (strip (str_of_cell (cell_value_at ws r col))) = true)
         (seq 2 (max_row ws - 1)).

(** ** Paths and files (os.path, shutil) *)

Definition SLASH : N := 47%N.
Definition DOT : N := 46%N.

Fixpoint take_while {A} (f : A → bool) (l : list A) : list A :=
  match l with
  | x :: l' => if f x then x :: take_while f l' else []
  | [] => []
  end.
Fixpoint drop_while {A} (f : A → bool) (l : list A) : list A :=
  match l with
  | x :: l' => if f x then drop_while f l' else l
  | [] => []
  end.

(** The part of [p] after its last [c], and the part up to and including
    it (empty when [c] does not occur). *)
Definition after_last (c : N) (p : pystr) : pystr :=
  rev (take_while (λ x, negb (x =? c)%N) (rev p)).
Definition upto_last (c : N) (p : pystr) : pystr :=
  rev (drop_while (λ x, negb (x =? c)%N) (rev p)).

Definition rstrip_char (c : N) (p : pystr) : pystr :=
  rev (drop_while (λ x, (x =? c)%N) (rev p)).

(** [os.path.basename] *)
Definition basename (p : pystr) : pystr := after_last SLASH p.

(** [os.path.dirname] *)
Definition dirname (p : pystr) : pystr :=
  let head := upto_last SLASH p in
  if str_truthy head && negb (forallb (λ x, (x =? SLASH)%N) head)
  then rstrip_char SLASH head else head.

(** [os.path.splitext(p)[0]]: the extension starts at the last dot of the
    last component, unless only dots precede it there. *)
Definition splitext_root (p : pystr) : pystr :=
  let name := after_last SLASH p in
  let stem := upto_last DOT name in
  match stem with
  | [] => p
  | _ =>
      let before := take (length stem - 1) stem in
      if forallb (λ x, (x =? DOT)%N) before then p
      else upto_last SLASH p ++ before
  end.

(** [os.path.join(a, b)] *)
Definition path_join (a b : pystr) : pystr :=
  match b with
  | c :: _ =>
      if (c =? SLASH)%N then b
      else match last a with
           | None => b
           | Some d => if (d =? SLASH)%N then a ++ b else a ++ SLASH :: b
           end
  | [] =>
      match last a with
      | None => b
      | Some d => if (d =? SLASH)%N then a else a ++ [SLASH]
      end
  end.

Fixpoint starts_with (prefix p : pystr) : bool :=
  match prefix, p with
  | [], _ => true
  | c :: prefix', d :: p' => (c =? d)%N && starts_with prefix' p'
  | _ :: _, [] => false
  end.

(** A path lies under a directory.  Directories are not stored: one exists
    when a file lies under it. *)
Definition under (base p : pystr) : bool :=
  str_truthy base && starts_with (rstrip_char SLASH base ++ [SLASH]) p.

(** [os.path.isdir(base)] *)
Definition isdir (fs : gmap pystr file) (base : pystr) : bool :=
  existsb (λ kv, under base kv.1) (map_to_list fs).

(** [load_workbook(file_path)] *)
Definition load_workbook {R} (file_path : pystr) : M R workbook :=
  tick ;;
  w ← the_world;
  match files w !! file_path with
  | Some (XlsxFile wb) => ret wb
  | Some OtherFile => raise (Exception "InvalidFileException" file_path)
  | None => raise (Exception "FileNotFoundError" file_path)
  end.

(** [wb.save(path)] *)
Definition save {R} (wb : workbook) (path : pystr) : M R unit :=
  n ← tick;
  emit (EvSave path wb) ;;
  w ← the_world;
  match save_error (outside w) n with
  | Some e => raise e
  | None => λ w, (Val tt, set_files (<[path := XlsxFile wb]> (files w)) w)
  end.

(** [shutil.rmtree(base, ignore_errors=True)] *)
Definition rmtree {R} (base : pystr) : M R unit :=
  tick ;;
  emit (EvRmtree base) ;;
  λ w, (Val tt, set_files (filter (λ kv, under base kv.1 = false) (files w)) w).

(** [TASKS.pop(task_id, None)], what the eviction thread does once
    [TASK_RETENTION_SECONDS] have passed. *)
Definition TASK_RETENTION_SECONDS : Z := 1800.
Definition evict (task_id : string) (T : registry) : registry := delete task_id T.

(** [_schedule_state_cleanup(task_id)]: the thread is started; it evicts the
    record after the worker is done. *)
Definition _schedule_state_cleanup {R} (task_id : string) : M R unit :=
  tick ;; emit (EvCleanup task_id).

(** ** Numbers *)

(** A float is the rational it stands for: the rounding of float arithmetic
    is not modelled.  Two integers are taken from quotients: [eta_seconds],
    an estimate of which no property below uses the value, and [percent_of],
    where the rounding does not matter (see there). *)

(** [a / b] with a float: division by zero raises. *)
Definition truediv (a b : Q) : exn + Q :=
  if Qeq_bool b 0 then inl (Exception "ZeroDivisionError" []) else inr (a / b)%Q.

(** [int(x)]: towards zero. *)
Definition py_int (x : Q) : Z :=
  if Qle_bool 0 x then Qfloor x else Qceiling x.

(** [max(a, b)] on floats. *)
Definition py_max (a b : Q) : Q := if Qle_bool b a then a else b.

(** [range(start, stop, step)] for a positive [step]. *)
Definition py_range (start stop step : nat) : list nat :=
  (λ i, start + i * step)%nat <$> seq 0 ((stop - start + step - 1) / step).

(** [enumerate(l, start)] *)
Fixpoint enumerate {A} (start : nat) (l : list A) : list (nat * A) :=
  match l with
  | [] => []
  | x :: l' => (start, x) :: enumerate (S start) l'
  end.

(** ** The batch worker *)

Definition ValueError (msg : pystr) : exn := Exception "ValueError" msg.

Definition BATCH : nat := 10.

(** [int((total - done_total) / (done_total / elapsed)) if done_total else 0] *)
Definition eta_seconds (total done_total : nat) (elapsed : Q) : exn + Z :=
  if (done_total =? 0)%nat then inr 0 else
  match truediv (inject_Z (Z.of_nat done_total)) elapsed with
  | inl e => inl e
  | inr rate =>
      match truediv (inject_Z (Z.of_nat total - Z.of_nat done_total)) rate with
      | inl e => inl e
      | inr x => inr (py_int x)
      end
  end.

(** [int(done_total * 100 / total)].  The quotient is a float in the source;
    for the row counts a sheet can hold (below 2^53 / 100) the rounded
    quotient has the same integer part as the exact one. *)
Definition percent_of (done_total total : nat) : exn + Z :=
  match truediv (inject_Z (Z.of_nat done_total * 100)) (inject_Z (Z.of_nat total)) with
  | inl e => inl e
  | inr x => inr (py_int x)
  end.

(** One row of a batch: lines 98 to 111. *)
Definition translate_row (task_id : string) (title_col_idx insert_idx total : nat)
    (start : Q) (batch_start : nat) (item : nat * nat) (ws : worksheet)
    : M unit worksheet :=
  let '(done_in_batch, row) := item in
  let title_cell := cell_value_at ws row title_col_idx in
  emit (EvTranslate row (str_of_cell title_cell)) ;;
  translated ← call (translate_text (str_of_cell title_cell));
  ws ← lift (set_cell_text row insert_idx translated ws);
  let done_total := (batch_start + done_in_batch)%nat in
  now ← time_time;
  let elapsed := py_max (now - start)%Q (1 # 1000000) in
  eta ← lift (eta_seconds total done_total elapsed);
  percent ← lift (percent_of done_total total);
  _safe_update task_id
    {[ "current" := VInt (Z.of_nat done_total);
       "percent" := VInt percent;
       "eta_seconds" := VInt eta;
       "message" := VStr (utf8 "翻译中(" ++ str_of_nat done_total ++ utf8 "/"
                            ++ str_of_nat total ++ utf8 ")") ]} ;;
  ret ws.

(** One batch: lines 92 to 115. *)
Definition run_batch (task_id : string) (title_col_idx insert_idx : nat)
    (rows_to_tr : list nat) (start : Q) (output_path : pystr)
    (batch_start : nat) (ws : worksheet) : M unit worksheet :=
  let total := length rows_to_tr in
  st ← _get_state task_id;
  if truthy (dict_get st "cancel_requested") then
    _safe_update task_id
      {[ "status" := VStr (utf8 "canceled"); "message" := VStr (utf8 "已取消") ]} ;;
    Return tt
  else
    let batch_rows := take BATCH (drop batch_start rows_to_tr) in
    ws ← for_with (enumerate 1 batch_rows) ws
           (translate_row task_id title_col_idx insert_idx total start batch_start);
    save (Workbook (Some ws)) output_path ;;
    time_sleep 2 ;;
    ret ws.

(** Lines 72 to 75: the column to the right of Title takes the
    translations; it is inserted unless its header says it is there. *)
Definition with_translation_column (ws : worksheet) (title_col_idx : nat) : worksheet :=
  let insert_idx := (title_col_idx + 1)%nat in
  if cell_differs (cell_value_at ws 1 insert_idx) (utf8 "中文")
  then write_cell 1 insert_idx (CStr (utf8 "中文")) (insert_cols insert_idx ws)
  else ws.

(** The body of the [try] of [_run_task]: lines 57 to 124. *)
Definition run_task_body (file_path : pystr) (task_id : string) : M unit unit :=
  wb ← load_workbook file_path;
  ws ← match active wb with
       | Some ws => ret ws
       | None => raise (ValueError (utf8 "空工作表"))
       end;
  title_col_idx ← match find_title 1 (row_values ws 1) with
                  | Some idx => ret idx
                  | None => raise (ValueError (utf8 "找不到 Title 列"))
                  end;
  let insert_idx := (title_col_idx + 1)%nat in
  let ws := with_translation_column ws title_col_idx in
  let rows_to_tr := rows_to_translate ws title_col_idx in
  let total := length rows_to_tr in
  _safe_update task_id {[ "total" := VInt (Z.of_nat total); "current" := VInt 0 ]} ;;
  if (total =? 0)%nat then
    _safe_update task_id
      {[ "status" := VStr (utf8 "done"); "percent" := VInt 100;
         "message" := VStr (utf8 "无需翻译") ]} ;;
    Return tt
  else
    start ← time_time;
    let output_path :=
      path_join (utf8 "/tmp")
        (splitext_root (basename file_path) ++ utf8 "_中文翻译.xlsx") in
    for_with (py_range 0 total BATCH) ws
      (run_batch task_id title_col_idx insert_idx rows_to_tr start output_path) ;;
    finished ← time_time;
    _safe_update task_id
      {[ "status" := VStr (utf8 "done");
         "percent" := VInt 100;
         "eta_seconds" := VInt 0;
         "message" := VStr (utf8 "翻译完成，共处理 " ++ str_of_nat total ++ utf8 " 行");
         "download_filename" := VStr (basename output_path);
         "finished_at" := VFloat finished ]}.

(** The [except Exception as e] of [_run_task]. *)
Definition run_task_failed (task_id : string) (e : exn) : M unit unit :=
  finished ← time_time;
  _safe_update task_id
    {[ "status" := VStr (utf8 "error"); "message" := VStr (exn_msg e);
       "finished_at" := VFloat finished ]}.

(** The [finally] of [_run_task]. *)
Definition run_task_finally (file_path : pystr) (task_id : string) : M unit unit :=
  try_except
    (let base := dirname file_path in
     w ← the_world;
     if isdir (files w) base then rmtree base else ret tt)
    (λ _, ret tt) ;;
  _schedule_state_cleanup task_id.

Definition _run_task (file_path : pystr) (task_id : string) : M unit unit :=
  started ← time_time;
  _safe_update task_id
    {[ "status" := VStr (utf8 "running"); "message" := VStr (utf8 "读取文件...");
       "percent" := VInt 0; "started_at" := VFloat started ]} ;;
  try_finally
    (try_except (run_task_body file_path task_id) (run_task_failed task_id))
    (run_task_finally file_path task_id).

(** The record [start_background_task] registers. *)
Definition initial_state (file_path filename : pystr) : record :=
  {[ "status" := VStr (utf8 "idle"); "percent" := VInt 0; "total" := VInt 0;
     "current" := VInt 0; "cancel_requested" := VBool false;
     "tmp_dir" := VStr (dirname file_path); "filename" := VStr filename ]}.

(** [start_background_task(file_path, filename)], with the identifier that
    [uuid.uuid4().hex[:12]] produced; the worker thread it starts is
    [_run_task file_path task_id]. *)
Definition start_background_task {R} (task_id : string) (file_path filename : pystr)
    : M R string :=
  tick ;;
  (λ w, let T := <[task_id := initial_state file_path filename]> (TASKS w) in
        (Val tt, log (EvTasks T) (set_TASKS T w))) ;;
  ret task_id.

(** ** The routes *)

(** [task_status(task_id)]: the status code and the object sent as JSON. *)
Definition task_status {R} (task_id : string) : M R (Z * record) :=
  st ← _get_state task_id;
  if dict_truthy st then ret (200, st)
  else ret (404, {[ "error" := VStr (utf8 "任务不存在") ]}).

(** What [download_file] answers: the file as an attachment, or a text with
    a status code. *)
Inductive download : Type :=
| Attachment (path : pystr) (f : file) (download_name : pystr)
| Text (code : Z) (body : pystr).

(** [os.path.exists(p)]: there is a file or a directory. *)
Definition path_exists (fs : gmap pystr file) (p : pystr) : bool :=
  bool_decide (is_Some (fs !! p)) || isdir fs p.

(** [download_file(filename)]; [send_file] raises on a directory. *)
Definition download_file {R} (filename : pystr) : M R download :=
  let file_path := path_join (utf8 "/tmp") filename in
  w ← the_world;
  if path_exists (files w) file_path then
    match files w !! file_path with
    | Some f => ret (Attachment file_path f filename)
    | None => raise (Exception "IsADirectoryError" file_path)
    end
  else ret (Text 404 (utf8 "文件不存在")).

(** A message of the event stream: [data: ...] alone, or with an
    [event: ...] line before it.  The payload is the object that
    [json.dumps] writes. *)
Inductive sse_message : Type :=
| SseData (payload : record)
| SseEvent (name : pystr) (payload : record).

(** [v in ("done", "error", "canceled")] *)
Definition is_terminal (v : value) : bool :=
  match v with
  | VStr s => bool_decide (s ∈ [utf8 "done"; utf8 "error"; utf8 "canceled"])
  | _ => false
  end.

Section sse.
(** The text of a float in an f-string is left open. *)
Variable float_str : Q → pystr.

(** [f"{v}"] *)
Definition format_value (v : value) : pystr :=
  match v with
  | VNone => utf8 "None"
  | VBool true => utf8 "True"
  | VBool false => utf8 "False"
  | VInt z => str_of_Z z
  | VFloat q => float_str q
  | VStr s => s
  end.

(** The payload of a progress message (lines 155 to 166). *)
Definition sse_payload (task_id : string) (st : record) : record :=
  {[ "task_id" := VStr (utf8 task_id);
     "status" := dict_get st "status";
     "percent" := dict_get st "percent";
     "eta_seconds" := dict_get st "eta_seconds";
     "message" := dict_get st "message";
     "download_url" :=
       (if truthy (dict_get st "download_filename")
        then VStr (utf8 "/download/" ++ format_value (dict_get st "download_filename"))
        else VNone);
     "filename" := dict_get st "filename";
     "started_at" := dict_get st "started_at";
     "finished_at" := dict_get st "finished_at";
     "duration_seconds" := dict_get st "duration_seconds" ]}.

(** One turn of the [while True] of [gen]: the message it yields, and
    whether the loop goes on. *)
Definition sse_turn {R} (task_id : string) : M R (sse_message * bool) :=
  st ← _get_state task_id;
  if negb (dict_truthy st) then
    ret (SseData {[ "status" := VStr (utf8 "error");
                    "message" := VStr (utf8 "任务不存在") ]}, false)
  else
    let payload := sse_payload task_id st in
    if is_terminal (dict_get st "status") then
      ret (SseEvent (utf8 "progress") payload, false)
    else
      time_sleep (1 # 5) ;;
      ret (SseEvent (utf8 "progress") payload, true).

(** The stream of [sse_progress(task_id)] as far as [turns] turns of the
    loop go: the messages, and whether the stream is over. *)
Fixpoint sse_progress {R} (turns : nat) (task_id : string)
    : M R (list sse_message * bool) :=
  match turns with
  | O => ret ([], false)
  | S turns' =>
      turn ← sse_turn task_id;
      if (turn.2 : bool) then
        rest ← sse_progress turns' task_id;
        ret (turn.1 :: rest.1, rest.2)
      else ret ([turn.1], true)
  end.
End sse.

(** * Vocabulary of the specification *)

(** ** Reasoning about statements *)

Definition triple {R A} (P : world → Prop) (m : M R A)
    (Q : res R A → world → Prop) : Prop :=
  ∀ w, P w → Q (m w).1 (m w).2.

(** What an observer sees of a world: the registry and the trace. *)
Abbreviation obs := (registry * list event)%type.
Definition see (w : world) : obs := (TASKS w, trace w).

(** The observable part evolves by events of a class [ok] and by cancel
    requests of other threads. *)
Inductive evo (ok : event → Prop) : obs → obs → Prop :=
| evo_refl o : evo ok o o
| evo_log o T tr e : evo ok o (T, tr) → ok e → evo ok o (T, e :: tr)
| evo_deliver o T tr tid :
    evo ok o (T, tr) →
    evo ok o (request_cancel tid T,
              EvTasks (request_cancel tid T) :: EvCancel tid :: tr).

Definition ambient {R A} (ok : event → Prop) (m : M R A) : Prop :=
  ∀ w, evo ok (see w) (see (m w).2).

Definition stable (ok : event → Prop) (I : obs → Prop) : Prop :=
  ∀ o o', evo ok o o' → I o → I o'.

Definition falls {R A} (m : M R A) : Prop := ∀ w r, (m w).1 ≠ Ret r.

(** ** The translation client *)


(** The text is empty or only whitespace. *)
Definition blank (text : pystr) : bool := forallb py_isspace text.

(** The endpoint fails: a response other than 200, or no response. *)
Definition failing (o : net_outcome) : Prop :=
  match o with
  | Answers r => status_code r ≠ 200
  | Fails _ => True
  end.

Definition requests (tr : list event) : list pystr :=
  omap (λ e, match e with EvRequest q => Some q | _ => None end) tr.
Definition sleeps (tr : list event) : list Q :=
  omap (λ e, match e with EvSleep d => Some d | _ => None end) tr.

Definition no_exc {R A} (r : res R A) : Prop :=
  match r with Exc _ => False | _ => True end.

(** ** The history of a task *)

Definition states (tr : list event) : list registry :=
  omap (λ e, match e with EvTasks T => Some T | _ => None end) tr.

(** The successive records of a task, newest first. *)
Definition history (task_id : string) (tr : list event) : list record :=
  omap (λ T : registry, T !! task_id) (states tr).

Definition not_tasks (e : event) : Prop :=
  match e with EvTasks _ => False | _ => True end.

(** The fields of a record that the worker's progress is read from. *)
Record view : Type := View {
  v_status : option value;
  v_percent : option value;
  v_current : option value;
  v_total : option value;
  v_download : option value;
  v_finished : option value;
}.

Definition view_of (r : record) : view :=
  View (r !! "status") (r !! "percent") (r !! "current") (r !! "total")
       (r !! "download_filename") (r !! "finished_at").

Definition first_of (a b : option value) : option value :=
  match a with Some x => Some x | None => b end.

(** The view after [st.update(kv)]. *)
Definition merge_view (kv v : view) : view :=
  View (first_of (v_status kv) (v_status v)) (first_of (v_percent kv) (v_percent v))
       (first_of (v_current kv) (v_current v)) (first_of (v_total kv) (v_total v))
       (first_of (v_download kv) (v_download v)) (first_of (v_finished kv) (v_finished v)).

Definition vint (z : Z) : option value := Some (VInt z).
Definition vstr (s : string) : option value := Some (VStr (utf8 s)).

(** [floor(c * 100 / N)], and 0 while the total is not known. *)
Definition pct (c N : Z) : Z := if N =? 0 then 0 else c * 100 / N.

(** The shapes a record goes through. *)
Inductive shape : Type :=
| Idle
| Live (N c : Z)
| DoneEmpty
| Canceled (N c : Z)
| DoneFull (N c : Z)
| Failed (N c : Z).

Definition has_shape (s : shape) (v : view) : Prop :=
  match s with
  | Idle => v = View (vstr "idle") (vint 0) (vint 0) (vint 0) None None
  | Live N c =>
      0 ≤ c ≤ N ∧
      v = View (vstr "running") (vint (pct c N)) (vint c) (vint N) None None
  | DoneEmpty => v = View (vstr "done") (vint 100) (vint 0) (vint 0) None None
  | Canceled N c =>
      0 ≤ c ≤ N ∧
      v = View (vstr "canceled") (vint (pct c N)) (vint c) (vint N) None None
  | DoneFull N c =>
      0 ≤ c ≤ N ∧ N ≠ 0 ∧
      ∃ f t, v = View (vstr "done") (vint 100) (vint c) (vint N) (Some f) (Some t)
  | Failed N c =>
      0 ≤ c ≤ N ∧
      ∃ t, v = View (vstr "error") (vint (pct c N)) (vint c) (vint N) None (Some t)
  end.

Definition shaped (v : view) : Prop := ∃ s, has_shape s v.

Definition num (o : option value) : Z :=
  match o with Some (VInt z) => z | _ => 0 end.

(** From an older view to a newer one, progress does not go back. *)
Definition advances (v v' : view) : Prop :=
  num (v_percent v) ≤ num (v_percent v') ∧ num (v_current v) ≤ num (v_current v').

Fixpoint climbing (h : list view) : Prop :=
  match h with
  | v' :: rest =>
      match rest with v :: _ => advances v v' | [] => True end ∧ climbing rest
  | [] => True
  end.

(** The invariant of a run: the task's record is there and satisfies [φ],
    it is the newest of the history, every record of the history has one of
    the shapes, and progress never went back. *)
Definition Hist (task_id : string) (φ : view → Prop) (o : obs) : Prop :=
  (∃ r, o.1 !! task_id = Some r ∧ φ (view_of r)) ∧
  (∀ r, head (history task_id o.2) = Some r → o.1 !! task_id = Some r) ∧
  Forall (λ r, shaped (view_of r)) (history task_id o.2) ∧
  climbing (view_of <$> history task_id o.2).

(** The current record is [Live] with at most [b] rows done. *)
Definition live_upto (N b : Z) (v : view) : Prop :=
  ∃ c, c ≤ b ∧ has_shape (Live N c) v.

Definition cancel_kv : record := {[ "cancel_requested" := VBool true ]}.

(** The events of the translation client, and of the clean-up. *)
Definition client_event (e : event) : bool :=
  match e with EvRequest _ | EvSleep _ | EvPrint => true | _ => false end.
Definition cleanup_event (e : event) : bool :=
  match e with EvRmtree _ | EvCleanup _ => true | _ => false end.

Definition canceled_view (N : Z) (v : view) : Prop := ∃ c, has_shape (Canceled N c) v.

(** What a batch leaves: it went through, the task was canceled, or an
    exception propagates. *)
Definition after_batch (task_id : string) (rows_to_tr : list nat) (b : Z)
    (r : res unit worksheet) (w : world) : Prop :=
  match r with
  | Val _ => Hist task_id (live_upto (Z.of_nat (length rows_to_tr)) b) (see w)
  | Ret _ => Hist task_id (canceled_view (Z.of_nat (length rows_to_tr))) (see w)
  | Exc _ => Hist task_id (live_upto (Z.of_nat (length rows_to_tr))
                             (Z.of_nat (length rows_to_tr))) (see w)
  end.

Definition finished_view (v : view) : Prop := ∃ N c, has_shape (DoneFull N c) v.
Definition stopped_view (v : view) : Prop :=
  has_shape DoneEmpty v ∨ ∃ N c, has_shape (Canceled N c) v.
Definition live_view (v : view) : Prop := ∃ N c, has_shape (Live N c) v.
Definition failed_view (v : view) : Prop := ∃ N c, has_shape (Failed N c) v.

Definition after_body (task_id : string) (r : res unit unit) (w : world) : Prop :=
  match r with
  | Val _ => Hist task_id finished_view (see w)
  | Ret _ => Hist task_id stopped_view (see w)
  | Exc _ => Hist task_id live_view (see w)
  end.

(** ** Reading the records *)


(** The records of a task that could be observed during a run, the last
    one included. *)
Definition seen (task_id : string) (w : world) (r : record) : Prop :=
  r ∈ history task_id (trace w) ∨ TASKS w !! task_id = Some r.

Definition has_field (key : string) (r : record) : Prop := is_Some (r !! key).
Definition status_is (s : string) (r : record) : Prop :=
  r !! "status" = Some (VStr (utf8 s)).

(** The kinds of record behind the shapes. *)
Inductive kind : Type := Unfinished | Error | DoneNothing | DoneAll.

Definition of_kind (k : kind) (r : record) (t : Z) : Prop :=
  match k with
  | Unfinished =>
      (status_is "idle" r ∨ status_is "running" r ∨ status_is "canceled" r) ∧
      r !! "download_filename" = None ∧ r !! "finished_at" = None
  | Error =>
      status_is "error" r ∧
      r !! "download_filename" = None ∧ has_field "finished_at" r
  | DoneNothing =>
      status_is "done" r ∧ t = 0 ∧
      r !! "download_filename" = None ∧ r !! "finished_at" = None
  | DoneAll =>
      status_is "done" r ∧ t ≠ 0 ∧
      has_field "download_filename" r ∧ has_field "finished_at" r
  end.

(** ** Cancellation *)

Definition is_translate (e : event) : bool :=
  match e with EvTranslate _ _ => true | _ => false end.
Definition is_snapshot (task_id : string) (e : event) : bool :=
  match e with EvSnapshot t => bool_decide (t = task_id) | _ => false end.
Definition is_cancel (task_id : string) (e : event) : bool :=
  match e with EvCancel t => bool_decide (t = task_id) | _ => false end.
(** A row is translated, the endpoint is called, the output file is written. *)
Definition is_effect (e : event) : bool :=
  match e with EvTranslate _ _ | EvRequest _ | EvSave _ _ => true | _ => false end.

(** A cancel request for the task has arrived; the flag was checked. *)
Definition requested (task_id : string) (tr : list event) : bool :=
  existsb (is_cancel task_id) tr.
Definition checked (task_id : string) (tr : list event) : bool :=
  existsb (is_snapshot task_id) tr.

(** The number of rows whose translation began after the first cancel
    request for the task. *)
Fixpoint translated_since_request (task_id : string) (tr : list event) : nat :=
  match tr with
  | [] => 0%nat
  | e :: older =>
      ((if is_translate e && requested task_id older then 1 else 0)
       + translated_since_request task_id older)%nat
  end.

(** The number of rows whose translation began after the last check. *)
Fixpoint translated_since_check (task_id : string) (tr : list event) : nat :=
  match tr with
  | [] => 0%nat
  | e :: older =>
      if is_snapshot task_id e then 0%nat
      else ((if is_translate e then 1 else 0) + translated_since_check task_id older)%nat
  end.

(** Every translation comes after a check of the flag, with fewer than
    [BATCH] translations in between. *)
Fixpoint batched (task_id : string) (tr : list event) : Prop :=
  match tr with
  | [] => True
  | e :: older =>
      (is_translate e = true →
       checked task_id older = true ∧
       (translated_since_check task_id older < BATCH)%nat)
      ∧ batched task_id older
  end.

(** No check so far came after a cancel request. *)
Fixpoint unanswered (task_id : string) (tr : list event) : Prop :=
  match tr with
  | [] => True
  | e :: older =>
      (is_snapshot task_id e = true → requested task_id older = false)
      ∧ unanswered task_id older
  end.

Definition quiet (tr : list event) : Prop := Forall (λ e, is_effect e = false) tr.
Definition silent (task_id : string) (tr : list event) : Prop :=
  Forall (λ e, is_effect e = false ∧ is_snapshot task_id e = false) tr.

(** The last check came after a cancel request was answered: nothing but
    book-keeping happened since. *)
Definition answering (task_id : string) (tr : list event) : Prop :=
  ∃ newer older, tr = newer ++ EvSnapshot task_id :: older ∧
                 silent task_id newer ∧ unanswered task_id older.

Definition flagged (task_id : string) (T : registry) : bool :=
  match T !! task_id with
  | Some rec => truthy (dict_get rec "cancel_requested")
  | None => false
  end.
Definition present (task_id : string) (T : registry) : Prop :=
  ∃ rec, T !! task_id = Some rec ∧ dict_truthy rec = true.
Definition canceled (task_id : string) (T : registry) : Prop :=
  ∃ rec, T !! task_id = Some rec ∧ status_is "canceled" rec.

(** The record is there, and carries the flag once a request arrived. *)
Definition heeds (task_id : string) (o : obs) : Prop :=
  present task_id o.1 ∧ (requested task_id o.2 = true → flagged task_id o.1 = true).

Definition trace_ok (task_id : string) (n : nat) (tr : list event) : Prop :=
  unanswered task_id tr ∧ batched task_id tr ∧
  (translated_since_request task_id tr ≤ n)%nat.
Definition in_batch (task_id : string) (j : nat) (tr : list event) : Prop :=
  checked task_id tr = true ∧ (translated_since_check task_id tr ≤ j)%nat.

(** Between two batches; [j] rows into a batch; after the cancellation. *)
Definition between (task_id : string) (o : obs) : Prop :=
  heeds task_id o ∧ trace_ok task_id BATCH o.2.
Definition within (task_id : string) (j : nat) (o : obs) : Prop :=
  heeds task_id o ∧ trace_ok task_id j o.2 ∧ in_batch task_id j o.2.
Definition stopping (task_id : string) (o : obs) : Prop :=
  present task_id o.1 ∧ answering task_id o.2 ∧ batched task_id o.2 ∧
  (translated_since_request task_id o.2 ≤ BATCH)%nat.
Definition stopped (task_id : string) (o : obs) : Prop :=
  canceled task_id o.1 ∧ answering task_id o.2 ∧ batched task_id o.2 ∧
  (translated_since_request task_id o.2 ≤ BATCH)%nat.

(** What the claim says of a run. *)
Definition obeys (task_id : string) (o : obs) : Prop :=
  batched task_id o.2 ∧
  (∀ newer older,
      o.2 = newer ++ EvSnapshot task_id :: older →
      requested task_id older = true →
      canceled task_id o.1 ∧ quiet newer) ∧
  (translated_since_request task_id o.2 ≤ BATCH)%nat.

(** Events that are neither a translation nor a check; and not a cancel
    request either; and no effect at all. *)
Definition mute (task_id : string) (e : event) : Prop :=
  is_translate e = false ∧ is_snapshot task_id e = false.
Definition passive (task_id : string) (e : event) : Prop :=
  mute task_id e ∧ is_cancel task_id e = false.
Definition inert (task_id : string) (e : event) : Prop :=
  passive task_id e ∧ is_effect e = false.

(** What a batch leaves as to cancellation. *)
Definition after_batch_cancel {A} (task_id : string) (r : res unit A) (w : world) : Prop :=
  match r with
  | Ret _ => stopped task_id (see w)
  | _ => between task_id (see w)
  end.

(** ** A run that finds no row to translate *)

Definition has_row (ws : worksheet) (r : nat) : Prop :=
  ∃ c, is_Some (cells ws !! (r, c)).

Definition saves (tr : list event) : list pystr :=
  omap (λ e, match e with EvSave path _ => Some path | _ => None end) tr.

(** The record of the task is in the registry and satisfies [P]. *)
Definition record_has (task_id : string) (P : record → Prop) (T : registry) : Prop :=
  ∃ rec, T !! task_id = Some rec ∧ dict_truthy rec = true ∧ P rec.

(** [P] does not depend on the flag that cancel requests set. *)
Definition flag_blind (P : record → Prop) : Prop :=
  ∀ rec, P rec → P ({[ "cancel_requested" := VBool true ]} ∪ rec).

(** The record of a task that is done without a row to translate. *)
Definition done_nothing (rec : record) : Prop :=
  status_is "done" rec ∧ rec !! "percent" = Some (VInt 100) ∧
  rec !! "message" = Some (VStr (utf8 "无需翻译")) ∧
  rec !! "total" = Some (VInt 0).

(** ** The registries the program builds *)

(** The registry starts empty (line 10) and changes at three places:
    [start_background_task] stores a new record, [_safe_update] merges into a
    record, the eviction thread removes one. *)
Inductive reachable : registry → Prop :=
| reach_start : reachable ∅
| reach_create T task_id file_path filename :
    reachable T → reachable (<[task_id := initial_state file_path filename]> T)
| reach_update T task_id kv :
    reachable T → reachable (safe_update_tasks task_id kv T)
| reach_evict T task_id :
    reachable T → reachable (evict task_id T).

(** ** Sample inputs *)

Definition sample_path : pystr := utf8 "/tmp/tmpabc/in.xlsx".
Definition sample_name : pystr := utf8 "in.xlsx".

Definition sheet (l : list (nat * nat * cell_value)) : worksheet :=
  Worksheet (list_to_map l).

(** The endpoint answers with a translation; it answers 500. *)
Definition translated_reply : net_outcome :=
  Answers (Response 200
    (Some (PList [PList [PList [PStr (utf8 "你好"); PStr (utf8 "hello")]]]))).
Definition refused_reply : net_outcome := Answers (Response 500 None).

(** An environment with one reply for every request, a clock that advances
    by a second per action, a disk that works, and a cancel request for task
    "t1" at the given actions. *)
Definition sample_env (reply : net_outcome) (cancel_at : list nat) : env :=
  Env (λ _, reply) (λ n, inject_Z (Z.of_nat n)) (λ _, None)
      (λ n, if bool_decide (n ∈ cancel_at) then ["t1"] else []).

Definition sample_world (E : env) (ws : worksheet) : world :=
  World {[ "t1" := initial_state sample_path sample_name ]}
        {[ sample_path := XlsxFile (Workbook (Some ws)) ]} 0 [] E.

(** A header and nothing else; a row whose Title cell is empty; 25 rows. *)
Definition header_only : worksheet := sheet [((1, 1)%nat, CStr (utf8 "Title"))].
Definition empty_title : worksheet :=
  sheet [((1, 1)%nat, CStr (utf8 "Title")); ((1, 2)%nat, CStr (utf8 "Price"));
         ((2, 2)%nat, CInt 5)].
Definition long_sheet : worksheet :=
  sheet (((1, 1)%nat, CStr (utf8 " TITLE")) ::
         ((λ i, ((i + 2, 1)%nat, CStr (utf8 "x"))) <$> seq 0 25)).

(** The rows the specification counts: from row 2 to the last row, the ones
    whose Title cell has text that is not empty once trimmed; an empty cell
    is not counted. *)
Definition spec_rows_to_translate (ws : worksheet) (col : nat) : list nat :=
  filter (λ r, match cell_value_at ws r col with
               | CNone => false
               | v => str_truthy (strip (str_of_cell v))
               end = true)
         (seq 2 (max_row ws - 1)).

Definition translations (tr : list event) : list (nat * pystr) :=
  omap (λ e, match e with EvTranslate row text => Some (row, text) | _ => None end) tr.

(** ** The batch starts of a run *)

(** The pause that ends a batch, line 115: [time.sleep(2)]. *)
Definition is_pause (e : event) : bool :=
  match e with
  | EvSleep d => (Qnum d =? 2) && (Qden d =? 1)%positive
  | _ => false
  end.

(** The run stands before a batch start that it reaches: the flag was not
    checked yet and there are rows to translate, or a batch was just saved,
    the pause after it is over and rows remain. *)
Definition before_batch (task_id : string) (total : nat) (tr : list event) : Prop :=
  (checked task_id tr = false ∧ (0 < total)%nat) ∨
  (∃ older, tr = EvSleep 2 :: older ∧ (length (translations older) < total)%nat).

(** Every batch start that was reached was followed by a check; by a check,
    or by book-keeping only so far; by a check, and by nothing else when a
    cancel request had arrived. *)
Definition served (task_id : string) (total : nat) (tr : list event) : Prop :=
  ∀ newer older, tr = newer ++ older → before_batch task_id total older →
    checked task_id newer = true.
Definition pending (task_id : string) (total : nat) (tr : list event) : Prop :=
  ∀ newer older, tr = newer ++ older → before_batch task_id total older →
    checked task_id newer = true ∨ silent task_id newer.
Definition settled (task_id : string) (total : nat) (tr : list event) : Prop :=
  ∀ newer older, tr = newer ++ older → before_batch task_id total older →
    checked task_id newer = true ∧ (requested task_id older = true → quiet newer).

(** The run waits for a check with [c] rows translated; it is in a batch;
    it is through with the batches; it halted at a check. *)
Definition waiting (task_id : string) (total c : nat) (o : obs) : Prop :=
  pending task_id total o.2 ∧ length (translations o.2) = c.
Definition working (task_id : string) (total c : nat) (o : obs) : Prop :=
  checked task_id o.2 = true ∧ served task_id total o.2 ∧ length (translations o.2) = c.
Definition through (task_id : string) (total : nat) (o : obs) : Prop :=
  checked task_id o.2 = true ∧ served task_id total o.2.
Definition halted (task_id : string) (total : nat) (o : obs) : Prop :=
  checked task_id o.2 = true ∧ settled task_id total o.2.
Definition at_batch_start (task_id : string) (total c : nat) (o : obs) : Prop :=
  if (c <? total)%nat then waiting task_id total c o else through task_id total o.

(** What the claim says of the batch starts of a run. *)
Definition answers (task_id : string) (total : nat) (o : obs) : Prop :=
  ∀ newer older, o.2 = newer ++ older → before_batch task_id total older →
    checked task_id newer = true ∧
    (requested task_id older = true → canceled task_id o.1 ∧ quiet newer).

(** The events a waiting run may log, a run in a batch, a halted run. *)
Definition calm (task_id : string) (e : event) : Prop :=
  is_effect e = false ∧ is_snapshot task_id e = false.
Definition steady (e : event) : Prop :=
  is_pause e = false ∧ is_translate e = false.
Definition hushed (e : event) : Prop :=
  is_pause e = false ∧ is_effect e = false.


(** ** The sheet and the batches *)

(** The cell reads "title" once stripped and lowered (line 65). *)
Definition reads_title (v : cell_value) : bool :=
  str_eqb (lower (strip (str_of_cell v))) (utf8 "title").

(** The rows of the batch that starts at [batch_start] (line 96). *)
Definition batch_rows_at (rows_to_tr : list nat) (batch_start : nat) : list nat :=
  take BATCH (drop batch_start rows_to_tr).

(** The path the worker saves the workbook to (line 89). *)
Definition output_path_of (file_path : pystr) : pystr :=
  path_join (utf8 "/tmp") (splitext_root (basename file_path) ++ utf8 "_中文翻译.xlsx").

(** ** How a run ends *)

(** The record of a task that has ended. *)
Definition terminal_view (v : view) : Prop :=
  finished_view v ∨ stopped_view v ∨ failed_view v.

(** What keeps the worker from starting on the rows (lines 57 to 69): the
    file cannot be loaded, the workbook has no active sheet, or the first row
    has no cell that reads "title". *)
Definition unusable (fs : gmap pystr file) (file_path : pystr) : option exn :=
  match fs !! file_path with
  | None => Some (Exception "FileNotFoundError" file_path)
  | Some OtherFile => Some (Exception "InvalidFileException" file_path)
  | Some (XlsxFile wb) =>
      match active wb with
      | None => Some (ValueError (utf8 "空工作表"))
      | Some ws =>
          match find_title 1 (row_values ws 1) with
          | None => Some (ValueError (utf8 "找不到 Title 列"))
          | Some _ => None
          end
      end
  end.

(** The record of a task that failed with the message [msg]. *)
Definition failed_with (msg : pystr) (rec : record) : Prop :=
  status_is "error" rec ∧ rec !! "message" = Some (VStr msg) ∧
  has_field "finished_at" rec.



(** ** Answers of the endpoint *)

(** The body of an answer that carries a translation: a list whose first
    element is the list of the segments, each a list that starts with the
    translated text of the segment. *)
Definition segments_body (segs : list (pystr * list pyval)) (rest : list pyval) : pyval :=
  PList (PList ((λ seg, PList (PStr seg.1 :: seg.2)) <$> segs) :: rest).

(** The body of an answer without a translation: [data] or [data[0]] is
    empty. *)
Definition empty_body (data : pyval) : Prop :=
  py_truthy data = false ∨
  ∃ d0 rest, data = PList (d0 :: rest) ∧ py_truthy d0 = false.

(** The sleeps of the retry loop, in the order in which they may occur. *)
Definition BACKOFFS : list Q := [5 # 2; 9 # 2; 17 # 2]%Q.

(** What one turn of the retry loop leaves: one more request, and either
    the loop goes on after the back-off of the attempt, or the function
    returns without a sleep. *)
Definition turn (text : pystr) (attempt : Z) (w : world)
    (x : res pystr unit * world) : Prop :=
  outside x.2 = outside w ∧ files x.2 = files w ∧ (steps w < steps x.2)%nat ∧
  requests (trace x.2) = text :: requests (trace w) ∧
  ((x.1 = Val tt ∧ sleeps (trace x.2) = backoff attempt :: sleeps (trace w))
   ∨ (∃ s, x.1 = Ret s ∧ sleeps (trace x.2) = sleeps (trace w))).



(** ** A run that translates every row *)

(** No cancel request for the task arrives; saving never fails. *)
Definition quiet_for (task_id : string) (E : env) : Prop :=
  ∀ n, task_id ∉ cancel_requests E n.
Definition saves_work (E : env) : Prop := ∀ n, save_error E n = None.

(** A decoded answer without a character that a worksheet refuses, in its
    strings and in the keys of its objects. *)
Fixpoint clean_value (v : pyval) : bool :=
  match v with
  | PStr s => negb (existsb illegal_char s)
  | PList l => forallb clean_value l
  | PDict d => forallb (λ kv, negb (existsb illegal_char kv.1) && clean_value kv.2) d
  | _ => true
  end.

(** The endpoint never answers with such a character. *)
Definition clean_endpoint (E : env) : Prop :=
  ∀ n r data, net E n = Answers r → body r = Some data → clean_value data = true.

(** From [w] to [w'] nothing happened to the files, to the record of the
    task (as long as no cancel request arrives for it), to the rows
    translated and to the workbooks saved. *)
Definition kept (task_id : string) (w w' : world) : Prop :=
  outside w' = outside w ∧ files w' = files w ∧
  (quiet_for task_id (outside w) → TASKS w' !! task_id = TASKS w !! task_id) ∧
  translations (trace w') = translations (trace w) ∧
  saves (trace w') = saves (trace w).

(** The record of a task that is running, with [k] of [N] rows done and no
    cancel request. *)
Definition running_at (N k : nat) (rec : record) : Prop :=
  status_is "running" rec ∧
  rec !! "total" = Some (VInt (Z.of_nat N)) ∧
  rec !! "current" = Some (VInt (Z.of_nat k)) ∧
  truthy (dict_get rec "cancel_requested") = false.

(** The record of a task that is done with an output file. *)
Definition done_all (N : nat) (name : pystr) (rec : record) : Prop :=
  status_is "done" rec ∧
  rec !! "percent" = Some (VInt 100) ∧
  rec !! "current" = Some (VInt (Z.of_nat N)) ∧
  rec !! "total" = Some (VInt (Z.of_nat N)) ∧
  rec !! "eta_seconds" = Some (VInt 0) ∧
  rec !! "message"
    = Some (VStr (utf8 "翻译完成，共处理 " ++ str_of_nat N ++ utf8 " 行")) ∧
  rec !! "download_filename" = Some (VStr name) ∧
  has_field "finished_at" rec.

(** The texts sent for translation: the Title cells of the rows. *)
Definition row_texts (ws : worksheet) (title_col_idx : nat) (rows : list nat)
    : list (nat * pystr) :=
  (λ r, (r, str_of_cell (cell_value_at ws r title_col_idx))) <$> rows.

(** The sheet [ws] is the sheet [ws0] with a text in the translation column
    of each of the rows [done], and nothing else changed. *)
Definition translated_sheet (ws0 : worksheet) (insert_idx : nat) (done : list nat)
    (ws : worksheet) : Prop :=
  (∀ r c, c ≠ insert_idx → cell_value_at ws r c = cell_value_at ws0 r c) ∧
  (∀ r, r ∈ done → ∃ s, cell_value_at ws r insert_idx = CStr s) ∧
  (∀ r, r ∉ done → cell_value_at ws r insert_idx = cell_value_at ws0 r insert_idx).

(** The state of a run with [k] of the rows done: the record of the task,
    the rows translated so far, the files and the workbooks saved. *)
Definition going (task_id : string) (E : env) (ws0 : worksheet) (title_col_idx : nat)
    (rows : list nat) (T0 : list (nat * pystr)) (k : nat)
    (F : gmap pystr file) (Sv : list pystr) (w : world) : Prop :=
  outside w = E ∧
  (∃ rec, TASKS w !! task_id = Some rec ∧ running_at (length rows) k rec) ∧
  translations (trace w) = rev (row_texts ws0 title_col_idx (take k rows)) ++ T0 ∧
  files w = F ∧ saves (trace w) = Sv.

(** The run of a task that nothing disturbs: the record is the one
    [start_background_task] registered, the uploaded workbook has an active
    sheet with a Title column and rows to translate, no cancel request
    arrives for the task, saving does not fail and the endpoint sends no
    character that a worksheet refuses. *)
Definition undisturbed (w : world) (task_id : string) (file_path filename : pystr)
    (ws : worksheet) (title_col_idx : nat) : Prop :=
  TASKS w !! task_id = Some (initial_state file_path filename) ∧
  files w !! file_path = Some (XlsxFile (Workbook (Some ws))) ∧
  find_title 1 (row_values ws 1) = Some title_col_idx ∧
  rows_to_translate ws title_col_idx ≠ [] ∧
  quiet_for task_id (outside w) ∧ saves_work (outside w) ∧
  clean_endpoint (outside w).

(** ** A task canceled before its first batch *)

(** The record carries the cancel flag. *)
Definition flag_on (rec : record) : Prop :=
  truthy (dict_get rec "cancel_requested") = true.

(** The record of a task canceled before any of its [N] rows was done. *)
Definition canceled_at_start (N : nat) (rec : record) : Prop :=
  status_is "canceled" rec ∧
  rec !! "message" = Some (VStr (utf8 "已取消")) ∧
  rec !! "total" = Some (VInt (Z.of_nat N)) ∧
  rec !! "current" = Some (VInt 0).

(** ** A run whose save fails *)

(** Saving fails, with the exception [e], whenever it is tried. *)
Definition saves_fail (E : env) (e : exn) : Prop := ∀ n, save_error E n = Some e.

(** The record of a task that failed with the message [msg] after [k] of
    its [N] rows. *)
Definition failed_after (N k : nat) (msg : pystr) (rec : record) : Prop :=
  failed_with msg rec ∧
  rec !! "total" = Some (VInt (Z.of_nat N)) ∧
  rec !! "current" = Some (VInt (Z.of_nat k)).



(** ** More sample inputs *)

(** An endpoint that refuses the first request and answers the second; an
    answer without a translation. *)
Definition flaky_env : env :=
  Env (λ n, if (n <? 2)%nat then refused_reply else translated_reply)
      (λ n, inject_Z (Z.of_nat n)) (λ _, None) (λ _, []).
Definition empty_reply : net_outcome := Answers (Response 200 (Some (PList []))).

(** A sheet without a Title column. *)
Definition no_title : worksheet :=
  sheet [((1, 1)%nat, CStr (utf8 "Name")); ((2, 1)%nat, CStr (utf8 "x"))].

(** The sample world with the cancel flag of the task set. *)
Definition flagged_world (E : env) (ws : worksheet) : world :=
  World {[ "t1" := cancel_kv ∪ initial_state sample_path sample_name ]}
        {[ sample_path := XlsxFile (Workbook (Some ws)) ]} 0 [] E.

(** A disk on which saving fails. *)
Definition disk_error : exn := Exception "PermissionError" (utf8 "Permission denied").
Definition failing_disk_env : env :=
  Env (λ _, translated_reply) (λ n, inject_Z (Z.of_nat n)) (λ _, Some disk_error)
      (λ _, []).

(** An answer whose translation holds the character BEL, which a worksheet
    refuses. *)
Definition bell_text : pystr := [104; 7; 105]%N.
Definition bell_reply : net_outcome :=
  Answers (Response 200 (Some (segments_body [(bell_text, [])] []))).


Definition slash_free (p : pystr) : Prop := Forall (λ x, x ≠ SLASH) p.

(** * Lemmas and theorems *)

(** ** Rules for statements *)

Lemma triple_ret {R A} (a : A) (Q : res R A → world → Prop) :
  triple (Q (Val a)) (ret a) Q.
Proof. by intros w. Qed.

Lemma triple_Return {R A} (r : R) (Q : res R A → world → Prop) :
  triple (Q (Ret r)) (Return r) Q.
Proof. by intros w. Qed.

Lemma triple_raise {R A} (e : exn) (Q : res R A → world → Prop) :
  triple (Q (Exc e)) (raise e) Q.
Proof. by intros w. Qed.

Lemma triple_bind {R A B} (P : world → Prop) (m : M R A) (f : A → M R B)
    (Q1 : res R A → world → Prop) (Q : res R B → world → Prop) :
  triple P m Q1 →
  (∀ a, triple (Q1 (Val a)) (f a) Q) →
  (∀ r w, Q1 (Ret r) w → Q (Ret r) w) →
  (∀ e w, Q1 (Exc e) w → Q (Exc e) w) →
  triple P (bind m f) Q.
Proof.
  intros Hm Hf Hr He w HP. specialize (Hm w HP). unfold bind.
  destruct (m w) as [[a|r|e] w']; simpl in *; eauto. by apply Hf.
Qed.

Lemma triple_weaken {R A} (P P' : world → Prop) (m : M R A)
    (Q Q' : res R A → world → Prop) :
  triple P' m Q' → (∀ w, P w → P' w) → (∀ r w, Q' r w → Q r w) →
  triple P m Q.
Proof. intros H HP HQ w Hw. apply HQ, H, HP, Hw. Qed.

Lemma triple_try_except {R A} (P : world → Prop) (m : M R A) (h : exn → M R A)
    (Q1 Q : res R A → world → Prop) :
  triple P m Q1 →
  (∀ e, triple (Q1 (Exc e)) (h e) Q) →
  (∀ a w, Q1 (Val a) w → Q (Val a) w) →
  (∀ r w, Q1 (Ret r) w → Q (Ret r) w) →
  triple P (try_except m h) Q.
Proof.
  intros Hm Hh Hv Hr w HP. specialize (Hm w HP). unfold try_except.
  destruct (m w) as [[a|r|e] w']; simpl in *; eauto. by apply Hh.
Qed.

Lemma triple_call {R A} (P : world → Prop) (body : M A A)
    (Q1 : res A A → world → Prop) (Q : res R A → world → Prop) :
  triple P body Q1 →
  (∀ a w, Q1 (Val a) w → Q (Val a) w) →
  (∀ a w, Q1 (Ret a) w → Q (Val a) w) →
  (∀ e w, Q1 (Exc e) w → Q (Exc e) w) →
  triple P (call body) Q.
Proof.
  intros Hm Hv Hr He w HP. specialize (Hm w HP). unfold call.
  destruct (body w) as [[a|r|e] w']; simpl in *; eauto.
Qed.

Lemma triple_for_with {R A S} (Inv : list A → S → world → Prop)
    (body : A → S → M R S) (Q : res R S → world → Prop) l s :
  (∀ x rest s, triple (Inv (x :: rest) s) (body x s)
     (λ r w, match r with
             | Val s' => Inv rest s' w
             | Ret r => Q (Ret r) w
             | Exc e => Q (Exc e) w
             end)) →
  (∀ s w, Inv [] s w → Q (Val s) w) →
  triple (Inv l s) (for_with l s body) Q.
Proof.
  intros Hb Hend. revert s. induction l as [|x l IH]; intros s.
  - intros w Hw. by apply Hend.
  - simpl. eapply triple_bind; [apply Hb | | |]; simpl; eauto.
Qed.

(** *** Ambient statements *)

Lemma evo_trans ok o1 o2 o3 : evo ok o1 o2 → evo ok o2 o3 → evo ok o1 o3.
Proof.
  intros H12 H23.
  induction H23; [done | apply evo_log; auto | apply evo_deliver; auto].
Qed.

Lemma evo_mono (ok ok' : event → Prop) o o' :
  (∀ e, ok e → ok' e) → evo ok o o' → evo ok' o o'.
Proof.
  intros Hsub H.
  induction H; [apply evo_refl | apply evo_log; auto | apply evo_deliver; auto].
Qed.

Lemma ambient_mono {R A} (ok ok' : event → Prop) (m : M R A) :
  (∀ e, ok e → ok' e) → ambient ok m → ambient ok' m.
Proof. intros Hsub H w. eapply evo_mono; eauto. Qed.

Lemma ambient_ret {R A} ok (a : A) : ambient (R:=R) ok (ret a).
Proof. intros w. constructor. Qed.
Lemma ambient_Return {R A} ok (r : R) : ambient (A:=A) ok (Return r).
Proof. intros w. constructor. Qed.
Lemma ambient_raise {R A} ok e : ambient (R:=R) (A:=A) ok (raise e).
Proof. intros w. constructor. Qed.
Lemma ambient_the_world {R} ok : ambient (R:=R) ok the_world.
Proof. intros w. constructor. Qed.
Lemma ambient_lift {R A} ok (x : exn + A) : ambient (R:=R) ok (lift x).
Proof. destruct x; intros w; constructor. Qed.

Lemma ambient_bind {R A B} ok (m : M R A) (f : A → M R B) :
  ambient ok m → (∀ a, ambient ok (f a)) → ambient ok (bind m f).
Proof.
  intros Hm Hf w. specialize (Hm w). unfold bind.
  destruct (m w) as [[a|r|e] w']; simpl in *; auto.
  eapply evo_trans; [done | apply Hf].
Qed.

Lemma ambient_try_except {R A} ok (m : M R A) (h : exn → M R A) :
  ambient ok m → (∀ e, ambient ok (h e)) → ambient ok (try_except m h).
Proof.
  intros Hm Hh w. specialize (Hm w). unfold try_except.
  destruct (m w) as [[a|r|e] w']; simpl in *; auto.
  eapply evo_trans; [done | apply Hh].
Qed.

Lemma ambient_call {R A} ok (body : M A A) :
  ambient ok body → ambient (R:=R) ok (call body).
Proof.
  intros Hm w. specialize (Hm w). unfold call.
  by destruct (body w) as [[a|r|e] w'].
Qed.

Lemma ambient_for {R A} ok (l : list A) (body : A → M R unit) :
  (∀ x, ambient ok (body x)) → ambient ok (for_ l body).
Proof.
  intros Hb. induction l; simpl; [apply ambient_ret|].
  apply ambient_bind; auto.
Qed.

Lemma ambient_if {R A} ok (b : bool) (m1 m2 : M R A) :
  ambient ok m1 → ambient ok m2 → ambient ok (if b then m1 else m2).
Proof. by destruct b. Qed.

Lemma evo_foldr_deliver ok o T tr l w :
  see w = (T, tr) → evo ok o (T, tr) → evo ok o (see (foldr deliver w l)).
Proof.
  intros Hw Ho. induction l as [|tid l IH]; simpl; [by rewrite Hw|].
  unfold deliver at 1. destruct (see (foldr deliver w l)) as [T' tr'] eqn:E.
  unfold see in *. simpl in *. injection E as -> ->.
  by apply evo_deliver.
Qed.

Lemma ambient_tick {R} ok : ambient (R:=R) ok tick.
Proof.
  intros w. unfold tick. simpl.
  change (see (set_steps _ ?w')) with (see w').
  eapply evo_foldr_deliver; [done | constructor].
Qed.

Lemma ambient_emit {R} (ok : event → Prop) e : ok e → ambient (R:=R) ok (emit e).
Proof. intros He w. unfold emit, see. simpl. apply evo_log; [constructor | done]. Qed.

Create HintDb ambient.
#[global] Hint Resolve ambient_ret ambient_Return ambient_raise ambient_the_world
  ambient_lift ambient_tick ambient_call ambient_for ambient_if : ambient.
#[global] Hint Extern 2 (ambient _ (bind _ _)) =>
  apply ambient_bind; [| intros ?] : ambient.
#[global] Hint Extern 2 (ambient _ (try_except _ _)) =>
  apply ambient_try_except; [| intros ?] : ambient.
#[global] Hint Extern 3 (ambient _ (emit _)) => apply ambient_emit; simpl : ambient.
#[global] Hint Extern 3 (ambient _ (match ?x with _ => _ end)) => destruct x : ambient.

Lemma ambient_time_time {R} ok : ambient (R:=R) ok time_time.
Proof. unfold time_time. auto with ambient. Qed.

Lemma ambient_time_sleep {R} (ok : event → Prop) d :
  ok (EvSleep d) → ambient (R:=R) ok (time_sleep d).
Proof. unfold time_sleep. auto with ambient. Qed.

Lemma ambient_print {R} (ok : event → Prop) :
  ok EvPrint → ambient (R:=R) ok print.
Proof. unfold print. auto with ambient. Qed.

Lemma ambient_requests_get {R} (ok : event → Prop) q :
  ok (EvRequest q) → ambient (R:=R) ok (requests_get q).
Proof. unfold requests_get. auto 8 with ambient. Qed.

Lemma ambient_response_json {R} ok r : ambient (R:=R) ok (response_json r).
Proof. unfold response_json. auto with ambient. Qed.

Lemma falls_ret {R A} (a : A) : falls (R:=R) (ret a).
Proof. by intros w r. Qed.
Lemma falls_raise {R A} e : falls (R:=R) (A:=A) (raise e).
Proof. by intros w r. Qed.
Lemma falls_the_world {R} : falls (R:=R) the_world.
Proof. by intros w r. Qed.
Lemma falls_lift {R A} (x : exn + A) : falls (R:=R) (lift x).
Proof. by destruct x; intros w r. Qed.
Lemma falls_tick {R} : falls (R:=R) tick.
Proof. by intros w r. Qed.
Lemma falls_emit {R} e : falls (R:=R) (emit e).
Proof. by intros w r. Qed.
Lemma falls_call {R A} (body : M A A) : falls (R:=R) (call body).
Proof. intros w r. unfold call. by destruct (body w) as [[]]. Qed.

Lemma falls_bind {R A B} (m : M R A) (f : A → M R B) :
  falls m → (∀ a, falls (f a)) → falls (bind m f).
Proof.
  intros Hm Hf w r. specialize (Hm w). unfold bind.
  destruct (m w) as [[a|r'|e] w']; simpl in *; [apply Hf | by destruct (Hm r') | done].
Qed.

Lemma falls_try_except {R A} (m : M R A) (h : exn → M R A) :
  falls m → (∀ e, falls (h e)) → falls (try_except m h).
Proof.
  intros Hm Hh w r. specialize (Hm w). unfold try_except.
  destruct (m w) as [[a|r'|e] w']; simpl in *; [done | by destruct (Hm r') | apply Hh].
Qed.

Lemma falls_for_with {R A S} (l : list A) (s : S) (body : A → S → M R S) :
  (∀ x s, falls (body x s)) → falls (for_with l s body).
Proof.
  intros Hb. revert s. induction l; intros s; simpl; [apply falls_ret|].
  apply falls_bind; auto.
Qed.

Lemma falls_if {R A} (b : bool) (m1 m2 : M R A) :
  falls m1 → falls m2 → falls (if b then m1 else m2).
Proof. by destruct b. Qed.

Create HintDb falls.
#[global] Hint Resolve falls_ret falls_raise falls_the_world falls_lift falls_tick
  falls_emit falls_call falls_for_with falls_if : falls.
#[global] Hint Extern 2 (falls (bind _ _)) => apply falls_bind; [| intros ?] : falls.
#[global] Hint Extern 2 (falls (try_except _ _)) =>
  apply falls_try_except; [| intros ?] : falls.
#[global] Hint Extern 3 (falls (match ?x with _ => _ end)) => destruct x : falls.

Lemma falls_time_time {R} : falls (R:=R) time_time.
Proof. unfold time_time. auto with falls. Qed.
Lemma falls_time_sleep {R} d : falls (R:=R) (time_sleep d).
Proof. unfold time_sleep. auto with falls. Qed.
Lemma falls_get_state {R} task_id : falls (R:=R) (_get_state task_id).
Proof. unfold _get_state. auto 8 with falls. Qed.
Lemma falls_safe_update {R} task_id kv : falls (R:=R) (_safe_update task_id kv).
Proof. by intros w r. Qed.
Lemma falls_load_workbook {R} file_path : falls (R:=R) (load_workbook file_path).
Proof.
  unfold load_workbook. apply falls_bind; [apply falls_tick|intros _].
  apply falls_bind; [apply falls_the_world|intros w].
  destruct (files w !! file_path) as [[]|]; auto with falls.
Qed.
Lemma falls_save {R} wb path : falls (R:=R) (save wb path).
Proof.
  unfold save. apply falls_bind; [apply falls_tick|intros n].
  apply falls_bind; [apply falls_emit|intros _].
  apply falls_bind; [apply falls_the_world|intros w].
  destruct (save_error _ _); [apply falls_raise|]. by intros w' r.
Qed.
#[global] Hint Resolve falls_time_time falls_time_sleep falls_get_state
  falls_safe_update falls_load_workbook falls_save : falls.

Lemma falls_translate_row task_id title_col_idx insert_idx total start batch_start item ws :
  falls (translate_row task_id title_col_idx insert_idx total start batch_start item ws).
Proof. unfold translate_row. destruct item. auto 12 with falls. Qed.

Lemma triple_falls {R A} (P : world → Prop) (m : M R A) (Q : res R A → world → Prop) :
  falls m → triple P m Q →
  triple P m (λ r w, match r with Ret _ => False | _ => Q r w end).
Proof.
  intros Hf Hm w Hw. specialize (Hm w Hw). specialize (Hf w).
  destruct (m w) as [[a|r|e] w']; simpl in *; [done | by destruct (Hf r) | done].
Qed.


(** ** The translation client *)

Lemma lstrip_blank text : blank text = true → lstrip text = [].
Proof.
  induction text as [|c text IH]; simpl; [done|].
  intros [Hc Ht]%andb_prop. rewrite Hc. auto.
Qed.

Lemma strip_blank text : blank text = true → strip text = [].
Proof. intros H. unfold strip. by rewrite lstrip_blank. Qed.

Lemma lstrip_nil_blank text : lstrip text = [] → blank text = true.
Proof.
  induction text as [|c text IH]; simpl; [done|].
  destruct (py_isspace c); [auto | done].
Qed.

Lemma strip_nil_blank text : strip text = [] → blank text = true.
Proof.
  unfold strip, rstrip. intros H. apply lstrip_nil_blank.
  destruct (lstrip text) as [|c t] eqn:E; [done|].
  assert (Hb : blank (rev (c :: t)) = true).
  { apply lstrip_nil_blank. apply (f_equal (@rev N)) in H.
    by rewrite rev_involutive in H. }
  assert (Hc : py_isspace c = true).
  { unfold blank in Hb. rewrite forallb_forall in Hb. apply Hb.
    apply in_rev. rewrite rev_involutive. by left. }
  destruct text as [|c' t']; [done|]. simpl in E.
  destruct (py_isspace c') eqn:E'.
  - (* the first character that [lstrip] keeps is not white space *)
    clear -E Hc. induction t' as [|d t' IH]; simpl in E; [done|].
    destruct (py_isspace d) eqn:Ed; [auto|]. injection E as -> _. congruence.
  - injection E as -> _. congruence.
Qed.

Lemma translate_text_blank text w :
  blank text = true → translate_text text w = (Ret [], w).
Proof.
  intros H. unfold translate_text. rewrite (strip_blank _ H). simpl.
  by rewrite orb_true_r.
Qed.

(** *** The components of the world that statements leave alone *)

Lemma outside_foldr_deliver w l : outside (foldr deliver w l) = outside w.
Proof. induction l; simpl; auto. Qed.
Lemma steps_foldr_deliver w l : steps (foldr deliver w l) = steps w.
Proof. induction l; simpl; auto. Qed.
Lemma files_foldr_deliver w l : files (foldr deliver w l) = files w.
Proof. induction l; simpl; auto. Qed.

Lemma outside_ticked w : outside (ticked w) = outside w.
Proof. unfold ticked. simpl. apply outside_foldr_deliver. Qed.
Lemma steps_ticked w : steps (ticked w) = S (steps w).
Proof. done. Qed.
Lemma files_ticked w : files (ticked w) = files w.
Proof. unfold ticked. simpl. apply files_foldr_deliver. Qed.

Lemma requests_foldr_deliver w l :
  requests (trace (foldr deliver w l)) = requests (trace w).
Proof. induction l; simpl; auto. Qed.
Lemma sleeps_foldr_deliver w l :
  sleeps (trace (foldr deliver w l)) = sleeps (trace w).
Proof. induction l; simpl; auto. Qed.
Lemma requests_ticked w : requests (trace (ticked w)) = requests (trace w).
Proof. apply requests_foldr_deliver. Qed.
Lemma sleeps_ticked w : sleeps (trace (ticked w)) = sleeps (trace w).
Proof. apply sleeps_foldr_deliver. Qed.

(** *** What the library calls do to the world *)

Create Rewrite HintDb world.
#[global] Hint Rewrite outside_ticked steps_ticked files_ticked
  requests_ticked sleeps_ticked outside_foldr_deliver steps_foldr_deliver
  files_foldr_deliver requests_foldr_deliver sleeps_foldr_deliver : world.
Ltac wsimp := repeat (progress (simpl; autorewrite with world)).

Lemma requests_get_eq {R} q w :
  requests_get (R:=R) q w =
    (match net (outside w) (steps w) with
     | Answers r => Val r
     | Fails e => Exc e
     end, log (EvRequest q) (ticked w)).
Proof.
  unfold requests_get, bind, tick, emit, the_world. wsimp.
  by destruct (net _ _).
Qed.

Lemma time_sleep_eq {R} d w :
  time_sleep (R:=R) d w = (Val tt, log (EvSleep d) (ticked w)).
Proof. done. Qed.

Lemma print_eq {R} w : print (R:=R) w = (Val tt, log EvPrint (ticked w)).
Proof. done. Qed.

Lemma for_no_exc {R A} (l : list A) (body : A → M R unit) w :
  (∀ x w, no_exc (body x w).1) → no_exc (for_ l body w).1.
Proof.
  intros Hb. revert w. induction l as [|x l IH]; intros w; simpl; [done|].
  unfold bind. specialize (Hb x w). destruct (body x w) as [[a|r|e] w']; simpl in *; auto.
Qed.

Lemma try_except_no_exc {R A} (m : M R A) (h : exn → M R A) w :
  (∀ e w, no_exc (h e w).1) → no_exc (try_except m h w).1.
Proof.
  intros Hh. unfold try_except.
  destruct (m w) as [[a|r|e] w']; simpl; auto.
Qed.

Lemma translate_text_no_exc text w : no_exc (translate_text text w).1.
Proof.
  unfold translate_text.
  destruct (negb (str_truthy text) || negb (str_truthy (strip text))); [done|].
  unfold bind at 1.
  match goal with |- context [for_ ?l ?b w] =>
    pose proof (for_no_exc l b w) as H; destruct (for_ l b w) as [[a|r|e] w'] end;
    simpl in *; auto.
  apply H. intros attempt w0. apply try_except_no_exc. intros e0 w1.
  destruct (attempt =? 3); [unfold bind; by rewrite print_eq | by rewrite time_sleep_eq].
Qed.

Lemma translate_text_returns {R} text w :
  ∃ s, (call (R:=R) (translate_text text) w).1 = Val s.
Proof.
  pose proof (translate_text_no_exc text w) as H. unfold call.
  destruct (translate_text text w) as [[a|r|e] w']; simpl in *; eauto. done.
Qed.

(** *** A run in which every attempt fails *)

Lemma attempt_once_refused text attempt w r :
  net (outside w) (steps w) = Answers r → status_code r ≠ 200 →
  attempt_once text attempt w =
    (Val tt, log (EvSleep (backoff attempt)) (ticked (log (EvRequest text) (ticked w)))).
Proof.
  intros Hnet Hcode%Z.eqb_neq. unfold attempt_once, try_except, bind at 1.
  rewrite requests_get_eq, Hnet, Hcode. reflexivity.
Qed.

Lemma attempt_once_raised text attempt w e :
  net (outside w) (steps w) = Fails e →
  attempt_once text attempt w =
    if attempt =? 3
    then (Ret FAILED, log EvPrint (ticked (log (EvRequest text) (ticked w))))
    else (Val tt, log (EvSleep (backoff attempt)) (ticked (log (EvRequest text) (ticked w)))).
Proof.
  intros Hnet. unfold attempt_once, try_except, bind at 1.
  rewrite requests_get_eq, Hnet. by destruct (attempt =? 3).
Qed.

Lemma attempt_once_fails text attempt w :
  failing (net (outside w) (steps w)) →
  ∃ w', outside w' = outside w ∧
        requests (trace w') = text :: requests (trace w) ∧
        (attempt_once text attempt w = (Val tt, w')
         ∨ (attempt = 3 ∧ attempt_once text attempt w = (Ret FAILED, w'))).
Proof.
  intros Hfail. destruct (net (outside w) (steps w)) as [r|e] eqn:Hnet; simpl in Hfail.
  - rewrite (attempt_once_refused _ _ _ _ Hnet Hfail).
    eexists. split_and!; [| |by left]; by wsimp.
  - rewrite (attempt_once_raised _ _ _ _ Hnet). destruct (attempt =? 3) eqn:E3.
    + apply Z.eqb_eq in E3. eexists. split_and!; [| |by right]; by wsimp.
    + eexists. split_and!; [| |by left]; by wsimp.
Qed.

Lemma translate_text_all_fail {R} text w :
  blank text = false →
  (∀ n, failing (net (outside w) n)) →
  ∃ w', call (R:=R) (translate_text text) w = (Val FAILED, w') ∧
        requests (trace w') = replicate 3 (take 5000 text) ++ requests (trace w).
Proof.
  intros Hsent Hfail. unfold translate_text.
  assert (str_truthy text = true ∧ str_truthy (strip text) = true) as [-> ->].
  { split.
    - by destruct text.
    - destruct (strip text) eqn:E; [|done].
      apply strip_nil_blank in E. congruence. }
  simpl negb. simpl orb. cbv iota. cbv zeta. unfold for_, call, bind at 1 2 3 4.
  destruct (attempt_once_fails (take 5000 text) 1 w (Hfail _))
    as (w1 & Ho1 & Hr1 & [->|(? & _)]); [|done].
  destruct (attempt_once_fails (take 5000 text) 2 w1) as (w2 & Ho2 & Hr2 & [->|(? & _)]);
    [rewrite Ho1; apply Hfail | | done].
  destruct (attempt_once_fails (take 5000 text) 3 w2) as (w3 & Ho3 & Hr3 & [->|(_ & ->)]);
    [rewrite Ho2, Ho1; apply Hfail | |];
    (eexists; split; [done|]); rewrite Hr3, Hr2, Hr1; done.
Qed.


(** ** The history of a run *)

Lemma dict_truthy_nonempty {V} (d : gmap string V) : dict_truthy d = true ↔ d ≠ ∅.
Proof.
  unfold dict_truthy. destruct (map_to_list d) eqn:E.
  - apply map_to_list_empty_iff in E. subst. split; done.
  - split; [|done]. intros _ ->. by rewrite map_to_list_empty in E.
Qed.

Lemma dict_truthy_lookup {V} (d : gmap string V) k x :
  d !! k = Some x → dict_truthy d = true.
Proof. intros H. apply dict_truthy_nonempty. intros ->. by rewrite lookup_empty in H. Qed.

Lemma lookup_update (kv r : record) k :
  (kv ∪ r) !! k = first_of (kv !! k) (r !! k).
Proof. rewrite lookup_union. by destruct (kv !! k), (r !! k). Qed.

Lemma view_of_update kv r : view_of (kv ∪ r) = merge_view (view_of kv) (view_of r).
Proof. unfold view_of, merge_view. simpl. by rewrite !lookup_update. Qed.

Lemma shaped_truthy r : shaped (view_of r) → dict_truthy r = true.
Proof.
  intros [s Hs].
  assert (is_Some (r !! "status")) as [x Hx]; [|by eapply dict_truthy_lookup].
  change (is_Some (v_status (view_of r))).
  destruct s; simpl in Hs;
    repeat match goal with
      | H : _ ∧ _ |- _ => destruct H
      | H : ∃ _, _ |- _ => destruct H
      end;
    match goal with H : view_of r = _ |- _ => rewrite H end; by eexists.
Qed.

Lemma safe_update_tasks_here task_id kv T r :
  T !! task_id = Some r → dict_truthy r = true →
  safe_update_tasks task_id kv T = <[task_id := kv ∪ r]> T.
Proof. intros H1 H2. unfold safe_update_tasks. by rewrite H1, H2. Qed.

Lemma safe_update_tasks_other task_id kv T other :
  other ≠ task_id → safe_update_tasks task_id kv T !! other = T !! other.
Proof.
  intros Hne. unfold safe_update_tasks. destruct (T !! task_id) as [r|]; [|done].
  destruct (dict_truthy r); [|done]. by rewrite lookup_insert_ne.
Qed.

Lemma advances_refl v : advances v v.
Proof. split; lia. Qed.

Lemma history_tasks task_id T tr :
  history task_id (EvTasks T :: tr) =
    match T !! task_id with Some r => r :: history task_id tr | None => history task_id tr end.
Proof. done. Qed.

Lemma history_other task_id e tr :
  not_tasks e → history task_id (e :: tr) = history task_id tr.
Proof. by destruct e. Qed.

(** Pushing a new record on a history that satisfies the invariant. *)
Lemma Hist_push task_id (φ φ' : view → Prop) T T' tr r r' :
  Hist task_id φ (T, tr) →
  T !! task_id = Some r →
  T' !! task_id = Some r' →
  φ' (view_of r') → shaped (view_of r') → advances (view_of r) (view_of r') →
  Hist task_id φ' (T', EvTasks T' :: tr).
Proof.
  intros (_ & Hsync & Hall & Hclimb) Hr Hr' Hφ' Hshaped Hadv.
  unfold Hist. cbn [fst snd] in *. rewrite history_tasks, Hr'.
  split; [by exists r'|]. split; [by intros ? [= <-]|]. split; [by constructor|].
  rewrite fmap_cons. split; [|done].
  destruct (history task_id tr) as [|r0 h] eqn:E; [done|].
  specialize (Hsync r0 eq_refl). rewrite Hr in Hsync. by injection Hsync as <-.
Qed.

Lemma Hist_log task_id φ T tr e :
  not_tasks e → Hist task_id φ (T, tr) → Hist task_id φ (T, e :: tr).
Proof. intros He H. unfold Hist in *. cbn [fst snd] in *. by rewrite history_other. Qed.

Lemma view_of_cancel r : view_of (cancel_kv ∪ r) = view_of r.
Proof. rewrite view_of_update. by destruct (view_of r). Qed.

Lemma Hist_stable task_id (φ : view → Prop) :
  (∀ v, φ v → shaped v) → stable not_tasks (Hist task_id φ).
Proof.
  intros Hφ o o' Hevo. induction Hevo as [|o T tr e _ IH He|o T tr tid' _ IH]; intros Ho.
  - done.
  - apply Hist_log; auto.
  - specialize (IH Ho). apply Hist_log with (e := EvCancel tid') in IH; [|done].
    destruct IH as ((r & Hr & Hv) & IH).
    assert (Htr : dict_truthy r = true) by (apply shaped_truthy; auto).
    destruct (decide (tid' = task_id)) as [->|Hne].
    + eapply (Hist_push _ φ φ _ _ _ r (cancel_kv ∪ r)).
      * split; eauto.
      * done.
      * unfold request_cancel. rewrite (safe_update_tasks_here _ _ _ _ Hr Htr).
        apply lookup_insert_eq.
      * by rewrite view_of_cancel.
      * rewrite view_of_cancel. auto.
      * rewrite view_of_cancel. apply advances_refl.
    + eapply (Hist_push _ φ φ _ _ _ r r).
      * split; eauto.
      * done.
      * unfold request_cancel. by rewrite safe_update_tasks_other.
      * done.
      * auto.
      * apply advances_refl.
Qed.

Lemma triple_ambient {R A} ok (I : obs → Prop) (m : M R A) :
  stable ok I → ambient ok m →
  triple (λ w, I (see w)) m (λ _ w, I (see w)).
Proof. intros HI Hm w Hw. eapply HI; [apply Hm | done]. Qed.

Lemma safe_update_eq {R} task_id kv w :
  _safe_update (R:=R) task_id kv w = (Val tt, updated task_id kv (ticked w)).
Proof. done. Qed.

Lemma evo_ticked ok w : evo ok (see w) (see (ticked w)).
Proof. apply (ambient_tick (R:=unit) ok w). Qed.

(** The rule for [_safe_update] on the task's own record; [kvv] is the view
    of the fields that are written. *)
Lemma triple_safe_update {R} task_id kv (φ φ' : view → Prop) (kvv : view) :
  view_of kv = kvv →
  (∀ v, φ v → shaped v) →
  (∀ v, φ v →
        φ' (merge_view kvv v) ∧ shaped (merge_view kvv v) ∧
        advances v (merge_view kvv v)) →
  triple (λ w, Hist task_id φ (see w)) (_safe_update (R:=R) task_id kv)
         (λ r w, match r with Val _ => Hist task_id φ' (see w) | _ => False end).
Proof.
  intros <- Hφ Hkv w Hw. rewrite safe_update_eq. simpl.
  pose proof (Hist_stable task_id φ Hφ _ _ (evo_ticked not_tasks w) Hw) as H.
  destruct H as ((r & Hr & Hv) & H'). unfold see in *. simpl in *.
  destruct (Hkv _ Hv) as (H1 & H2 & H3).
  rewrite (safe_update_tasks_here _ _ _ _ Hr (shaped_truthy _ (Hφ _ Hv))).
  eapply (Hist_push _ φ φ' _ _ _ r (kv ∪ r)).
  - split; eauto.
  - done.
  - apply lookup_insert_eq.
  - by rewrite view_of_update.
  - by rewrite view_of_update.
  - by rewrite view_of_update.
Qed.

Lemma ambient_attempt_once (ok : event → Prop) text attempt :
  (∀ e, client_event e = true → ok e) → ambient ok (attempt_once text attempt).
Proof.
  intros Hok. unfold attempt_once.
  apply ambient_try_except; [|intros e; apply ambient_if].
  - apply ambient_bind; [apply ambient_requests_get; by apply Hok|intros r].
    apply ambient_bind; [|intros _; apply ambient_time_sleep; by apply Hok].
    apply ambient_if; [|apply ambient_ret].
    apply ambient_bind; [apply ambient_response_json|intros data].
    apply ambient_bind; [|intros [|]; auto 10 with ambient].
    auto 10 with ambient.
  - apply ambient_bind; [apply ambient_print; by apply Hok | intros; apply ambient_Return].
  - apply ambient_time_sleep; by apply Hok.
Qed.

Lemma ambient_translate_text (ok : event → Prop) text :
  (∀ e, client_event e = true → ok e) → ambient ok (translate_text text).
Proof.
  intros Hok. unfold translate_text. apply ambient_if; [apply ambient_Return|].
  apply ambient_bind; [|intros; apply ambient_Return].
  apply ambient_for. intros. by apply ambient_attempt_once.
Qed.

Lemma ambient_get_state {R} (ok : event → Prop) task_id :
  ok (EvSnapshot task_id) → ambient (R:=R) ok (_get_state task_id).
Proof. intros. unfold _get_state. auto 8 with ambient. Qed.

Lemma ambient_load_workbook {R} ok file_path :
  ambient (R:=R) ok (load_workbook file_path).
Proof.
  unfold load_workbook. apply ambient_bind; [apply ambient_tick|intros _].
  apply ambient_bind; [apply ambient_the_world|intros w].
  destruct (files w !! file_path) as [[]|]; auto with ambient.
Qed.

Lemma ambient_save {R} (ok : event → Prop) wb path :
  ok (EvSave path wb) → ambient (R:=R) ok (save wb path).
Proof.
  intros Hok. unfold save. apply ambient_bind; [apply ambient_tick|intros n].
  apply ambient_bind; [by apply ambient_emit|intros _].
  apply ambient_bind; [apply ambient_the_world|intros w].
  destruct (save_error _ _); [apply ambient_raise|]. intros w'. apply evo_refl.
Qed.

Lemma ambient_rmtree {R} (ok : event → Prop) base :
  ok (EvRmtree base) → ambient (R:=R) ok (rmtree base).
Proof.
  intros Hok. unfold rmtree. apply ambient_bind; [apply ambient_tick|intros n].
  apply ambient_bind; [by apply ambient_emit|intros _]. intros w'. apply evo_refl.
Qed.

Lemma ambient_schedule_state_cleanup {R} (ok : event → Prop) task_id :
  ok (EvCleanup task_id) → ambient (R:=R) ok (_schedule_state_cleanup task_id).
Proof. intros. unfold _schedule_state_cleanup. auto with ambient. Qed.

Lemma ambient_run_task_finally (ok : event → Prop) file_path task_id :
  (∀ e, cleanup_event e = true → ok e) → ambient ok (run_task_finally file_path task_id).
Proof.
  intros Hok. unfold run_task_finally.
  apply ambient_bind; [|intros; apply ambient_schedule_state_cleanup; by apply Hok].
  apply ambient_try_except; [|intros; apply ambient_ret].
  apply ambient_bind; [apply ambient_the_world|intros w].
  apply ambient_if; [apply ambient_rmtree; by apply Hok | apply ambient_ret].
Qed.

(** *** Arithmetic of the progress fields *)

Lemma py_int_div (n m : Z) :
  0 ≤ n → 0 < m → py_int (inject_Z n / inject_Z m) = n / m.
Proof.
  intros Hn Hm. unfold py_int.
  assert (H : Qle_bool 0 (inject_Z n / inject_Z m) = true).
  { apply Qle_bool_iff. apply Qle_shift_div_l.
    - unfold Qlt. simpl. lia.
    - rewrite Qmult_0_l. unfold Qle. simpl. lia. }
  rewrite H. symmetry. apply Zdiv_Qdiv.
Qed.

Lemma percent_of_eq (d N : nat) :
  (0 < N)%nat → percent_of d N = inr (pct (Z.of_nat d) (Z.of_nat N)).
Proof.
  intros HN. unfold percent_of, truediv.
  assert (Qeq_bool (inject_Z (Z.of_nat N)) 0 = false) as ->.
  { apply not_true_is_false. intros H%Qeq_bool_iff. unfold Qeq in H. simpl in H. lia. }
  rewrite py_int_div by lia. unfold pct.
  destruct (Z.eqb_spec (Z.of_nat N) 0); [lia|done].
Qed.

Lemma pct_mono c d N : 0 ≤ c ≤ d → 0 ≤ N → pct c N ≤ pct d N.
Proof.
  intros Hcd HN. unfold pct. destruct (Z.eqb_spec N 0); [lia|].
  apply Z.div_le_mono; lia.
Qed.

Lemma pct_bounds c N : 0 ≤ c ≤ N → 0 ≤ pct c N ≤ 100.
Proof.
  intros Hc. unfold pct. destruct (Z.eqb_spec N 0); [lia|]. split.
  - apply Z.div_pos; lia.
  - apply Z.div_le_upper_bound; lia.
Qed.

(** *** More rules *)

Lemma triple_bind_ambient {R A B} ok (I : obs → Prop) (m : M R A) (f : A → M R B)
    (Q : res R B → world → Prop) :
  stable ok I → ambient ok m → falls m →
  (∀ a, triple (λ w, I (see w)) (f a) Q) →
  (∀ e w, I (see w) → Q (Exc e) w) →
  triple (λ w, I (see w)) (bind m f) Q.
Proof.
  intros HI Hm Hfalls Hf He.
  eapply triple_bind; [by apply triple_falls, (triple_ambient ok) | done | done | done].
Qed.

Lemma triple_bind_ret {R A B} (P : world → Prop) (a : A) (f : A → M R B)
    (Q : res R B → world → Prop) :
  triple P (f a) Q → triple P (bind (ret a) f) Q.
Proof. intros H w Hw. apply H, Hw. Qed.

Lemma triple_try_finally {R A} (P : world → Prop) (m : M R A) (f : M R unit)
    (I : world → Prop) :
  triple P m (λ _, I) → triple I f (λ _, I) →
  triple P (try_finally m f) (λ _, I).
Proof.
  intros Hm Hf w HP. specialize (Hm w HP). unfold try_finally.
  destruct (m w) as [r w']. simpl in Hm. specialize (Hf w' Hm).
  by destruct (f w') as [[a|r'|e] w''].
Qed.

(** *** The history of a run *)

Lemma live_upto_shaped N b v : live_upto N b v → shaped v.
Proof. intros (c & _ & H). by exists (Live N c). Qed.

Lemma live_upto_mono N b b' v : b ≤ b' → live_upto N b v → live_upto N b' v.
Proof. intros Hb (c & Hc & H). exists c. split; [lia | done]. Qed.

Lemma Hist_mono task_id (φ φ' : view → Prop) o :
  (∀ v, φ v → φ' v) → Hist task_id φ o → Hist task_id φ' o.
Proof. intros Hφ ((r & Hr & Hv) & H). split; [|done]. exists r. auto. Qed.

Section run.
Context (task_id : string) (title_col_idx insert_idx : nat).
Context (rows_to_tr : list nat) (start : Q) (output_path : pystr).
Local Abbreviation total := (length rows_to_tr).
Local Abbreviation N := (Z.of_nat (length rows_to_tr)).

Lemma translate_row_history batch_start j row ws :
    (0 < total)%nat → (0 < j)%nat → (batch_start + j ≤ total)%nat →
    triple (λ w, Hist task_id (live_upto N (Z.of_nat (batch_start + j) - 1)) (see w))
      (translate_row task_id title_col_idx insert_idx total start batch_start (j, row) ws)
      (λ _ w, Hist task_id (live_upto N (Z.of_nat (batch_start + j))) (see w)).
  Proof.
    intros Htotal Hj Hle. unfold translate_row.
    set (d := (batch_start + j)%nat).
    assert (Hweak : ∀ w, Hist task_id (live_upto N (Z.of_nat d - 1)) (see w) →
                         Hist task_id (live_upto N (Z.of_nat d)) (see w)).
    { intros w. apply Hist_mono. intros v. apply live_upto_mono. lia. }
    assert (Hst : stable not_tasks (Hist task_id (live_upto N (Z.of_nat d - 1)))).
    { apply Hist_stable. intros v. apply live_upto_shaped. }
    eapply triple_bind_ambient;
      [done | by apply ambient_emit | auto with falls | intros _ | auto].
    eapply triple_bind_ambient;
      [done | apply ambient_call, ambient_translate_text; by intros [] | auto with falls
      | intros translated | auto].
    eapply triple_bind_ambient;
      [done | apply ambient_lift | auto with falls | intros ws' | auto].
    eapply triple_bind_ambient;
      [done | apply ambient_time_time | auto with falls | intros now | auto].
    eapply triple_bind_ambient;
      [done | apply ambient_lift | auto with falls | intros eta | auto].
    rewrite percent_of_eq by done. apply triple_bind_ret.
    eapply triple_bind;
      [apply (triple_safe_update _ _ (live_upto N (Z.of_nat d - 1))
                (live_upto N (Z.of_nat d))
                (View None (vint (pct (Z.of_nat d) N)) (vint (Z.of_nat d)) None None None))
      | | |].
    - reflexivity.
    - intros v. apply live_upto_shaped.
    - intros v (c & Hc & Hc' & ->). unfold merge_view. simpl.
      assert (Hnew : has_shape (Live (Z.of_nat total) (Z.of_nat d))
                (View (vstr "running") (vint (pct (Z.of_nat d) (Z.of_nat total)))
                      (vint (Z.of_nat d)) (vint (Z.of_nat total)) None None)).
      { split; [lia | reflexivity]. }
      split_and!.
      + exists (Z.of_nat d). split; [lia | exact Hnew].
      + by eexists.
      + split; simpl; [apply pct_mono|]; lia.
    - intros [] w Hw. exact Hw.
    - by intros ? ? ?.
    - by intros ? ? ?.
  Qed.

Lemma batch_rows_history batch_start l k ws :
    (0 < total)%nat → (0 < k)%nat → (batch_start + (k - 1) + length l ≤ total)%nat →
    triple (λ w, Hist task_id (live_upto N (Z.of_nat (batch_start + (k - 1)))) (see w))
      (for_with (enumerate k l) ws
         (translate_row task_id title_col_idx insert_idx total start batch_start))
      (λ _ w, Hist task_id (live_upto N (Z.of_nat (batch_start + (k - 1) + length l))) (see w)).
  Proof.
    intros Htotal. revert k ws. induction l as [|row l IH]; intros k ws Hk Hle.
    - simpl. intros w Hw. simpl. eapply Hist_mono; [|exact Hw].
      intros v. apply live_upto_mono. lia.
    - simpl in *. eapply triple_bind.
      + eapply triple_weaken; [apply (translate_row_history batch_start k row ws) | |];
          [done | done | lia | |].
        * intros w. apply Hist_mono. intros v. apply live_upto_mono. lia.
        * intros r w Hw. exact Hw.
      + intros ws'. eapply triple_weaken; [apply (IH (S k) ws'); lia | |].
        * intros w. apply Hist_mono. intros v. apply live_upto_mono. lia.
        * intros r w. apply Hist_mono. intros v. apply live_upto_mono. lia.
      + intros r w. apply Hist_mono. intros v. apply live_upto_mono. lia.
      + intros e w. apply Hist_mono. intros v. apply live_upto_mono. lia.
  Qed.

Lemma live_upto_top b v : live_upto N b v → live_upto N N v.
  Proof. intros (c & _ & Hc & Hv). exists c. split; [lia | by split]. Qed.

Lemma run_batch_history batch_start ws :
    (0 < total)%nat → (batch_start ≤ total)%nat →
    triple (λ w, Hist task_id (live_upto N (Z.of_nat batch_start)) (see w))
      (run_batch task_id title_col_idx insert_idx rows_to_tr start output_path
         batch_start ws)
      (after_batch task_id rows_to_tr (Z.of_nat (batch_start + BATCH))).
  Proof.
    intros Htotal Hle. unfold run_batch.
    assert (Hst : stable not_tasks (Hist task_id (live_upto N (Z.of_nat batch_start)))).
    { apply Hist_stable. intros v. apply live_upto_shaped. }
    assert (Htop : ∀ b w, Hist task_id (live_upto N b) (see w) →
                          Hist task_id (live_upto N N) (see w)).
    { intros b w. apply Hist_mono. apply live_upto_top. }
    eapply triple_bind_ambient;
      [done | by apply ambient_get_state | auto with falls | intros st
      | intros; by eapply Htop].
    destruct (truthy (dict_get st "cancel_requested")).
    - eapply triple_bind;
        [apply (triple_safe_update _ _ (live_upto N (Z.of_nat batch_start))
                  (canceled_view N) (View (vstr "canceled") None None None None None))
        | | |].
      + reflexivity.
      + intros v. apply live_upto_shaped.
      + intros v (c & Hc & Hc' & ->). unfold merge_view. simpl.
        assert (Hnew : has_shape (Canceled N c)
                  (View (vstr "canceled") (vint (pct c N)) (vint c) (vint N) None None)).
        { split; [lia | reflexivity]. }
        split_and!; [by exists c | by eexists | unfold advances; simpl; lia].
      + intros [] w Hw. exact Hw.
      + by intros ? ? ?.
      + by intros ? ? ?.
    - set (batch_rows := take BATCH (drop batch_start rows_to_tr)).
      assert (Hlen : (batch_start + length batch_rows ≤ total)%nat).
      { unfold batch_rows. rewrite length_take, length_drop. lia. }
      assert (Hcap : (length batch_rows ≤ BATCH)%nat).
      { unfold batch_rows. rewrite length_take. lia. }
      set (I' := Hist task_id (live_upto N (Z.of_nat (batch_start + BATCH)))).
      assert (Hst' : stable not_tasks I').
      { apply Hist_stable. intros v. apply live_upto_shaped. }
      eapply triple_bind.
      + apply triple_falls; [apply falls_for_with; intros; apply falls_translate_row|].
        eapply triple_weaken;
          [apply (batch_rows_history batch_start batch_rows 1 ws); [done | lia | lia] | |].
        * intros w. apply Hist_mono. intros v. apply live_upto_mono. lia.
        * intros r w Hw. apply (Hist_mono _ _ (live_upto N (Z.of_nat (batch_start + BATCH))))
            in Hw; [exact Hw|].
          intros v. apply live_upto_mono. lia.
      + intros ws'.
        eapply (triple_bind_ambient not_tasks I');
          [done | by apply ambient_save | auto with falls | intros _
          | intros; by eapply Htop].
        eapply (triple_bind_ambient not_tasks I');
          [done | by apply ambient_time_sleep | auto with falls | intros _
          | intros; by eapply Htop].
        intros w Hw. exact Hw.
      + by intros r w Hw.
      + intros e w Hw. simpl in Hw. eapply Htop, Hw.
  Qed.
End run.



Lemma batches_history task_id title_col_idx insert_idx rows_to_tr start output_path n k ws :
  (0 < length rows_to_tr)%nat →
  (∀ i, (k ≤ i < k + n)%nat → (i * BATCH ≤ length rows_to_tr)%nat) →
  triple
    (λ w, Hist task_id (live_upto (Z.of_nat (length rows_to_tr)) (Z.of_nat (k * BATCH)))
            (see w))
    (for_with ((λ i, 0 + i * BATCH)%nat <$> seq k n) ws
       (run_batch task_id title_col_idx insert_idx rows_to_tr start output_path))
    (after_batch task_id rows_to_tr (Z.of_nat (length rows_to_tr))).
Proof.
  intros Htotal. revert k ws. induction n as [|n IH]; intros k ws Hin.
  - simpl. intros w Hw. simpl. eapply Hist_mono; [|exact Hw]. apply live_upto_top.
  - simpl. eapply triple_bind.
    + apply run_batch_history; [done|]. apply (Hin k). lia.
    + intros ws'. simpl. eapply triple_weaken; [apply (IH (S k) ws') | |].
      * intros i Hi. apply Hin. lia.
      * intros w. apply Hist_mono. intros v. apply live_upto_mono. unfold BATCH. lia.
      * done.
    + done.
    + done.
Qed.

Lemma live_view_shaped v : live_view v → shaped v.
Proof. intros (N & c & H). by exists (Live N c). Qed.

Lemma range_within total i :
  (i < (total - 0 + BATCH - 1) / BATCH)%nat → (i * BATCH ≤ total)%nat.
Proof.
  unfold BATCH. intros Hi.
  pose proof (Nat.Div0.mul_div_le (total - 0 + 10 - 1) 10). lia.
Qed.

Lemma run_task_body_history file_path task_id :
  triple (λ w, Hist task_id (has_shape (Live 0 0)) (see w))
    (run_task_body file_path task_id) (after_body task_id).
Proof.
  unfold run_task_body.
  assert (Hst : stable not_tasks (Hist task_id (has_shape (Live 0 0)))).
  { apply Hist_stable. intros v Hv. by exists (Live 0 0). }
  assert (Hlive : ∀ w, Hist task_id (has_shape (Live 0 0)) (see w) →
                       Hist task_id live_view (see w)).
  { intros w. apply Hist_mono. intros v Hv. by exists 0, 0. }
  eapply triple_bind_ambient;
    [done | apply ambient_load_workbook | auto with falls | intros wb | auto].
  destruct (active wb) as [ws|]; [apply triple_bind_ret | intros w Hw; by apply Hlive].
  destruct (find_title 1 (row_values ws 1)) as [title_col_idx|];
    [apply triple_bind_ret | intros w Hw; by apply Hlive].
  cbv zeta.
  set (ws' := with_translation_column _ _).
  set (rows_to_tr := rows_to_translate ws' title_col_idx).
  set (total := length rows_to_tr). set (N := Z.of_nat total).
  eapply triple_bind;
    [apply (triple_safe_update _ _ (has_shape (Live 0 0)) (has_shape (Live N 0))
              (View None None (vint 0) (vint N) None None))
    | | |].
  - reflexivity.
  - intros v Hv. by exists (Live 0 0).
  - intros v [_ ->]. unfold merge_view. simpl.
    assert (Hnew : has_shape (Live N 0)
              (View (vstr "running") (vint (pct 0 0)) (vint 0) (vint N) None None)).
    { split; [unfold N; lia|]. unfold pct. by destruct (N =? 0). }
    split; [exact Hnew | split; [by exists (Live N 0) | unfold advances; simpl; lia]].
  - intros [] . simpl.
    destruct (Nat.eqb_spec total 0) as [Hzero|Hpos].
    + eapply triple_bind;
        [apply (triple_safe_update _ _ (has_shape (Live N 0)) (has_shape DoneEmpty)
                  (View (vstr "done") (vint 100) None None None None))
        | | |].
      * reflexivity.
      * intros v Hv. by exists (Live N 0).
      * intros v [_ ->]. unfold merge_view. simpl.
        assert (N = 0) as -> by (unfold N; lia).
        split; [done | split; [by exists DoneEmpty | unfold advances, pct; simpl; lia]].
      * intros [] w Hw. simpl. eapply Hist_mono; [|exact Hw]. intros v Hv. by left.
      * by intros ? ? ?.
      * by intros ? ? ?.
    + assert (Hst2 : stable not_tasks (Hist task_id (has_shape (Live N 0)))).
      { apply Hist_stable. intros v Hv. by exists (Live N 0). }
      assert (Hlive2 : ∀ b w, Hist task_id (live_upto N b) (see w) →
                              Hist task_id live_view (see w)).
      { intros b w. apply Hist_mono. intros v (c & _ & Hv). by exists N, c. }
      eapply triple_bind_ambient;
        [done | apply ambient_time_time | auto with falls | intros start |].
      2:{ intros e w Hw. simpl. eapply Hist_mono; [|exact Hw]. intros v Hv. by exists N, 0. }
      cbv zeta. eapply triple_bind.
      * eapply triple_weaken;
          [apply (batches_history task_id title_col_idx (title_col_idx + 1) rows_to_tr start _
                    ((total - 0 + BATCH - 1) / BATCH) 0 ws') | |].
        -- fold total. lia.
        -- intros i Hi. apply range_within. fold total. lia.
        -- intros w. apply Hist_mono. intros v Hv. exists 0. split; [simpl; lia | exact Hv].
        -- intros r w Hw. exact Hw.
      * intros ws''. simpl. fold total. fold N.
        assert (Hst3 : stable not_tasks (Hist task_id (live_upto N N))).
        { apply Hist_stable. intros v. apply live_upto_shaped. }
        eapply triple_bind_ambient;
          [done | apply ambient_time_time | auto with falls | intros finished
          | intros; by eapply Hlive2].
        eapply triple_weaken;
          [apply (triple_safe_update _ _ (live_upto N N) finished_view
                    (View (vstr "done") (vint 100) None None
                       (Some (VStr (basename (path_join (utf8 "/tmp")
                          (splitext_root (basename file_path) ++ utf8 "_中文翻译.xlsx")))))
                       (Some (VFloat finished))))
          | done | ].
        -- reflexivity.
        -- intros v. apply live_upto_shaped.
        -- intros v (c & _ & Hc & ->). unfold merge_view. simpl.
           assert (Hnew : has_shape (DoneFull N c)
                     (View (vstr "done") (vint 100) (vint c) (vint N)
                        (Some (VStr (basename (path_join (utf8 "/tmp")
                           (splitext_root (basename file_path) ++ utf8 "_中文翻译.xlsx")))))
                        (Some (VFloat finished)))).
           { split; [done|]. split; [unfold N; lia|]. by eexists _, _. }
           split; [by exists N, c | split; [by exists (DoneFull N c) |]].
           unfold advances. simpl. pose proof (pct_bounds c N Hc). lia.
        -- intros [] w Hw; [exact Hw | done | done].
      * intros r w Hw. simpl in *. eapply Hist_mono; [|exact Hw].
        intros v (c & Hv). right. by exists N, c.
      * intros e w Hw. simpl in *. by eapply Hlive2.
  - by intros ? ? ?.
  - by intros ? ? ?.
Qed.

Lemma run_task_failed_history task_id e :
  triple (λ w, Hist task_id live_view (see w)) (run_task_failed task_id e)
    (λ _ w, Hist task_id shaped (see w)).
Proof.
  unfold run_task_failed.
  eapply triple_bind_ambient;
    [by apply Hist_stable, live_view_shaped | apply ambient_time_time | auto with falls
    | intros finished | ].
  2:{ intros _ w. apply Hist_mono, live_view_shaped. }
  eapply triple_weaken;
    [apply (triple_safe_update _ _ live_view failed_view
              (View (vstr "error") None None None None (Some (VFloat finished))))
    | done | ].
  - reflexivity.
  - apply live_view_shaped.
  - intros v (N & c & Hc & ->). unfold merge_view. simpl.
    assert (Hnew : has_shape (Failed N c)
              (View (vstr "error") (vint (pct c N)) (vint c) (vint N) None
                 (Some (VFloat finished)))).
    { split; [done | by eexists]. }
    split; [by exists N, c | split; [by exists (Failed N c) | unfold advances; simpl; lia]].
  - intros [] w Hw; [|done..]. eapply Hist_mono; [|exact Hw].
    intros v (N & c & Hv). by exists (Failed N c).
Qed.

(** Every record a run leaves in the history has one of the shapes, and
    progress never goes back. *)
Lemma run_task_history file_path task_id :
  triple (λ w, Hist task_id (has_shape Idle) (see w)) (_run_task file_path task_id)
    (λ _ w, Hist task_id shaped (see w)).
Proof.
  unfold _run_task.
  assert (Hidle : ∀ v, has_shape Idle v → shaped v) by (intros v Hv; by exists Idle).
  eapply triple_bind_ambient;
    [by apply Hist_stable | apply ambient_time_time | auto with falls | intros started | ].
  2:{ intros _ w. by apply Hist_mono. }
  eapply triple_bind;
    [apply (triple_safe_update _ _ (has_shape Idle) (has_shape (Live 0 0))
              (View (vstr "running") (vint 0) None None None None))
    | | | ].
  - reflexivity.
  - done.
  - intros v ->. unfold merge_view. simpl.
    assert (Hnew : has_shape (Live 0 0)
              (View (vstr "running") (vint 0) (vint 0) (vint 0) None None)).
    { split; [lia | reflexivity]. }
    split; [exact Hnew | split; [by exists (Live 0 0) | unfold advances; simpl; lia]].
  - intros []. apply triple_try_finally.
    + eapply triple_try_except; [apply run_task_body_history | | |].
      * intros e. apply run_task_failed_history.
      * intros [] w. apply Hist_mono. intros v (N & c & Hv). by exists (DoneFull N c).
      * intros [] w. apply Hist_mono. intros v [Hv|(N & c & Hv)];
          [by exists DoneEmpty | by exists (Canceled N c)].
    + eapply (triple_ambient not_tasks); [by apply Hist_stable|].
      apply ambient_run_task_finally. by intros [].
  - done.
  - done.
Qed.

Lemma Hist_initial w task_id file_path filename :
  TASKS w !! task_id = Some (initial_state file_path filename) →
  trace w = [] →
  Hist task_id (has_shape Idle) (see w).
Proof.
  intros HT Htr. unfold Hist, see. simpl. rewrite Htr, HT. simpl.
  split; [by eexists|]. split; [done|]. split; [constructor | done].
Qed.

Lemma run_task_shapes w task_id file_path filename :
  TASKS w !! task_id = Some (initial_state file_path filename) →
  trace w = [] →
  Hist task_id shaped (see (_run_task file_path task_id w).2).
Proof. intros HT Htr. by apply run_task_history, (Hist_initial _ _ file_path filename). Qed.


(** ** Claims on the records of a run *)

Lemma view_of_fields r a b c d e f :
  view_of r = View a b c d e f →
  r !! "status" = a ∧ r !! "percent" = b ∧ r !! "current" = c ∧ r !! "total" = d ∧
  r !! "download_filename" = e ∧ r !! "finished_at" = f.
Proof. unfold view_of. by intros [= -> -> -> -> -> ->]. Qed.

Lemma shaped_fields r :
  shaped (view_of r) →
  ∃ p c t k,
    r !! "percent" = Some (VInt p) ∧ r !! "current" = Some (VInt c) ∧
    r !! "total" = Some (VInt t) ∧ 0 ≤ p ≤ 100 ∧ 0 ≤ c ≤ t ∧ of_kind k r t.
Proof.
  intros [s Hs]. destruct s as [|N c| |N c|N c|N c]; simpl in Hs.
  - apply view_of_fields in Hs as (Hst & Hp & Hc & Ht & Hd & Hf).
    exists 0, 0, 0, Unfinished. unfold of_kind, status_is. split_and!; auto; lia.
  - destruct Hs as (Hc' & Hs). pose proof (pct_bounds c N Hc').
    apply view_of_fields in Hs as (Hst & Hp & Hc & Ht & Hd & Hf).
    exists (pct c N), c, N, Unfinished. unfold of_kind, status_is. split_and!; auto; lia.
  - apply view_of_fields in Hs as (Hst & Hp & Hc & Ht & Hd & Hf).
    exists 100, 0, 0, DoneNothing. unfold of_kind, status_is. split_and!; auto; lia.
  - destruct Hs as (Hc' & Hs). pose proof (pct_bounds c N Hc').
    apply view_of_fields in Hs as (Hst & Hp & Hc & Ht & Hd & Hf).
    exists (pct c N), c, N, Unfinished. unfold of_kind, status_is. split_and!; auto; lia.
  - destruct Hs as (Hc' & HN & f & t & Hs).
    apply view_of_fields in Hs as (Hst & Hp & Hc & Ht & Hd & Hf).
    exists 100, c, N, DoneAll. unfold of_kind, status_is, has_field.
    split_and!; eauto; lia.
  - destruct Hs as (Hc' & t & Hs). pose proof (pct_bounds c N Hc').
    apply view_of_fields in Hs as (Hst & Hp & Hc & Ht & Hd & Hf).
    exists (pct c N), c, N, Error. unfold of_kind, status_is, has_field.
    split_and!; eauto; lia.
Qed.

Lemma seen_shaped w task_id file_path filename r :
  TASKS w !! task_id = Some (initial_state file_path filename) →
  trace w = [] →
  seen task_id (_run_task file_path task_id w).2 r →
  shaped (view_of r).
Proof.
  intros HT Htr Hseen.
  destruct (run_task_shapes w task_id file_path filename HT Htr)
    as ((r0 & Hr0 & Hv) & _ & Hall & _).
  destruct Hseen as [Hin|Hlast].
  - rewrite Forall_forall in Hall. by apply Hall.
  - simpl in Hr0. rewrite Hlast in Hr0. by injection Hr0 as ->.
Qed.

Lemma climbing_lookup (h : list view) i v v' :
  climbing h → h !! S i = Some v → h !! i = Some v' → advances v v'.
Proof.
  revert i. induction h as [|x h IH]; intros i Hcl Hold Hnew; [done|].
  destruct Hcl as [Hhd Hcl]. destruct i as [|i].
  - simpl in *. injection Hnew as ->. destruct h; simpl in *; [done|].
    by injection Hold as ->.
  - simpl in Hold, Hnew. eauto.
Qed.

(** Two values of the field [status] of one record are the same text. *)
Ltac clash :=
  unfold status_is, has_field in *;
  repeat match goal with
    | H : _ ∧ _ |- _ => destruct H
    | H : _ ∨ _ |- _ => destruct H
    end;
  try match goal with
    | H1 : ?r !! ?k = Some _, H2 : ?r !! ?k = Some _ |- _ =>
        rewrite H1 in H2; vm_compute in H2; congruence
    | H1 : ?r !! ?k = None, H2 : is_Some (?r !! ?k) |- _ =>
        rewrite H1 in H2; by destruct H2
    | H1 : ?r !! ?k = None, H2 : ?r !! ?k = Some _ |- _ =>
        rewrite H1 in H2; discriminate
    end.

(** C1 (as amended). [download_filename] is in the record only when the
    status is [done]: no record that is idle, running, canceled or in error
    has it.  Of the records that are done, the ones of a run that translated
    rows have it, the ones of a run that found no row to translate do not. *)
Theorem download_filename_only_when_done w task_id file_path filename :
  TASKS w !! task_id = Some (initial_state file_path filename) →
  trace w = [] →
  ¬ has_field "download_filename" (initial_state file_path filename) ∧
  ∀ r, seen task_id (_run_task file_path task_id w).2 r →
       (has_field "download_filename" r → status_is "done" r) ∧
       (status_is "done" r →
        (has_field "download_filename" r ↔ r !! "total" ≠ Some (VInt 0))).
Proof.
  intros HT Htr. split; [by intros [x Hx]|]. intros r Hr.
  apply (seen_shaped _ _ _ _ _ HT Htr) in Hr.
  destruct (shaped_fields r Hr) as (p & c & t & k & Hp & Hc & Ht & Hpb & Hcb & Hk).
  destruct k; simpl in Hk; (split; [intros Hd | intros Hs; split; [intros Hd | intros Hz]]);
    try (by clash).
Qed.

(** C8. In every record of a run, [percent] is between 0 and 100 and
    [current] is at most [total]; from one record to the next, [percent] and
    [current] do not decrease. *)
Theorem progress_is_monotone w task_id file_path filename :
  TASKS w !! task_id = Some (initial_state file_path filename) →
  trace w = [] →
  let h := history task_id (trace (_run_task file_path task_id w).2) in
  (∀ r, seen task_id (_run_task file_path task_id w).2 r →
        ∃ p c t, r !! "percent" = Some (VInt p) ∧ r !! "current" = Some (VInt c) ∧
                 r !! "total" = Some (VInt t) ∧ 0 ≤ p ≤ 100 ∧ 0 ≤ c ≤ t) ∧
  (∀ i older newer,
      h !! S i = Some older → h !! i = Some newer →
      num (older !! "percent") ≤ num (newer !! "percent") ∧
      num (older !! "current") ≤ num (newer !! "current")).
Proof.
  intros HT Htr h. split.
  - intros r Hr. apply (seen_shaped _ _ _ _ _ HT Htr) in Hr.
    destruct (shaped_fields r Hr) as (p & c & t & k & Hp & Hc & Ht & Hpb & Hcb & Hk).
    by exists p, c, t.
  - intros i older newer Hold Hnew.
    destruct (run_task_shapes w task_id file_path filename HT Htr) as (_ & _ & _ & Hcl).
    simpl in Hcl. fold h in Hcl.
    apply (climbing_lookup _ i (view_of older) (view_of newer)) in Hcl;
      [exact Hcl | |]; rewrite list_lookup_fmap; [by rewrite Hold | by rewrite Hnew].
Qed.

(** C10. [finished_at] is in the record exactly when the task is in error
    or done with an output file; a record that is canceled, or done without
    a row to translate, does not have it. *)
Theorem finished_at_only_on_completion_or_error w task_id file_path filename :
  TASKS w !! task_id = Some (initial_state file_path filename) →
  trace w = [] →
  ∀ r, seen task_id (_run_task file_path task_id w).2 r →
       (has_field "finished_at" r ↔
        status_is "error" r ∨
        (status_is "done" r ∧ has_field "download_filename" r)) ∧
       (status_is "canceled" r → ¬ has_field "finished_at" r) ∧
       (status_is "done" r → r !! "total" = Some (VInt 0) →
        ¬ has_field "finished_at" r).
Proof.
  intros HT Htr r Hr. apply (seen_shaped _ _ _ _ _ HT Htr) in Hr.
  destruct (shaped_fields r Hr) as (p & c & t & k & Hp & Hc & Ht & Hpb & Hcb & Hk).
  destruct k; simpl in Hk;
    (split; [split; [intros Hf | intros Hs] | split; [intros Hs Hf | intros Hs Hz Hf]]);
    try (by clash).
  - left. by destruct Hk.
  - right. by destruct Hk as (? & _ & ? & _).
Qed.


(** ** Cancellation *)

Section cancellation.
Context (task_id : string).

Lemma trace_ok_mute n e tr :
    mute task_id e → trace_ok task_id n tr → trace_ok task_id n (e :: tr).
  Proof.
    intros [Ht Hs] (Hu & Hb & Hn). unfold trace_ok. simpl. rewrite Ht, Hs. simpl.
    split_and!; try done.
  Qed.

Lemma in_batch_mute j e tr :
    mute task_id e → in_batch task_id j tr → in_batch task_id j (e :: tr).
  Proof.
    intros [Ht Hs] (Hc & Hn). unfold in_batch, checked in *. simpl.
    rewrite Ht, Hs. simpl. done.
  Qed.

Lemma trace_ok_weaken n m tr : (n ≤ m)%nat → trace_ok task_id n tr → trace_ok task_id m tr.
  Proof. intros Hnm (Hu & Hb & Hn). split_and!; [done | done | lia]. Qed.

Lemma unrequested_zero tr :
    requested task_id tr = false → translated_since_request task_id tr = 0%nat.
  Proof.
    induction tr as [|e tr IH]; [done|]. intros H. unfold requested in H. simpl in H.
    apply orb_false_elim in H as [He Htr]. fold (requested task_id tr) in Htr.
    simpl. rewrite Htr, andb_false_r. simpl. by apply IH.
  Qed.

Lemma trace_ok_snapshot n tr :
    requested task_id tr = false → trace_ok task_id n tr →
    trace_ok task_id 0 (EvSnapshot task_id :: tr) ∧
    in_batch task_id 0 (EvSnapshot task_id :: tr).
  Proof.
    intros Hreq (Hu & Hb & Hn). unfold trace_ok, in_batch, checked. simpl.
    rewrite bool_decide_true by done. simpl.
    rewrite (unrequested_zero _ Hreq). split_and!; try done; lia.
  Qed.

Lemma trace_ok_translate j row text tr :
    (j < BATCH)%nat → trace_ok task_id j tr → in_batch task_id j tr →
    trace_ok task_id (S j) (EvTranslate row text :: tr) ∧
    in_batch task_id (S j) (EvTranslate row text :: tr).
  Proof.
    intros Hj (Hu & Hb & Hn) (Hc & Hm). unfold trace_ok, in_batch, checked in *. simpl.
    split_and!; try done.
    - intros _. split; [done | lia].
    - destruct (requested task_id tr); simpl; lia.
    - lia.
  Qed.

Lemma answering_push e tr :
    is_effect e = false → is_snapshot task_id e = false →
    answering task_id tr → answering task_id (e :: tr).
  Proof.
    intros He Hs (newer & older & -> & Hsil & Hun).
    exists (e :: newer), older. split_and!; [done | by constructor | done].
  Qed.

Lemma batched_mute e tr :
    is_translate e = false → batched task_id tr → batched task_id (e :: tr).
  Proof. intros He Hb. simpl. rewrite He. by split. Qed.

Lemma since_request_mute e tr :
    is_translate e = false →
    translated_since_request task_id (e :: tr) = translated_since_request task_id tr.
  Proof. intros He. simpl. by rewrite He. Qed.

(** *** The registry *)

Lemma present_update kv T :
    present task_id T → present task_id (safe_update_tasks task_id kv T).
  Proof.
    intros (rec & Hrec & Htr). rewrite (safe_update_tasks_here _ _ _ _ Hrec Htr).
    exists (kv ∪ rec). rewrite lookup_insert_eq. split; [done|].
    apply dict_truthy_nonempty. apply dict_truthy_nonempty in Htr.
    intros Hempty. apply Htr. apply map_eq. intros k. rewrite lookup_empty.
    apply (f_equal (λ m : record, m !! k)) in Hempty. rewrite lookup_union, lookup_empty in Hempty.
    by destruct (kv !! k), (rec !! k).
  Qed.

Lemma present_cancel tid T : present task_id T → present task_id (request_cancel tid T).
  Proof.
    intros H. destruct (decide (tid = task_id)) as [->|Hne]; [by apply present_update|].
    destruct H as (rec & Hrec & Htr). exists rec.
    unfold request_cancel. by rewrite safe_update_tasks_other.
  Qed.

Lemma flagged_update kv T :
    present task_id T → kv !! "cancel_requested" = None →
    flagged task_id (safe_update_tasks task_id kv T) = flagged task_id T.
  Proof.
    intros (rec & Hrec & Htr) Hkv. rewrite (safe_update_tasks_here _ _ _ _ Hrec Htr).
    unfold flagged, dict_get. rewrite lookup_insert_eq, Hrec, lookup_update, Hkv. done.
  Qed.

Lemma flagged_cancel T : present task_id T → flagged task_id (request_cancel task_id T) = true.
  Proof.
    intros (rec & Hrec & Htr). unfold request_cancel.
    rewrite (safe_update_tasks_here _ _ _ _ Hrec Htr).
    unfold flagged, dict_get. by rewrite lookup_insert_eq, lookup_update.
  Qed.

Lemma flagged_cancel_other tid T :
    tid ≠ task_id → flagged task_id (request_cancel tid T) = flagged task_id T.
  Proof. intros Hne. unfold flagged, request_cancel. by rewrite safe_update_tasks_other. Qed.

Lemma canceled_cancel tid T : canceled task_id T → canceled task_id (request_cancel tid T).
  Proof.
    intros (rec & Hrec & Hst). destruct (decide (tid = task_id)) as [->|Hne].
    - unfold request_cancel. rewrite (safe_update_tasks_here _ _ _ _ Hrec);
        [|by eapply dict_truthy_lookup].
      exists ({[ "cancel_requested" := VBool true ]} ∪ rec). rewrite lookup_insert_eq.
      split; [done|]. unfold status_is. by rewrite lookup_update.
    - exists rec. unfold request_cancel. by rewrite safe_update_tasks_other.
  Qed.

(** *** The invariants are stable *)

Lemma heeds_log e T tr :
    is_cancel task_id e = false → heeds task_id (T, tr) → heeds task_id (T, e :: tr).
  Proof. intros He [Hp Hf]. split; [done|]. unfold requested. simpl. by rewrite He. Qed.

Lemma heeds_deliver tid T tr :
    heeds task_id (T, tr) →
    heeds task_id (request_cancel tid T, EvTasks (request_cancel tid T) :: EvCancel tid :: tr).
  Proof.
    intros [Hp Hf]. split; [by apply present_cancel|]. simpl. unfold requested. simpl.
    destruct (decide (tid = task_id)) as [->|Hne].
    - intros _. by apply flagged_cancel.
    - rewrite bool_decide_false by done. simpl. rewrite flagged_cancel_other by done. apply Hf.
  Qed.

Lemma mute_tasks T : mute task_id (EvTasks T).
  Proof. done. Qed.
Lemma mute_cancel tid : mute task_id (EvCancel tid).
  Proof. done. Qed.

Lemma between_stable : stable (passive task_id) (between task_id).
  Proof.
    intros o o' Hevo. induction Hevo as [|o T tr e _ IH [Hm Hc]|o T tr tid _ IH]; intros Ho.
    - done.
    - destruct (IH Ho) as [Hh Ht]. split; [by apply heeds_log | by apply trace_ok_mute].
    - destruct (IH Ho) as [Hh Ht]. split; [by apply heeds_deliver|]. simpl in *.
      apply trace_ok_mute; [apply mute_tasks|]. by apply trace_ok_mute; [apply mute_cancel|].
  Qed.

Lemma within_stable j : stable (passive task_id) (within task_id j).
  Proof.
    intros o o' Hevo. induction Hevo as [|o T tr e _ IH [Hm Hc]|o T tr tid _ IH]; intros Ho.
    - done.
    - destruct (IH Ho) as (Hh & Ht & Hb).
      split_and!; [by apply heeds_log | by apply trace_ok_mute | by apply in_batch_mute].
    - destruct (IH Ho) as (Hh & Ht & Hb). split_and!; [by apply heeds_deliver | |]; simpl in *.
      + apply trace_ok_mute; [apply mute_tasks|]. by apply trace_ok_mute; [apply mute_cancel|].
      + apply in_batch_mute; [apply mute_tasks|]. by apply in_batch_mute; [apply mute_cancel|].
  Qed.

Lemma stopping_stable : stable (inert task_id) (stopping task_id).
  Proof.
    intros o o' Hevo.
    induction Hevo as [|o T tr e _ IH [[[Ht Hs] Hc] He]|o T tr tid _ IH]; intros Ho.
    - done.
    - destruct (IH Ho) as (Hp & Ha & Hb & Hn). simpl in *.
      split_and!; [done | by apply answering_push | by apply batched_mute |].
      simpl. by rewrite Ht.
    - destruct (IH Ho) as (Hp & Ha & Hb & Hn). simpl in *.
      split_and!; [by apply present_cancel | by do 2 (apply answering_push; [done|done|])
                  | by do 2 (apply batched_mute; [done|]) | done].
  Qed.

Lemma stopped_stable : stable (inert task_id) (stopped task_id).
  Proof.
    intros o o' Hevo.
    induction Hevo as [|o T tr e _ IH [[[Ht Hs] Hc] He]|o T tr tid _ IH]; intros Ho.
    - done.
    - destruct (IH Ho) as (Hp & Ha & Hb & Hn). simpl in *.
      split_and!; [done | by apply answering_push | by apply batched_mute |].
      simpl. by rewrite Ht.
    - destruct (IH Ho) as (Hp & Ha & Hb & Hn). simpl in *.
      split_and!; [by apply canceled_cancel | by do 2 (apply answering_push; [done|done|])
                  | by do 2 (apply batched_mute; [done|]) | done].
  Qed.
End cancellation.



Lemma get_state_eq {R} task_id w :
  _get_state (R:=R) task_id w =
    (Val (match TASKS (ticked w) !! task_id with
          | Some st => if dict_truthy st then st else ∅
          | None => ∅
          end),
     log (EvSnapshot task_id) (ticked w)).
Proof. done. Qed.

Ltac obs_simpl :=
  unfold see in *;
  cbn [fst snd TASKS trace files steps outside log set_TASKS set_steps set_files] in *.

Section cancellation_run.
Context (task_id : string).

Lemma heeds_update kv T tr :
    kv !! "cancel_requested" = None →
    heeds task_id (T, tr) →
    heeds task_id (safe_update_tasks task_id kv T,
                   EvTasks (safe_update_tasks task_id kv T) :: tr).
  Proof.
    intros Hkv [Hp Hf]. split; [by apply present_update|]. simpl in *.
    rewrite flagged_update by done. exact Hf.
  Qed.

(** An update of the worker, which never writes the flag, between two
      batches and within one. *)
Lemma triple_safe_update_between {R} kv :
    kv !! "cancel_requested" = None →
    triple (λ w, between task_id (see w)) (_safe_update (R:=R) task_id kv)
      (λ r w, match r with Val _ => between task_id (see w) | _ => False end).
  Proof.
    intros Hkv w Hw. rewrite safe_update_eq. unfold updated. simpl.
    destruct (between_stable task_id _ _ (evo_ticked (passive task_id) w) Hw) as [Hh Ht].
    split; [by apply heeds_update | by apply trace_ok_mute].
  Qed.

Lemma triple_safe_update_within {R} j kv :
    kv !! "cancel_requested" = None →
    triple (λ w, within task_id j (see w)) (_safe_update (R:=R) task_id kv)
      (λ r w, match r with Val _ => within task_id j (see w) | _ => False end).
  Proof.
    intros Hkv w Hw. rewrite safe_update_eq. unfold updated. simpl.
    destruct (within_stable task_id j _ _ (evo_ticked (passive task_id) w) Hw)
      as (Hh & Ht & Hb).
    split_and!; [by apply heeds_update | by apply trace_ok_mute | by apply in_batch_mute].
  Qed.

(** The update that marks the task canceled. *)
Lemma triple_safe_update_canceled {R} :
    triple (λ w, stopping task_id (see w))
      (_safe_update (R:=R) task_id
         {[ "status" := VStr (utf8 "canceled"); "message" := VStr (utf8 "已取消") ]})
      (λ r w, match r with Val _ => stopped task_id (see w) | _ => False end).
  Proof.
    intros w Hw. rewrite safe_update_eq. unfold updated. simpl.
    destruct (stopping_stable task_id _ _ (evo_ticked (inert task_id) w) Hw)
      as ((rec & Hrec & Htr) & Ha & Hb & Hn).
    obs_simpl. rewrite (safe_update_tasks_here _ _ _ _ Hrec Htr).
    split_and!; [| by apply answering_push | by apply batched_mute | done].
    obs_simpl. eexists. rewrite lookup_insert_eq. split; [done|].
    unfold status_is. by rewrite lookup_update.
  Qed.

Lemma within_weaken j o : (j ≤ BATCH)%nat → within task_id j o → between task_id o.
  Proof. intros Hj (Hh & Ht & _). split; [done|]. by eapply trace_ok_weaken. Qed.

Lemma within_mono j j' o : (j ≤ j')%nat → within task_id j o → within task_id j' o.
  Proof.
    intros Hj (Hh & Ht & Hc & Hn).
    split; [done|]. split; [by eapply trace_ok_weaken|]. split; [done | lia].
  Qed.

Section rows.
Context (title_col_idx insert_idx total : nat) (start : Q) (batch_start : nat).

Lemma translate_row_cancel j item ws :
      (j < BATCH)%nat →
      triple (λ w, within task_id j (see w))
        (translate_row task_id title_col_idx insert_idx total start batch_start item ws)
        (λ r w, match r with
                | Ret _ => False
                | _ => within task_id (S j) (see w)
                end).
    Proof.
      intros Hj. apply triple_falls; [apply falls_translate_row|].
      unfold translate_row. destruct item as [done_in_batch row].
      assert (Hst : stable (passive task_id) (within task_id (S j))) by apply within_stable.
      eapply triple_bind with (Q1 := λ _ w, within task_id (S j) (see w)).
      - intros w (Hh & Ht & Hb). simpl.
        destruct (trace_ok_translate task_id j row
                    (str_of_cell (cell_value_at ws row title_col_idx)) _ Hj Ht Hb).
        split_and!; [by apply heeds_log | done | done].
      - intros _.
        eapply triple_bind_ambient;
          [done | apply ambient_call, ambient_translate_text; by intros []
          | auto with falls | intros translated | auto].
        eapply triple_bind_ambient;
          [done | apply ambient_lift | auto with falls | intros ws' | auto].
        eapply triple_bind_ambient;
          [done | apply ambient_time_time | auto with falls | intros now | auto].
        eapply triple_bind_ambient;
          [done | apply ambient_lift | auto with falls | intros eta | auto].
        eapply triple_bind_ambient;
          [done | apply ambient_lift | auto with falls | intros percent | auto].
        eapply triple_bind; [by apply triple_safe_update_within | | |].
        + intros [] w Hw. exact Hw.
        + done.
        + done.
      - done.
      - done.
    Qed.

Lemma batch_rows_cancel l k j ws :
      (j + length l ≤ BATCH)%nat →
      triple (λ w, within task_id j (see w))
        (for_with (enumerate k l) ws
           (translate_row task_id title_col_idx insert_idx total start batch_start))
        (λ r w, match r with
                | Ret _ => False
                | _ => within task_id (j + length l)%nat (see w)
                end).
    Proof.
      revert k j ws. induction l as [|row l IH]; intros k j ws Hle.
      - simpl. intros w Hw. simpl. eapply within_mono; [|exact Hw]. lia.
      - simpl in *. eapply triple_bind.
        + apply (translate_row_cancel j (k, row) ws). lia.
        + intros ws'. simpl. eapply triple_weaken; [apply (IH (S k) (S j) ws'); lia | done |].
          intros [] w Hw; [|done|]; simpl in *; (eapply within_mono; [|exact Hw]); lia.
        + done.
        + intros e w Hw. simpl in *. eapply within_mono; [|exact Hw]. lia.
    Qed.
End rows.

Lemma run_batch_cancel title_col_idx insert_idx rows_to_tr start output_path
      batch_start ws :
    triple (λ w, between task_id (see w))
      (run_batch task_id title_col_idx insert_idx rows_to_tr start output_path
         batch_start ws)
      (after_batch_cancel task_id).
  Proof.
    unfold run_batch.
    eapply triple_bind with
      (Q1 := λ r w, match r with
                    | Val st =>
                        if truthy (dict_get st "cancel_requested")
                        then stopping task_id (see w)
                        else within task_id 0%nat (see w)
                    | _ => False
                    end).
    - intros w Hw. rewrite get_state_eq. cbn [fst snd].
      destruct (between_stable task_id _ _ (evo_ticked (passive task_id) w) Hw)
        as ([(rec & Hrec & Htr) Hf] & Hu & Hb & Hn).
      obs_simpl. rewrite Hrec, Htr.
      assert (Hflag : flagged task_id (TASKS (ticked w))
                      = truthy (dict_get rec "cancel_requested")).
      { unfold flagged. by rewrite Hrec. }
      destruct (truthy (dict_get rec "cancel_requested")) eqn:E.
      + split_and!; [by exists rec | | by apply batched_mute | done].
        exists [], (trace (ticked w)). split; [done|]. split; [constructor | done].
      + assert (Hreq : requested task_id (trace (ticked w)) = false).
        { destruct (requested task_id (trace (ticked w))); [|done].
          rewrite Hf in Hflag; done. }
        destruct (trace_ok_snapshot task_id BATCH (trace (ticked w)) Hreq) as [H1 H2];
          [done|].
        split_and!; [split; [by exists rec|] | done | done].
        cbn [fst snd]. intros H. unfold requested in H. cbn [existsb is_cancel orb] in H.
        fold (requested task_id (trace (ticked w))) in H. congruence.
    - intros st. destruct (truthy (dict_get st "cancel_requested")).
      + eapply triple_bind; [apply triple_safe_update_canceled | | |].
        * intros [] w Hw. exact Hw.
        * done.
        * done.
      + eapply triple_bind.
        * eapply (batch_rows_cancel _ _ _ _ _ _ 1%nat 0%nat). rewrite length_take. unfold BATCH. lia.
        * intros ws'. simpl.
          set (I := between task_id).
          assert (Hst : stable (passive task_id) I) by apply between_stable.
          eapply triple_weaken with (P' := λ w, I (see w));
            [| intros w Hw; eapply within_weaken; [|exact Hw];
               rewrite length_take; unfold BATCH; lia | done].
          eapply triple_bind_ambient;
            [done | by apply ambient_save | auto with falls | intros _ | done].
          eapply triple_bind_ambient;
            [done | by apply ambient_time_sleep | auto with falls | intros _ | done].
          intros w Hw. exact Hw.
        * done.
        * intros e w Hw. simpl in *. eapply within_weaken; [|exact Hw].
          rewrite length_take. unfold BATCH. lia.
    - done.
    - done.
  Qed.

Lemma batches_cancel title_col_idx insert_idx rows_to_tr start output_path l ws :
    triple (λ w, between task_id (see w))
      (for_with l ws
         (run_batch task_id title_col_idx insert_idx rows_to_tr start output_path))
      (after_batch_cancel task_id).
  Proof.
    revert ws. induction l as [|batch_start l IH]; intros ws.
    - by intros w Hw.
    - simpl. eapply triple_bind; [apply run_batch_cancel | | done | done].
      intros ws'. apply IH.
  Qed.

Lemma run_task_body_cancel file_path :
    triple (λ w, between task_id (see w)) (run_task_body file_path task_id)
      (λ r w, match r with
              | Ret _ => between task_id (see w) ∨ stopped task_id (see w)
              | _ => between task_id (see w)
              end).
  Proof.
    unfold run_task_body.
    assert (Hst : stable (passive task_id) (between task_id)) by apply between_stable.
    eapply triple_bind_ambient;
      [done | apply ambient_load_workbook | auto with falls | intros wb | auto].
    destruct (active wb) as [ws|]; [apply triple_bind_ret | by intros w Hw].
    destruct (find_title 1 (row_values ws 1)) as [title_col_idx|];
      [apply triple_bind_ret | by intros w Hw].
    cbv zeta.
    eapply triple_bind; [by apply triple_safe_update_between | | done | done].
    intros []. simpl. destruct (_ =? 0)%nat.
    - eapply triple_bind; [by apply triple_safe_update_between | | done | done].
      intros [] w Hw. by left.
    - eapply triple_bind_ambient;
        [done | apply ambient_time_time | auto with falls | intros start | auto].
      eapply triple_bind; [apply batches_cancel | | |].
      + intros ws'. simpl.
        eapply triple_bind_ambient;
          [done | apply ambient_time_time | auto with falls | intros finished | auto].
        eapply triple_weaken; [by apply triple_safe_update_between | done |].
        by intros [] w Hw.
      + intros r w Hw. by right.
      + done.
  Qed.

Lemma run_task_failed_cancel e :
    triple (λ w, between task_id (see w)) (run_task_failed task_id e)
      (λ r w, match r with Ret _ => False | _ => between task_id (see w) end).
  Proof.
    unfold run_task_failed.
    eapply triple_bind_ambient;
      [apply between_stable | apply ambient_time_time | auto with falls
      | intros finished | auto].
    eapply triple_weaken; [by apply triple_safe_update_between | done |].
    by intros [] w Hw.
  Qed.

(** *** From the invariants to the claim *)

Lemma unanswered_split newer older :
    unanswered task_id (newer ++ EvSnapshot task_id :: older) →
    requested task_id older = false.
  Proof.
    induction newer as [|e newer IH]; simpl.
    - intros [H _]. apply H. by apply bool_decide_true.
    - intros [_ H]. auto.
  Qed.

Lemma silent_split n o newer older :
    silent task_id n →
    n ++ EvSnapshot task_id :: o = newer ++ EvSnapshot task_id :: older →
    (newer = n ∧ older = o) ∨
    ∃ mid, o = mid ++ EvSnapshot task_id :: older.
  Proof.
    revert newer. induction n as [|e n IH]; intros newer Hsil Heq.
    - destruct newer as [|e' newer]; simpl in Heq.
      + injection Heq as <-. by left.
      + injection Heq as <- ->. right. by exists newer.
    - destruct newer as [|e' newer]; simpl in Heq.
      + injection Heq as -> _. apply Forall_cons in Hsil as [[_ Hs] _].
        simpl in Hs. by rewrite bool_decide_true in Hs.
      + injection Heq as <- Heq. apply Forall_cons in Hsil as [_ Hsil].
        destruct (IH newer Hsil Heq) as [[-> ->]|[mid ->]]; [by left | right; by exists mid].
  Qed.

Lemma between_obeys o : between task_id o → obeys task_id o.
  Proof.
    intros (_ & Hu & Hb & Hn). split_and!; [done | | done].
    intros newer older Heq Hreq. rewrite Heq in Hu.
    apply unanswered_split in Hu. congruence.
  Qed.

Lemma stopped_obeys o : stopped task_id o → obeys task_id o.
  Proof.
    intros (Hc & (n & old & Heq & Hsil & Hu) & Hb & Hn). split_and!; [done | | done].
    intros newer older Heq' Hreq. rewrite Heq in Heq'.
    destruct (silent_split _ _ _ _ Hsil Heq') as [[-> ->]|[mid ->]].
    - split; [done|]. eapply Forall_impl; [exact Hsil|]. by intros e [He _].
    - apply unanswered_split in Hu. congruence.
  Qed.

Lemma inert_passive e : inert task_id e → passive task_id e.
  Proof. by intros [H _]. Qed.

Lemma run_task_cancel file_path :
    triple (λ w, between task_id (see w)) (_run_task file_path task_id)
      (λ _ w, obeys task_id (see w)).
  Proof.
    unfold _run_task.
    assert (Hst : stable (passive task_id) (between task_id)) by apply between_stable.
    eapply triple_bind_ambient;
      [done | apply ambient_time_time | auto with falls | intros started | ].
    2:{ intros e w. apply between_obeys. }
    eapply triple_bind; [by apply triple_safe_update_between | | done | done].
    intros []. simpl.
    eapply triple_weaken with
      (Q' := λ _ w, between task_id (see w) ∨ stopped task_id (see w));
      [| intros w Hw; exact Hw
       | intros _ w [H|H]; [by apply between_obeys | by apply stopped_obeys]].
    apply triple_try_finally.
    - eapply triple_try_except; [apply run_task_body_cancel | | |].
      + intros e. eapply triple_weaken; [apply run_task_failed_cancel | done |].
        intros [] w Hw; [by left | done | by left].
      + intros [] w Hw. by left.
      + intros [] w Hw. exact Hw.
    - intros w [Hw|Hw].
      + left. eapply (between_stable task_id); [|exact Hw].
        eapply evo_mono; [apply inert_passive|].
        apply (ambient_run_task_finally (inert task_id)). by intros [].
      + right. eapply (stopped_stable task_id); [|exact Hw].
        apply (ambient_run_task_finally (inert task_id)). by intros [].
  Qed.

Lemma between_initial w file_path filename :
    TASKS w !! task_id = Some (initial_state file_path filename) →
    trace w = [] →
    between task_id (see w).
  Proof.
    intros HT Htr. unfold between, heeds, trace_ok, see. cbn [fst snd]. rewrite Htr.
    split; [split|].
    - exists (initial_state file_path filename). split; [done|].
      by eapply (dict_truthy_lookup _ "status").
    - done.
    - split; [done|]. split; [done|]. simpl. unfold BATCH. lia.
  Qed.
End cancellation_run.


(** ** Worksheets, and a run that finds no row to translate *)

Lemma max_row_ge_1 ws : (1 ≤ max_row ws)%nat.
Proof. unfold max_row. simpl. lia. Qed.

Lemma max_row_ge ws r : has_row ws r → (r ≤ max_row ws)%nat.
Proof.
  intros [c [v Hv]]. unfold max_row. apply max_list_elem_of_le. right.
  apply list_elem_of_fmap. exists ((r, c), v). split; [done|].
  by apply elem_of_map_to_list.
Qed.

Lemma max_row_attained ws : max_row ws = 1%nat ∨ has_row ws (max_row ws).
Proof.
  unfold max_row.
  set (l := 1%nat :: _). assert (Hin : max_list l ∈ l) by (by apply max_list_elem_of).
  apply elem_of_cons in Hin as [Hin|Hin]; [by left | right].
  apply list_elem_of_fmap in Hin as ([[r c] v] & Heq & Hin).
  apply elem_of_map_to_list in Hin. rewrite Heq. exists c. by exists v.
Qed.

Lemma max_row_ext ws ws' :
  (∀ r, has_row ws' r → has_row ws r ∨ r = 1%nat) →
  (∀ r, has_row ws r → has_row ws' r) →
  max_row ws' = max_row ws.
Proof.
  intros H1 H2. apply Nat.le_antisymm.
  - destruct (max_row_attained ws') as [->|H]; [apply max_row_ge_1|].
    destruct (H1 _ H) as [H'| ->]; [by apply max_row_ge | apply max_row_ge_1].
  - destruct (max_row_attained ws) as [->|H]; [apply max_row_ge_1|].
    by apply max_row_ge, H2.
Qed.

Global Instance shift_col_inj idx : Inj (=) (=) (shift_col idx).
Proof.
  intros [r c] [r' c']. unfold shift_col. simpl.
  destruct (Nat.leb_spec idx c), (Nat.leb_spec idx c'); intros [= -> ?]; f_equal; lia.
Qed.

Lemma has_row_insert_cols idx ws r : has_row (insert_cols idx ws) r ↔ has_row ws r.
Proof.
  unfold has_row, insert_cols. simpl. split.
  - intros [c [v Hv]]. apply lookup_kmap_Some in Hv as ([r' c'] & Heq & Hv); [|apply _].
    exists c'. unfold shift_col in Heq. simpl in Heq.
    destruct (idx <=? c')%nat; injection Heq as -> _; by exists v.
  - intros [c [v Hv]]. exists (shift_col idx (r, c)).2.
    assert ((r, (shift_col idx (r, c)).2) = shift_col idx (r, c)) as ->.
    { unfold shift_col. simpl. by destruct (idx <=? c)%nat. }
    rewrite lookup_kmap; [by exists v | apply _].
Qed.

Lemma has_row_write_cell r0 c0 v ws r :
  has_row (write_cell r0 c0 v ws) r ↔ has_row ws r ∨ r = r0.
Proof.
  unfold has_row, write_cell. simpl. split.
  - intros [c [x Hx]]. destruct (decide ((r0, c0) = (r, c))) as [[= -> ->]|Hne]; [by right|].
    rewrite lookup_insert_ne in Hx by done. left. exists c. by exists x.
  - intros [[c [x Hx]]| ->].
    + exists c. destruct (decide ((r0, c0) = (r, c))) as [->|Hne].
      * rewrite lookup_insert_eq. by eexists.
      * rewrite lookup_insert_ne by done. by exists x.
    + exists c0. rewrite lookup_insert_eq. by eexists.
Qed.

Lemma cell_value_at_insert_cols idx ws r c :
  (c < idx)%nat → cell_value_at (insert_cols idx ws) r c = cell_value_at ws r c.
Proof.
  intros Hc. unfold cell_value_at, insert_cols. simpl.
  assert ((r, c) = shift_col idx (r, c)) as Heq.
  { unfold shift_col. simpl. destruct (Nat.leb_spec idx c); [lia | done]. }
  rewrite Heq at 1. rewrite lookup_kmap; [done | apply _].
Qed.

Lemma cell_value_at_write_cell r0 c0 v ws r c :
  c ≠ c0 → cell_value_at (write_cell r0 c0 v ws) r c = cell_value_at ws r c.
Proof.
  intros Hc. unfold cell_value_at, write_cell. simpl.
  rewrite lookup_insert_ne; [done | congruence].
Qed.

(** Making room for the translations changes neither the Title column nor
    the number of rows. *)
Lemma rows_to_translate_column ws title_col_idx :
  rows_to_translate (with_translation_column ws title_col_idx) title_col_idx
  = rows_to_translate ws title_col_idx.
Proof.
  unfold with_translation_column. destruct (cell_differs _ _); [|done].
  unfold rows_to_translate.
  rewrite (max_row_ext ws).
  - apply list_filter_iff. intros r.
    rewrite cell_value_at_write_cell by lia.
    by rewrite cell_value_at_insert_cols by lia.
  - intros r [H| ->]%has_row_write_cell; [|by right]. left. by apply has_row_insert_cols in H.
  - intros r H. apply has_row_write_cell. left. by apply has_row_insert_cols.
Qed.

Lemma saves_foldr_deliver w l : saves (trace (foldr deliver w l)) = saves (trace w).
Proof. induction l; simpl; auto. Qed.
Lemma saves_ticked w : saves (trace (ticked w)) = saves (trace w).
Proof. apply saves_foldr_deliver. Qed.
#[global] Hint Rewrite saves_ticked saves_foldr_deliver : world.
Lemma saves_cons e tr :
  saves (e :: tr) = match e with EvSave path _ => path :: saves tr | _ => saves tr end.
Proof. by destruct e. Qed.
Ltac saves_simpl :=
  repeat (cbn [trace log set_files set_TASKS updated];
          rewrite ?saves_cons, ?saves_ticked; cbv beta iota).

Lemma time_time_eq {R} w :
  time_time (R:=R) w = (Val (clock (outside w) (steps w)), ticked w).
Proof. unfold time_time, bind, tick, the_world, ret. by rewrite outside_ticked. Qed.

Lemma load_workbook_eq {R} file_path w :
  load_workbook (R:=R) file_path w =
    (match files w !! file_path with
     | Some (XlsxFile wb) => Val wb
     | Some OtherFile => Exc (Exception "InvalidFileException" file_path)
     | None => Exc (Exception "FileNotFoundError" file_path)
     end, ticked w).
Proof.
  unfold load_workbook, bind, tick, the_world. rewrite files_ticked.
  by destruct (files w !! file_path) as [[]|].
Qed.

Lemma run_task_finally_eq file_path task_id w :
  ∃ w', run_task_finally file_path task_id w = (Val tt, w') ∧
        evo (inert task_id) (see w) (see w') ∧ files w' ⊆ files w ∧
        saves (trace w') = saves (trace w).
Proof.
  unfold run_task_finally, bind, try_except, the_world, _schedule_state_cleanup, rmtree,
    tick, emit, ret.
  destruct (isdir (files w) (dirname file_path)).
  - eexists. split; [reflexivity|]. split_and!.
    + unfold see. cbn [TASKS trace log set_files].
      apply evo_log; [|done]. eapply evo_trans; [|apply evo_ticked].
      cbn [TASKS trace log set_files].
      apply evo_log; [apply evo_ticked | done].
    + cbn [files log set_files]. rewrite files_ticked. cbn [files log set_files].
      rewrite files_ticked. apply map_filter_subseteq.
    + by saves_simpl.
  - eexists. split; [reflexivity|]. split_and!.
    + unfold see. cbn [TASKS trace log]. apply evo_log; [apply evo_ticked | done].
    + cbn [files log]. by rewrite files_ticked.
    + by saves_simpl.
Qed.

Lemma record_has_stable task_id (P : record → Prop) ok :
  flag_blind P → stable ok (λ o, record_has task_id P o.1).
Proof.
  intros HP o o' Hevo. induction Hevo as [|o T tr e _ IH He|o T tr tid _ IH]; intros Ho.
  - done.
  - by apply IH.
  - destruct (IH Ho) as (rec & Hrec & Htr & Hrec'). cbn [fst] in *.
    destruct (decide (tid = task_id)) as [->|Hne].
    + unfold request_cancel. rewrite (safe_update_tasks_here _ _ _ _ Hrec Htr).
      eexists. rewrite lookup_insert_eq. split; [done|]. split; [|by apply HP].
      assert (present task_id T) as Hp by (by exists rec).
      apply (present_update task_id {[ "cancel_requested" := VBool true ]}) in Hp
        as (rec' & Hrec'' & Htr').
      rewrite (safe_update_tasks_here _ _ _ _ Hrec Htr), lookup_insert_eq in Hrec''.
      by injection Hrec'' as <-.
    + exists rec. unfold request_cancel. by rewrite safe_update_tasks_other.
Qed.

Lemma record_has_ticked task_id (P : record → Prop) w :
  flag_blind P → record_has task_id P (TASKS w) → record_has task_id P (TASKS (ticked w)).
Proof.
  intros HP H.
  apply (record_has_stable task_id P (λ _, True) HP _ _ (evo_ticked _ w) H).
Qed.

Lemma record_has_updated task_id (P P' : record → Prop) kv w :
  (∀ rec, P rec → P' (kv ∪ rec)) →
  record_has task_id P (TASKS w) → record_has task_id P' (TASKS (updated task_id kv w)).
Proof.
  intros HP (rec & Hrec & Htr & Hrec'). unfold updated. cbn [TASKS log set_TASKS].
  assert (present task_id (TASKS w)) as Hp by (by exists rec).
  apply (present_update task_id kv) in Hp as (rec' & Hrec'' & Htr').
  exists rec'. split; [done|]. split; [done|].
  rewrite (safe_update_tasks_here _ _ _ _ Hrec Htr), lookup_insert_eq in Hrec''.
  injection Hrec'' as <-. by apply HP.
Qed.

Lemma done_nothing_flag_blind : flag_blind done_nothing.
Proof.
  intros rec (H1 & H2 & H3 & H4). unfold done_nothing, status_is.
  by rewrite !lookup_update, H1, H2, H3, H4.
Qed.

Lemma run_task_body_no_rows file_path task_id w ws title_col_idx :
  files w !! file_path = Some (XlsxFile (Workbook (Some ws))) →
  find_title 1 (row_values ws 1) = Some title_col_idx →
  rows_to_translate ws title_col_idx = [] →
  run_task_body file_path task_id w =
    (Ret tt,
     updated task_id
       {[ "status" := VStr (utf8 "done"); "percent" := VInt 100;
          "message" := VStr (utf8 "无需翻译") ]}
       (ticked
          (updated task_id {[ "total" := VInt 0; "current" := VInt 0 ]}
             (ticked (ticked w))))).
Proof.
  intros Hfile Htitle Hrows. unfold run_task_body, bind at 1.
  rewrite load_workbook_eq, Hfile. cbn [active]. unfold bind at 1, ret at 1.
  rewrite Htitle. unfold bind at 1, ret at 1. cbv zeta.
  rewrite rows_to_translate_column, Hrows. cbn [length Nat.eqb Z.of_nat].
  unfold bind at 1. rewrite safe_update_eq. unfold bind at 1. by rewrite safe_update_eq.
Qed.

Lemma files_updated task_id kv w : files (updated task_id kv w) = files w.
Proof. done. Qed.

(** C7. When the sheet has a Title column and no row to translate, the
    worker sets the task to done at 100 percent with its message and
    returns; it never saves the workbook and no file appears. *)
Theorem no_rows_done_without_output w task_id file_path filename ws title_col_idx :
  TASKS w !! task_id = Some (initial_state file_path filename) →
  files w !! file_path = Some (XlsxFile (Workbook (Some ws))) →
  find_title 1 (row_values ws 1) = Some title_col_idx →
  rows_to_translate ws title_col_idx = [] →
  ∃ w', _run_task file_path task_id w = (Ret tt, w') ∧
        record_has task_id done_nothing (TASKS w') ∧
        saves (trace w') = saves (trace w) ∧
        files w' ⊆ files w.
Proof.
  intros HT Hfile Htitle Hrows. unfold _run_task, bind at 1.
  rewrite time_time_eq. unfold bind at 1. rewrite safe_update_eq.
  set (w2 := updated _ _ _).
  assert (Hfile2 : files w2 !! file_path = Some (XlsxFile (Workbook (Some ws)))).
  { unfold w2. by rewrite files_updated, !files_ticked. }
  unfold try_finally, try_except.
  rewrite (run_task_body_no_rows _ _ _ _ _ Hfile2 Htitle Hrows).
  set (w5 := updated _ _ _).
  destruct (run_task_finally_eq file_path task_id w5) as (w' & -> & Hevo & Hfiles & Hsaves).
  exists w'. split; [done|].
  assert (H0 : record_has task_id (λ _, True) (TASKS w)).
  { exists (initial_state file_path filename). split; [done|]. split; [|done].
    by eapply (dict_truthy_lookup _ "status"). }
  assert (Hblind : flag_blind (λ _ : record, True)) by done.
  assert (H5 : record_has task_id done_nothing (TASKS w5)).
  { unfold w5, w2.
    apply (record_has_updated _ (λ rec, rec !! "total" = Some (VInt 0))).
    { intros rec Hrec. unfold done_nothing, status_is. by rewrite !lookup_update, Hrec. }
    apply record_has_ticked.
    { intros rec Hrec. by rewrite lookup_update, Hrec. }
    apply (record_has_updated _ (λ _, True)).
    { intros rec _. by rewrite lookup_update. }
    do 2 (apply record_has_ticked; [done|]).
    apply (record_has_updated _ (λ _, True)); [done|].
    by do 2 (apply record_has_ticked; [done|]). }
  split_and!.
  - apply (record_has_stable task_id done_nothing _ done_nothing_flag_blind _ _ Hevo H5).
  - rewrite Hsaves. unfold w5, w2. by saves_simpl.
  - etrans; [exact Hfiles|]. unfold w5, w2.
    by rewrite files_updated, files_ticked, files_updated, !files_ticked, files_updated,
      !files_ticked.
Qed.


(** ** The registry *)

Lemma union_truthy (kv rec : record) : dict_truthy rec = true → dict_truthy (kv ∪ rec) = true.
Proof.
  intros Htr. apply dict_truthy_nonempty. apply dict_truthy_nonempty in Htr.
  intros Hempty. apply Htr. apply map_eq. intros k. rewrite lookup_empty.
  apply (f_equal (λ m : record, m !! k)) in Hempty.
  rewrite lookup_union, lookup_empty in Hempty.
  by destruct (kv !! k), (rec !! k).
Qed.

(** No record of a registry the program builds is empty, so that the test
    [if st:] of [_safe_update] is the test that the task is there. *)
Lemma reachable_truthy T :
  reachable T → ∀ task_id rec, T !! task_id = Some rec → dict_truthy rec = true.
Proof.
  intros Hreach.
  induction Hreach as [|T tid fp fn _ IH|T tid kv _ IH|T tid _ IH]; intros task_id rec Hrec.
  - by rewrite lookup_empty in Hrec.
  - destruct (decide (tid = task_id)) as [->|Hne].
    + rewrite lookup_insert_eq in Hrec. injection Hrec as <-.
      by eapply (dict_truthy_lookup _ "status").
    + rewrite lookup_insert_ne in Hrec by done. eauto.
  - destruct (decide (tid = task_id)) as [->|Hne].
    + unfold safe_update_tasks in Hrec. destruct (T !! task_id) as [st|] eqn:Hst; [|congruence].
      pose proof (IH _ _ Hst) as Htr. rewrite Htr, lookup_insert_eq in Hrec.
      injection Hrec as <-. by apply union_truthy.
    + rewrite safe_update_tasks_other in Hrec by done. eauto.
  - unfold evict in Hrec. apply lookup_delete_Some in Hrec as [_ Hrec]. eauto.
Qed.

Lemma reachable_foldr_deliver w l :
  reachable (TASKS w) → reachable (TASKS (foldr deliver w l)).
Proof.
  intros H. induction l as [|tid l IH]; [done|]. simpl. by apply reach_update.
Qed.

Lemma reachable_ticked w : reachable (TASKS w) → reachable (TASKS (ticked w)).
Proof. apply reachable_foldr_deliver. Qed.

(** C9. On a registry the program built, [_safe_update] merges the fields
    into the record of the task when the task is there, where a field of
    [kv] replaces the one of the record, and leaves the registry as it is
    when the task is not there; it does not raise.  ([ticked w] is the world
    as the critical section finds it.) *)
Theorem safe_update_merges_or_ignores {R} (w : world) task_id kv :
  reachable (TASKS w) →
  ∃ w', _safe_update (R:=R) task_id kv w = (Val tt, w') ∧
        match TASKS (ticked w) !! task_id with
        | Some st =>
            TASKS w' = <[task_id := kv ∪ st]> (TASKS (ticked w)) ∧
            ∀ key, (kv ∪ st) !! key = first_of (kv !! key) (st !! key)
        | None => TASKS w' = TASKS (ticked w)
        end.
Proof.
  intros Hreach%reachable_ticked. exists (updated task_id kv (ticked w)). split; [done|].
  unfold updated. cbn [TASKS log set_TASKS].
  destruct (TASKS (ticked w) !! task_id) as [st|] eqn:Hst.
  - split; [|intros key; apply lookup_update].
    apply safe_update_tasks_here; [done|]. by eapply reachable_truthy.
  - unfold safe_update_tasks. by rewrite Hst.
Qed.


(** ** Claims, witnesses and the inputs at which claims fail *)

(** C1 (as stated) fails: a run on a sheet without a row to translate ends
    with status done and without [download_filename]. *)
Lemma done_without_download_filename :
  ∃ rec,
    TASKS (_run_task sample_path "t1"
             (sample_world (sample_env translated_reply []) header_only)).2 !! "t1"
      = Some rec ∧
    status_is "done" rec ∧ ¬ has_field "download_filename" rec.
Proof.
  eexists. split; [vm_compute; reflexivity|]. split; [by vm_compute|].
  intros [x Hx]. vm_compute in Hx. discriminate.
Qed.

Lemma download_filename_only_when_done_witness :
  let w := sample_world (sample_env translated_reply []) long_sheet in
  TASKS w !! "t1" = Some (initial_state sample_path sample_name) ∧
  trace w = [] ∧
  ¬ has_field "download_filename" (initial_state sample_path sample_name) ∧
  ∀ r, seen "t1" (_run_task sample_path "t1" w).2 r →
       (has_field "download_filename" r → status_is "done" r) ∧
       (status_is "done" r →
        (has_field "download_filename" r ↔ r !! "total" ≠ Some (VInt 0))).
Proof.
  split; [reflexivity|]. split; [reflexivity|].
  apply (download_filename_only_when_done
           (sample_world (sample_env translated_reply []) long_sheet)
           "t1" sample_path sample_name); reflexivity.
Defined.

(** Where no Title cell from row 2 to the last row is empty, the worker
    selects the rows the specification counts. *)
Lemma rows_to_translate_without_empty_cells ws col :
  (∀ r, (2 ≤ r ≤ max_row ws)%nat → cell_value_at ws r col ≠ CNone) →
  rows_to_translate ws col = spec_rows_to_translate ws col.
Proof.
  intros Hcells. unfold rows_to_translate, spec_rows_to_translate.
  assert (Hall : Forall (λ r, cell_value_at ws r col ≠ CNone) (seq 2 (max_row ws - 1))).
  { apply Forall_forall. intros r Hr. apply Hcells.
    apply elem_of_seq in Hr. lia. }
  induction Hall as [|r l Hr _ IH]; [reflexivity|].
  rewrite !filter_cons, IH.
  destruct (cell_value_at ws r col); [done|reflexivity..].
Qed.

(** C2. The code counts a row whose Title cell is empty: the cell reads
    [None], [str(None)] is the text "None", which is not empty.  On the
    sheet [empty_title] the specification counts no row; the worker sets
    [total] to 1 and sends "None" to the endpoint. *)
Theorem empty_title_cell_is_translated :
  spec_rows_to_translate empty_title 1 = [] ∧
  rows_to_translate empty_title 1 = [2%nat] ∧
  let w' := (_run_task sample_path "t1"
               (sample_world (sample_env translated_reply []) empty_title)).2 in
  (∃ rec, TASKS w' !! "t1" = Some rec ∧ rec !! "total" = Some (VInt 1)) ∧
  translations (trace w') = [(2%nat, utf8 "None")] ∧
  requests (trace w') = [utf8 "None"].
Proof.
  split; [by vm_compute|]. split; [by vm_compute|]. split; [|split; by vm_compute].
  eexists. split; [vm_compute; reflexivity | by vm_compute].
Qed.

(** C3. With an endpoint that answers 500 to every request, the third
    answer is followed by a sleep of 8.5 seconds before the failure text is
    returned (the sleeps are listed newest first). *)
Theorem refused_third_attempt_sleeps :
  let '(r, w') := call (R:=unit) (translate_text (utf8 "hello"))
                    (sample_world (sample_env refused_reply []) header_only) in
  r = Val FAILED ∧ sleeps (trace w') = [17 # 2; 9 # 2; 5 # 2]%Q ∧
  length (requests (trace w')) = 3%nat.
Proof. by vm_compute. Qed.

(** When the transport fails at every attempt, the third failure is not
    followed by a sleep. *)
Example raised_third_attempt_returns_at_once :
  let '(r, w') := call (R:=unit) (translate_text (utf8 "hello"))
                    (sample_world (sample_env (Fails TypeError) []) header_only) in
  r = Val FAILED ∧ sleeps (trace w') = [9 # 2; 5 # 2]%Q ∧
  length (requests (trace w')) = 3%nat.
Proof. by vm_compute. Qed.

(** C5. [translate_text] returns a text whatever the endpoint does; when
    every attempt fails (and the text is one that is sent), it sends three
    requests and returns the failure text. *)
Theorem translate_text_never_raises {R} text w :
  (∃ s, (call (R:=R) (translate_text text) w).1 = Val s) ∧
  (blank text = false →
   (∀ n, failing (net (outside w) n)) →
   ∃ w', call (R:=R) (translate_text text) w = (Val FAILED, w') ∧
         requests (trace w') = replicate 3 (take 5000 text) ++ requests (trace w)).
Proof. split; [apply translate_text_returns | apply translate_text_all_fail]. Qed.

Lemma translate_text_never_raises_witness :
  ∃ w', call (R:=unit) (translate_text (utf8 "hello"))
          (sample_world (sample_env (Fails TypeError) []) header_only)
        = (Val FAILED, w') ∧
        requests (trace w') = replicate 3 (take 5000 (utf8 "hello")) ++ [].
Proof.
  apply (translate_text_never_raises (utf8 "hello")
           (sample_world (sample_env (Fails TypeError) []) header_only));
    [reflexivity | intros n; exact I].
Defined.

(** C6. For a text that is empty or only white space, [translate_text]
    returns the empty text and leaves the world as it is: no request is
    sent. *)
Theorem blank_text_is_not_sent {R} text w :
  blank text = true → call (R:=R) (translate_text text) w = (Val [], w).
Proof. intros H. unfold call. by rewrite translate_text_blank. Qed.

Lemma blank_text_is_not_sent_witness :
  call (R:=unit) (translate_text (utf8 "   "))
    (sample_world (sample_env translated_reply []) header_only)
  = (Val [], sample_world (sample_env translated_reply []) header_only).
Proof. apply blank_text_is_not_sent. reflexivity. Defined.

Lemma no_rows_done_without_output_witness :
  ∃ w', _run_task sample_path "t1"
          (sample_world (sample_env translated_reply []) header_only) = (Ret tt, w') ∧
        record_has "t1" done_nothing (TASKS w') ∧
        saves (trace w') = saves [] ∧
        files w' ⊆ {[ sample_path := XlsxFile (Workbook (Some header_only)) ]}.
Proof.
  apply (no_rows_done_without_output
           (sample_world (sample_env translated_reply []) header_only)
           "t1" sample_path sample_name header_only 1); reflexivity.
Defined.

Lemma progress_is_monotone_witness :
  let w' := (_run_task sample_path "t1"
               (sample_world (sample_env translated_reply [8%nat]) long_sheet)).2 in
  let h := history "t1" (trace w') in
  (∀ r, seen "t1" w' r →
        ∃ p c t, r !! "percent" = Some (VInt p) ∧ r !! "current" = Some (VInt c) ∧
                 r !! "total" = Some (VInt t) ∧ 0 ≤ p ≤ 100 ∧ 0 ≤ c ≤ t) ∧
  (∀ i older newer,
      h !! S i = Some older → h !! i = Some newer →
      num (older !! "percent") ≤ num (newer !! "percent") ∧
      num (older !! "current") ≤ num (newer !! "current")).
Proof.
  apply (progress_is_monotone
           (sample_world (sample_env translated_reply [8%nat]) long_sheet)
           "t1" sample_path sample_name); reflexivity.
Defined.

Lemma safe_update_merges_or_ignores_witness :
  let w := sample_world (sample_env translated_reply []) header_only in
  ∃ w', _safe_update (R:=unit) "t1" {[ "percent" := VInt 40 ]} w = (Val tt, w') ∧
        match TASKS (ticked w) !! "t1" with
        | Some st =>
            TASKS w' = <["t1" := {[ "percent" := VInt 40 ]} ∪ st]> (TASKS (ticked w)) ∧
            ∀ key, ({[ "percent" := VInt 40 ]} ∪ st) !! key
                   = first_of (({[ "percent" := VInt 40 ]} : record) !! key) (st !! key)
        | None => TASKS w' = TASKS (ticked w)
        end.
Proof.
  apply (safe_update_merges_or_ignores
           (sample_world (sample_env translated_reply []) header_only)).
  apply (reach_create ∅ "t1" sample_path sample_name), reach_start.
Defined.

Lemma finished_at_only_on_completion_or_error_witness :
  let w := sample_world (sample_env translated_reply [8%nat]) long_sheet in
  TASKS w !! "t1" = Some (initial_state sample_path sample_name) ∧
  trace w = [] ∧
  ∀ r, seen "t1" (_run_task sample_path "t1" w).2 r →
       (has_field "finished_at" r ↔
        status_is "error" r ∨
        (status_is "done" r ∧ has_field "download_filename" r)) ∧
       (status_is "canceled" r → ¬ has_field "finished_at" r) ∧
       (status_is "done" r → r !! "total" = Some (VInt 0) →
        ¬ has_field "finished_at" r).
Proof.
  split; [reflexivity|]. split; [reflexivity|].
  apply (finished_at_only_on_completion_or_error
           (sample_world (sample_env translated_reply [8%nat]) long_sheet)
           "t1" sample_path sample_name); reflexivity.
Defined.


(** ** Every batch start that is reached is a check *)

Lemma triple_conj {R A} (P1 P2 : world → Prop) (m : M R A)
    (Q1 Q2 : res R A → world → Prop) :
  triple P1 m Q1 → triple P2 m Q2 →
  triple (λ w, P1 w ∧ P2 w) m (λ r w, Q1 r w ∧ Q2 r w).
Proof. intros H1 H2 w [Hw1 Hw2]. split; [by apply H1 | by apply H2]. Qed.

Lemma stable_and ok (I J : obs → Prop) :
  stable ok I → stable ok J → stable ok (λ o, I o ∧ J o).
Proof. intros HI HJ o o' Hevo [H1 H2]. split; [by eapply HI | by eapply HJ]. Qed.

Lemma stable_mono (ok ok' : event → Prop) (I : obs → Prop) :
  (∀ e, ok' e → ok e) → stable ok I → stable ok' I.
Proof. intros Hsub HI o o' Hevo. apply HI. by eapply evo_mono. Qed.

(** An invariant of the trace alone, kept by the events of a class and by
    the arrival of a cancel request, is stable. *)
Lemma stable_pushes (ok : event → Prop) (I : list event → Prop) :
  (∀ e tr, ok e → I tr → I (e :: tr)) →
  (∀ T tr, I tr → I (EvTasks T :: tr)) →
  (∀ tid tr, I tr → I (EvCancel tid :: tr)) →
  stable ok (λ o, I o.2).
Proof.
  intros Hok HT HC o o' Hevo. induction Hevo as [|o T tr e _ IH He|o T tr tid _ IH]; intros Ho.
  - done.
  - simpl. apply Hok; [done|]. by apply IH.
  - simpl. apply HT, HC. by apply IH.
Qed.

(** An update of the record keeps an invariant of the trace. *)
Lemma triple_safe_update_trace {R} ok (I : list event → Prop) task_id kv :
  stable ok (λ o, I o.2) → (∀ T, ok (EvTasks T)) →
  triple (λ w, I (see w).2) (_safe_update (R:=R) task_id kv)
    (λ r w, match r with Val _ => I (see w).2 | _ => False end).
Proof.
  intros Hst Hok w Hw. rewrite safe_update_eq. unfold updated. simpl.
  apply (Hst (see (ticked w)) (TASKS (ticked w), _)).
  - apply evo_log; [apply evo_refl | apply Hok].
  - apply (Hst _ _ (evo_ticked ok w) Hw).
Qed.

(** The pauses of the translation client are not the pause of a batch. *)
Lemma backoff_no_pause attempt : is_pause (EvSleep (backoff attempt)) = false.
Proof. unfold is_pause, backoff. apply andb_false_intro2. reflexivity. Qed.

Lemma ambient_attempt_once_backoff (ok : event → Prop) text attempt :
  (∀ q, ok (EvRequest q)) → ok EvPrint → (∀ a, ok (EvSleep (backoff a))) →
  ambient ok (attempt_once text attempt).
Proof.
  intros Hq Hp Hs. unfold attempt_once.
  apply ambient_try_except; [|intros e; apply ambient_if].
  - apply ambient_bind; [by apply ambient_requests_get|intros r].
    apply ambient_bind; [|intros _; by apply ambient_time_sleep].
    apply ambient_if; [|apply ambient_ret].
    apply ambient_bind; [apply ambient_response_json|intros data].
    apply ambient_bind; [|intros [|]; auto 10 with ambient].
    auto 10 with ambient.
  - apply ambient_bind; [by apply ambient_print | intros; apply ambient_Return].
  - by apply ambient_time_sleep.
Qed.

Lemma ambient_translate_text_backoff (ok : event → Prop) text :
  (∀ q, ok (EvRequest q)) → ok EvPrint → (∀ a, ok (EvSleep (backoff a))) →
  ambient ok (translate_text text).
Proof.
  intros Hq Hp Hs. unfold translate_text. apply ambient_if; [apply ambient_Return|].
  apply ambient_bind; [|intros; apply ambient_Return].
  apply ambient_for. intros. by apply ambient_attempt_once_backoff.
Qed.

Lemma ambient_translate_text_steady text :
  ambient steady (translate_text text).
Proof.
  apply ambient_translate_text_backoff; [done | done |].
  intros a. split; [apply backoff_no_pause | done].
Qed.

Section batch_starts.
Context (task_id : string) (total : nat).

Lemma checked_cons e tr :
    checked task_id (e :: tr) = is_snapshot task_id e || checked task_id tr.
  Proof. done. Qed.

Lemma requested_app newer older :
    requested task_id older = true → requested task_id (newer ++ older) = true.
  Proof. intros H. unfold requested in *. rewrite existsb_app, H. apply orb_true_r. Qed.

Lemma translations_mute e tr :
    is_translate e = false → translations (e :: tr) = translations tr.
  Proof. by destruct e. Qed.

(** A check in [newer] came when no request had arrived. *)
Lemma checked_unrequested newer older :
    unanswered task_id (newer ++ older) → checked task_id newer = true →
    requested task_id older = false.
  Proof.
    intros Hu Hc. unfold checked in Hc. apply existsb_exists in Hc as (e & Hin & He).
    destruct e; try done. simpl in He. apply bool_decide_eq_true in He as ->.
    apply in_split in Hin as (a & b & ->).
    rewrite <- app_assoc in Hu. simpl in Hu. apply unanswered_split in Hu.
    destruct (requested task_id older) eqn:E; [|done].
    by rewrite (requested_app b older E) in Hu.
  Qed.

Lemma not_before_batch e tr :
    checked task_id tr = true → is_pause e = false →
    ¬ before_batch task_id total (e :: tr).
  Proof.
    intros Hc Hp [[H _]|(o & Heq & _)].
    - rewrite checked_cons, Hc, orb_true_r in H. done.
    - injection Heq as -> _. done.
  Qed.

Lemma served_push e tr :
    checked task_id tr = true → is_pause e = false →
    served task_id total tr → served task_id total (e :: tr).
  Proof.
    intros Hc Hp Hs [|e' newer] older Heq Hb; simpl in Heq.
    - subst older. by destruct (not_before_batch e tr).
    - injection Heq as <- ->. rewrite checked_cons, (Hs newer older eq_refl Hb).
      apply orb_true_r.
  Qed.

Lemma settled_push e tr :
    checked task_id tr = true → hushed e →
    settled task_id total tr → settled task_id total (e :: tr).
  Proof.
    intros Hc [Hp He] Hs [|e' newer] older Heq Hb; simpl in Heq.
    - subst older. by destruct (not_before_batch e tr).
    - injection Heq as <- ->. destruct (Hs newer older eq_refl Hb) as [H1 H2].
      split; [rewrite checked_cons, H1; apply orb_true_r|].
      intros Hreq. constructor; [done | by apply H2].
  Qed.

Lemma pending_push e tr :
    calm task_id e → pending task_id total tr → pending task_id total (e :: tr).
  Proof.
    intros [He Hs] Hp [|e' newer] older Heq Hb; simpl in Heq.
    - right. constructor.
    - injection Heq as <- ->. destruct (Hp newer older eq_refl Hb) as [H|H].
      + left. rewrite checked_cons, H. apply orb_true_r.
      + right. by constructor.
  Qed.

Lemma pending_nil : pending task_id total [].
  Proof.
    intros newer older Heq _. symmetry in Heq. apply app_eq_nil in Heq as [-> _].
    right. constructor.
  Qed.

(** The check of a waiting run. *)
Lemma pending_checked tr :
    pending task_id total tr → served task_id total (EvSnapshot task_id :: tr).
  Proof.
    intros Hp [|e' newer] older Heq Hb; simpl in Heq.
    - subst older. destruct Hb as [[H _]|(o & Heq & _)]; [|done].
      rewrite checked_cons in H. simpl in H. by rewrite bool_decide_true in H.
    - injection Heq as <- ->. rewrite checked_cons. simpl. by rewrite bool_decide_true.
  Qed.

Lemma pending_settled tr :
    pending task_id total tr → unanswered task_id tr →
    settled task_id total (EvSnapshot task_id :: tr).
  Proof.
    intros Hp Hu [|e' newer] older Heq Hb; simpl in Heq.
    - subst older. destruct Hb as [[H _]|(o & Heq & _)]; [|done].
      rewrite checked_cons in H. simpl in H. by rewrite bool_decide_true in H.
    - injection Heq as <- ->. split.
      { rewrite checked_cons. simpl. by rewrite bool_decide_true. }
      intros Hreq. destruct (Hp newer older eq_refl Hb) as [Hc|Hs].
      + by rewrite (checked_unrequested newer older Hu Hc) in Hreq.
      + constructor; [done|]. eapply Forall_impl; [exact Hs|]. by intros e [He _].
  Qed.

(** The pause that ends a batch, with rows left and without. *)
Lemma served_pause tr :
    served task_id total tr → pending task_id total (EvSleep 2 :: tr).
  Proof.
    intros Hs [|e' newer] older Heq Hb; simpl in Heq.
    - right. constructor.
    - injection Heq as <- ->. left. rewrite checked_cons, (Hs newer older eq_refl Hb).
      apply orb_true_r.
  Qed.

Lemma served_last_pause tr :
    checked task_id tr = true → (total ≤ length (translations tr))%nat →
    served task_id total tr → served task_id total (EvSleep 2 :: tr).
  Proof.
    intros Hc Hn Hs [|e' newer] older Heq Hb; simpl in Heq.
    - subst older. destruct Hb as [[H _]|(o & Heq & Hlt)].
      + rewrite checked_cons, Hc, orb_true_r in H. done.
      + injection Heq as <-. lia.
    - injection Heq as <- ->. rewrite checked_cons, (Hs newer older eq_refl Hb).
      apply orb_true_r.
  Qed.

(** *** The invariants are stable *)

Lemma waiting_stable c : stable (calm task_id) (waiting task_id total c).
  Proof.
    apply (stable_pushes _ (λ tr, pending task_id total tr ∧ length (translations tr) = c)).
    - intros e tr He [Hp Hn]. split; [by apply pending_push|].
      rewrite translations_mute; [done|]. destruct He as [He _]. by destruct e.
    - intros T tr [Hp Hn]. split; [by apply pending_push | done].
    - intros tid tr [Hp Hn]. split; [by apply pending_push | done].
  Qed.

Lemma working_stable c : stable steady (working task_id total c).
  Proof.
    apply (stable_pushes _ (λ tr, checked task_id tr = true ∧ served task_id total tr ∧
                                  length (translations tr) = c)).
    - intros e tr [Hp Ht] (Hc & Hs & Hn). split_and!.
      + rewrite checked_cons, Hc. apply orb_true_r.
      + by apply served_push.
      + by rewrite translations_mute.
    - intros T tr (Hc & Hs & Hn). split_and!; [done | by apply served_push | done].
    - intros tid tr (Hc & Hs & Hn). split_and!; [done | by apply served_push | done].
  Qed.

Lemma through_stable : stable (λ e, is_pause e = false) (through task_id total).
  Proof.
    apply (stable_pushes _ (λ tr, checked task_id tr = true ∧ served task_id total tr)).
    - intros e tr Hp (Hc & Hs). split.
      + rewrite checked_cons, Hc. apply orb_true_r.
      + by apply served_push.
    - intros T tr (Hc & Hs). split; [done | by apply served_push].
    - intros tid tr (Hc & Hs). split; [done | by apply served_push].
  Qed.

Lemma halted_stable : stable hushed (halted task_id total).
  Proof.
    apply (stable_pushes _ (λ tr, checked task_id tr = true ∧ settled task_id total tr)).
    - intros e tr Hp (Hc & Hs). split.
      + rewrite checked_cons, Hc. apply orb_true_r.
      + by apply settled_push.
    - intros T tr (Hc & Hs). split; [done | by apply settled_push].
    - intros tid tr (Hc & Hs). split; [done | by apply settled_push].
  Qed.

Lemma working_through c o : working task_id total c o → through task_id total o.
  Proof. by intros (Hc & Hs & _). Qed.

(** *** From the invariants to the claim *)

Lemma through_answers o :
    between task_id o → through task_id total o → answers task_id total o.
  Proof.
    intros (_ & Hu & _) [_ Hs] newer older Heq Hb. split; [by eapply Hs|].
    intros Hreq. rewrite Heq in Hu.
    by rewrite (checked_unrequested newer older Hu (Hs newer older Heq Hb)) in Hreq.
  Qed.

Lemma halted_answers o :
    stopped task_id o → halted task_id total o → answers task_id total o.
  Proof.
    intros (Hc & _) [_ Hs] newer older Heq Hb.
    destruct (Hs newer older Heq Hb) as [H1 H2]. split; [done|]. intros Hreq. split; auto.
  Qed.

(** *** The run *)

Section rows.
Context (title_col_idx insert_idx rows_total : nat) (start : Q) (batch_start : nat).

Lemma translate_row_live c item ws :
      triple (λ w, working task_id total c (see w))
        (translate_row task_id title_col_idx insert_idx rows_total start batch_start item ws)
        (λ r w, match r with
                | Val _ => working task_id total (S c) (see w)
                | Ret _ => False
                | Exc _ => through task_id total (see w)
                end).
    Proof.
      unfold translate_row. destruct item as [done_in_batch row].
      assert (Hst : stable steady (working task_id total (S c))) by apply working_stable.
      eapply triple_bind with
        (Q1 := λ r w, match r with
                      | Val _ => working task_id total (S c) (see w)
                      | _ => False
                      end).
      - intros w (Hc & Hs & Hn). unfold emit, working. obs_simpl.
        split_and!; [done | by apply served_push | by rewrite <- Hn].
      - intros _.
        eapply triple_bind_ambient;
          [done | apply ambient_call, ambient_translate_text_steady
          | auto with falls | intros translated | intros e w; apply working_through].
        eapply triple_bind_ambient;
          [done | apply ambient_lift | auto with falls | intros ws'
          | intros e w; apply working_through].
        eapply triple_bind_ambient;
          [done | apply ambient_time_time | auto with falls | intros now
          | intros e w; apply working_through].
        eapply triple_bind_ambient;
          [done | apply ambient_lift | auto with falls | intros eta
          | intros e w; apply working_through].
        eapply triple_bind_ambient;
          [done | apply ambient_lift | auto with falls | intros percent
          | intros e w; apply working_through].
        eapply triple_bind;
          [apply (triple_safe_update_trace steady
                    (λ tr, checked task_id tr = true ∧ served task_id total tr ∧
                           length (translations tr) = S c)); [exact Hst | done] | | |].
        + intros [] w Hw. exact Hw.
        + done.
        + done.
      - done.
      - done.
    Qed.

Lemma batch_rows_live l k c ws :
      triple (λ w, working task_id total c (see w))
        (for_with (enumerate k l) ws
           (translate_row task_id title_col_idx insert_idx rows_total start batch_start))
        (λ r w, match r with
                | Val _ => working task_id total (c + length l) (see w)
                | Ret _ => False
                | Exc _ => through task_id total (see w)
                end).
    Proof.
      revert k c ws. induction l as [|row l IH]; intros k c ws.
      - simpl. intros w Hw. simpl. by rewrite Nat.add_0_r.
      - simpl. eapply triple_bind.
        + apply (translate_row_live c (k, row) ws).
        + intros ws'. simpl. eapply triple_weaken; [apply (IH (S k) (S c) ws') | done |].
          intros [] w Hw; [|done|done]. simpl in *.
          by replace (c + S (length l))%nat with (S c + length l)%nat by lia.
        + done.
        + done.
    Qed.
End rows.

Lemma run_batch_live title_col_idx insert_idx rows_to_tr start output_path
      batch_start ws :
    triple (λ w, between task_id (see w) ∧ waiting task_id total batch_start (see w))
      (run_batch task_id title_col_idx insert_idx rows_to_tr start output_path
         batch_start ws)
      (λ r w, match r with
              | Val _ => at_batch_start task_id total
                           (batch_start + length (take BATCH (drop batch_start rows_to_tr)))
                           (see w)
              | Ret _ => halted task_id total (see w)
              | Exc _ => through task_id total (see w)
              end).
  Proof.
    unfold run_batch.
    eapply triple_bind with
      (Q1 := λ r w, match r with
                    | Val st =>
                        if truthy (dict_get st "cancel_requested")
                        then halted task_id total (see w)
                        else working task_id total batch_start (see w)
                    | _ => False
                    end).
    - intros w [Hb Hw]. rewrite get_state_eq. cbn [fst snd].
      destruct (between_stable task_id _ _ (evo_ticked (passive task_id) w) Hb)
        as (_ & Hu & _).
      destruct (waiting_stable batch_start _ _ (evo_ticked (calm task_id) w) Hw)
        as [Hp Hn].
      assert (Hchecked : checked task_id (EvSnapshot task_id :: trace (ticked w)) = true).
      { rewrite checked_cons. simpl. by rewrite bool_decide_true. }
      destruct (truthy (dict_get _ "cancel_requested")).
      + unfold halted. obs_simpl. split; [done | by apply pending_settled].
      + unfold working. obs_simpl. split_and!; [done | by apply pending_checked | done].
    - intros st. destruct (truthy (dict_get st "cancel_requested")).
      + eapply triple_bind;
          [apply (triple_safe_update_trace hushed
                    (λ tr, checked task_id tr = true ∧ settled task_id total tr));
             [apply halted_stable | done] | | |].
        * intros [] w Hw. exact Hw.
        * done.
        * done.
      + set (c := (batch_start + length (take BATCH (drop batch_start rows_to_tr)))%nat).
        eapply triple_bind; [apply (batch_rows_live _ _ _ _ _ _ 1%nat batch_start) | | |].
        * intros ws'. simpl. fold c.
          assert (Hst : stable steady (working task_id total c)) by apply working_stable.
          eapply triple_bind_ambient;
            [done | by apply ambient_save | auto with falls | intros _
            | intros e w; apply working_through].
          intros w Hw. unfold bind. rewrite time_sleep_eq. cbn [fst snd ret].
          destruct (Hst _ _ (evo_ticked steady w) Hw) as (Hc & Hs & Hn).
          unfold at_batch_start, waiting, through. obs_simpl.
          destruct (c <? total)%nat eqn:E.
          -- split; [by apply served_pause | done].
          -- apply Nat.ltb_ge in E. split.
             ++ by rewrite checked_cons, Hc, orb_true_r.
             ++ apply served_last_pause; [done | lia | done].
        * done.
        * done.
    - done.
    - done.
  Qed.

Lemma batches_live title_col_idx insert_idx rows_to_tr start output_path n k ws :
    total = length rows_to_tr →
    (∀ i, (k ≤ i < k + n)%nat → (i * BATCH < total)%nat) →
    (total ≤ (k + n) * BATCH)%nat →
    triple (λ w, between task_id (see w) ∧
                 at_batch_start task_id total (Nat.min (k * BATCH) total) (see w))
      (for_with ((λ i, 0 + i * BATCH)%nat <$> seq k n) ws
         (run_batch task_id title_col_idx insert_idx rows_to_tr start output_path))
      (λ r w, match r with
              | Ret _ => stopped task_id (see w) ∧ halted task_id total (see w)
              | _ => between task_id (see w) ∧ through task_id total (see w)
              end).
  Proof.
    intros Htotal. revert k ws. induction n as [|n IH]; intros k ws Hin Hend.
    - simpl. intros w [Hb Hw]. simpl. split; [done|].
      unfold at_batch_start in Hw.
      replace (Nat.min (k * BATCH) total) with total in Hw by lia.
      by rewrite Nat.ltb_irrefl in Hw.
    - simpl.
      assert (Hk : (k * BATCH < total)%nat) by (apply Hin; lia).
      eapply triple_bind.
      + eapply triple_weaken;
          [apply (triple_conj _ _ _ _ _
                    (run_batch_cancel task_id title_col_idx insert_idx rows_to_tr start
                       output_path (k * BATCH)%nat ws)
                    (run_batch_live title_col_idx insert_idx rows_to_tr start
                       output_path (k * BATCH)%nat ws)) | |].
        * intros w [Hb Hw]. split; [done|]. split; [done|].
          unfold at_batch_start in Hw.
          replace (Nat.min (k * BATCH) total) with (k * BATCH)%nat in Hw by lia.
          apply Nat.ltb_lt in Hk. by rewrite Hk in Hw.
        * intros r w Hw. exact Hw.
      + intros ws'. simpl. eapply triple_weaken; [apply (IH (S k) ws') | | done].
        * intros i Hi. apply Hin. lia.
        * lia.
        * intros w [Hb Hw]. split; [done|].
          rewrite length_take, length_drop, <- Htotal in Hw.
          by replace (Nat.min (S k * BATCH) total)
            with (k * BATCH + Nat.min BATCH (total - k * BATCH))%nat by (unfold BATCH in *; lia).
      + intros r w [Hb Hw]. done.
      + intros e w [Hb Hw]. done.
  Qed.
End batch_starts.

Lemma triple_time_time {R} ok (I : obs → Prop) :
  stable ok I →
  triple (λ w, I (see w)) (time_time (R:=R))
    (λ r w, match r with Val _ => I (see w) | _ => False end).
Proof. intros Hst w Hw. rewrite time_time_eq. simpl. by apply (Hst _ _ (evo_ticked ok w)). Qed.

Lemma triple_bind_load_workbook {R B} ok (I : obs → Prop) file_path wb
    (f : workbook → M R B) (Q : res R B → world → Prop) :
  stable ok I →
  triple (λ w, I (see w)) (f wb) Q →
  triple (λ w, files w !! file_path = Some (XlsxFile wb) ∧ I (see w))
    (bind (load_workbook file_path) f) Q.
Proof.
  intros Hst Hf w [Hfile HI]. unfold bind. rewrite load_workbook_eq, Hfile.
  apply Hf. by apply (Hst _ _ (evo_ticked ok w)).
Qed.

Lemma range_inside total i :
  (i < (total - 0 + BATCH - 1) / BATCH)%nat → (i * BATCH < total)%nat.
Proof.
  unfold BATCH. intros Hi.
  pose proof (Nat.Div0.mul_div_le (total - 0 + 10 - 1) 10). lia.
Qed.

Lemma range_ends total :
  (total ≤ (0 + (total - 0 + BATCH - 1) / BATCH) * BATCH)%nat.
Proof.
  unfold BATCH.
  pose proof (Nat.div_mod_eq (total - 0 + 10 - 1) 10).
  pose proof (Nat.mod_upper_bound (total - 0 + 10 - 1) 10). lia.
Qed.

Section batch_starts_run.
Context (task_id : string) (total : nat).

(** The run before its first check, and after its last batch. *)
Local Abbreviation setting_out :=
    (λ o : obs, between task_id o ∧ waiting task_id total 0 o).
Local Abbreviation winding_up :=
    (λ o : obs, between task_id o ∧ through task_id total o).

Lemma setting_out_stable :
    stable (λ e, passive task_id e ∧ calm task_id e) setting_out.
  Proof.
    apply stable_and.
    - eapply stable_mono; [|apply between_stable]. by intros e [H _].
    - eapply stable_mono; [|apply waiting_stable]. by intros e [_ H].
  Qed.

Lemma winding_up_stable :
    stable (λ e, passive task_id e ∧ is_pause e = false) winding_up.
  Proof.
    apply stable_and.
    - eapply stable_mono; [|apply between_stable]. by intros e [H _].
    - eapply stable_mono; [|apply through_stable]. by intros e [_ H].
  Qed.

Lemma triple_safe_update_setting_out {R} kv :
    kv !! "cancel_requested" = None →
    triple (λ w, setting_out (see w)) (_safe_update (R:=R) task_id kv)
      (λ r w, match r with Val _ => setting_out (see w) | _ => False end).
  Proof.
    intros Hkv. eapply triple_weaken;
      [apply (triple_conj _ _ _ _ _
                (triple_safe_update_between task_id kv Hkv)
                (triple_safe_update_trace (calm task_id)
                   (λ tr, pending task_id total tr ∧ length (translations tr) = 0%nat)
                   task_id kv (waiting_stable task_id total 0%nat) (λ _, conj eq_refl eq_refl)))
      | done |].
    by intros [] w [H1 H2].
  Qed.

Lemma triple_safe_update_winding_up {R} kv :
    kv !! "cancel_requested" = None →
    triple (λ w, winding_up (see w)) (_safe_update (R:=R) task_id kv)
      (λ r w, match r with Val _ => winding_up (see w) | _ => False end).
  Proof.
    intros Hkv. eapply triple_weaken;
      [apply (triple_conj _ _ _ _ _
                (triple_safe_update_between task_id kv Hkv)
                (triple_safe_update_trace (λ e, is_pause e = false)
                   (λ tr, checked task_id tr = true ∧ served task_id total tr)
                   task_id kv (through_stable task_id total) (λ _, eq_refl)))
      | done |].
    by intros [] w [H1 H2].
  Qed.

Lemma run_task_body_live file_path ws title_col_idx :
    find_title 1 (row_values ws 1) = Some title_col_idx →
    total = length (rows_to_translate ws title_col_idx) →
    (0 < total)%nat →
    triple (λ w, files w !! file_path = Some (XlsxFile (Workbook (Some ws))) ∧
                 setting_out (see w))
      (run_task_body file_path task_id)
      (λ r w, match r with
              | Ret _ => stopped task_id (see w) ∧ halted task_id total (see w)
              | _ => winding_up (see w)
              end).
  Proof.
    intros Htitle Htotal Hpos. unfold run_task_body.
    eapply (triple_bind_load_workbook _ setting_out); [apply setting_out_stable|].
    cbn [active]. apply triple_bind_ret. rewrite Htitle. apply triple_bind_ret.
    cbv zeta. rewrite rows_to_translate_column, <- Htotal.
    eapply triple_bind; [by apply triple_safe_update_setting_out | | done | done].
    intros []. simpl. destruct (total =? 0)%nat eqn:E; [apply Nat.eqb_eq in E; lia|].
    eapply triple_bind; [apply (triple_time_time _ _ setting_out_stable) | | done | done].
    intros start. simpl. unfold py_range.
    eapply triple_bind.
    - eapply triple_weaken; [apply (batches_live task_id total) | | intros r w Hw; exact Hw].
      + exact Htotal.
      + intros i Hi. apply range_inside. lia.
      + apply range_ends.
      + intros w [Hb Hw]. split; [done|]. unfold at_batch_start.
        replace (Nat.min (0 * BATCH) total) with 0%nat by lia.
        apply Nat.ltb_lt in Hpos. by rewrite Hpos.
    - intros ws'. simpl.
      eapply (triple_bind_ambient _ winding_up);
        [apply winding_up_stable | apply ambient_time_time | auto with falls
        | intros finished | done].
      eapply triple_weaken; [by apply triple_safe_update_winding_up | done |].
      by intros [] w Hw.
    - done.
    - done.
  Qed.

Lemma run_task_failed_live e :
    triple (λ w, winding_up (see w)) (run_task_failed task_id e)
      (λ r w, match r with Ret _ => False | _ => winding_up (see w) end).
  Proof.
    unfold run_task_failed.
    eapply (triple_bind_ambient _ winding_up);
      [apply winding_up_stable | apply ambient_time_time | auto with falls
      | intros finished | done].
    eapply triple_weaken; [by apply triple_safe_update_winding_up | done |].
    by intros [] w Hw.
  Qed.

(** A run on a workbook with a Title column and rows to translate makes a
      check at every batch start that it reaches, and a cancel request that
      arrived before one ends it there. *)
Lemma run_task_live w file_path filename ws title_col_idx :
    TASKS w !! task_id = Some (initial_state file_path filename) →
    trace w = [] →
    files w !! file_path = Some (XlsxFile (Workbook (Some ws))) →
    find_title 1 (row_values ws 1) = Some title_col_idx →
    total = length (rows_to_translate ws title_col_idx) →
    answers task_id total (see (_run_task file_path task_id w).2).
  Proof.
    intros HT Htr Hfile Htitle Htotal.
    destruct (decide (total = 0%nat)) as [Hz|Hpos].
    { intros newer older _ [[_ H]|(o & _ & H)]; lia. }
    assert (H0 : setting_out (see w)).
    { split; [by apply (between_initial task_id w file_path filename)|].
      unfold waiting, see. cbn [snd]. rewrite Htr. split; [apply pending_nil | done]. }
    unfold _run_task, bind at 1. rewrite time_time_eq. unfold bind at 1.
    pose proof (setting_out_stable _ _ (evo_ticked _ w) H0) as H1.
    assert (Hkv : ({[ "status" := VStr (utf8 "running");
                      "message" := VStr (utf8 "读取文件...");
                      "percent" := VInt 0;
                      "started_at" := VFloat (clock (outside w) (steps w)) ]} : record)
                  !! "cancel_requested" = None) by done.
    pose proof (triple_safe_update_setting_out (R:=unit) _ Hkv (ticked w) H1) as H2.
    rewrite safe_update_eq in *. cbn [fst snd] in H2.
    set (w2 := updated _ _ _) in *.
    assert (Hfile2 : files w2 !! file_path = Some (XlsxFile (Workbook (Some ws)))).
    { unfold w2. by rewrite files_updated, !files_ticked. }
    assert (Hrun : triple
              (λ w, files w !! file_path = Some (XlsxFile (Workbook (Some ws))) ∧
                    setting_out (see w))
              (try_finally
                 (try_except (run_task_body file_path task_id) (run_task_failed task_id))
                 (run_task_finally file_path task_id))
              (λ _ w, winding_up (see w) ∨
                      (stopped task_id (see w) ∧ halted task_id total (see w)))).
    { apply triple_try_finally.
      - eapply triple_try_except;
          [apply (run_task_body_live file_path ws title_col_idx); [done | done | lia] | | |].
        + intros e. eapply triple_weaken; [apply run_task_failed_live | done |].
          intros [] w' Hw'; [by left | done | by left].
        + intros [] w' Hw'. by left.
        + intros [] w' Hw'. by right.
      - intros w' [Hw'|[Hs Hh]].
        + left. eapply winding_up_stable; [|exact Hw'].
          apply (ambient_run_task_finally
                   (λ e, passive task_id e ∧ is_pause e = false)). by intros [].
        + right. split.
          * eapply (stopped_stable task_id); [|exact Hs].
            apply (ambient_run_task_finally (inert task_id)). by intros [].
          * eapply (halted_stable task_id total); [|exact Hh].
            apply (ambient_run_task_finally hushed). by intros []. }
    destruct (Hrun w2 (conj Hfile2 H2)) as [[Hb Ht]|[Hs Hh]].
    - by apply through_answers.
    - by apply halted_answers.
  Qed.
End batch_starts_run.


(** ** The claim on cancellation *)


(** C4. Every translation comes after a check of the flag with fewer than
    [BATCH] translations in between; a check that comes after a cancel
    request leaves the task canceled, and after it no row is translated, the
    endpoint is not called and the workbook is not saved; at most [BATCH]
    translations begin after the first cancel request.  The checks are
    made: on a workbook with a Title column, every batch start that the run
    reaches (the first one when there are rows to translate, the next one
    each time a batch was saved, the pause after it is over and rows remain)
    is followed by a check of the flag, and a cancel request that arrived
    before that batch start ends the run canceled, with no row translated,
    no call of the endpoint and no save after the batch start. *)
Theorem cancel_is_checked_before_each_batch w task_id file_path filename :
  TASKS w !! task_id = Some (initial_state file_path filename) →
  trace w = [] →
  let w' := (_run_task file_path task_id w).2 in
  batched task_id (trace w') ∧
  (∀ newer older,
      trace w' = newer ++ EvSnapshot task_id :: older →
      requested task_id older = true →
      canceled task_id (TASKS w') ∧ quiet newer) ∧
  (translated_since_request task_id (trace w') ≤ BATCH)%nat ∧
  (∀ ws title_col_idx,
      files w !! file_path = Some (XlsxFile (Workbook (Some ws))) →
      find_title 1 (row_values ws 1) = Some title_col_idx →
      ∀ newer older,
        trace w' = newer ++ older →
        before_batch task_id (length (rows_to_translate ws title_col_idx)) older →
        checked task_id newer = true ∧
        (requested task_id older = true → canceled task_id (TASKS w') ∧ quiet newer)).
Proof.
  intros HT Htr.
  destruct (run_task_cancel task_id file_path w
              (between_initial task_id w file_path filename HT Htr)) as (H1 & H2 & H3).
  split_and!; [exact H1 | exact H2 | exact H3 |].
  intros ws title_col_idx Hfile Htitle.
  by apply (run_task_live task_id _ w file_path filename ws title_col_idx).
Qed.

Lemma cancel_is_checked_before_each_batch_witness :
  let w := sample_world (sample_env translated_reply [8%nat]) long_sheet in
  let w' := (_run_task sample_path "t1" w).2 in
  batched "t1" (trace w') ∧
  (∀ newer older,
      trace w' = newer ++ EvSnapshot "t1" :: older →
      requested "t1" older = true →
      canceled "t1" (TASKS w') ∧ quiet newer) ∧
  (translated_since_request "t1" (trace w') ≤ BATCH)%nat ∧
  (∀ ws title_col_idx,
      files w !! sample_path = Some (XlsxFile (Workbook (Some ws))) →
      find_title 1 (row_values ws 1) = Some title_col_idx →
      ∀ newer older,
        trace w' = newer ++ older →
        before_batch "t1" (length (rows_to_translate ws title_col_idx)) older →
        checked "t1" newer = true ∧
        (requested "t1" older = true → canceled "t1" (TASKS w') ∧ quiet newer)).
Proof.
  apply (cancel_is_checked_before_each_batch
           (sample_world (sample_env translated_reply [8%nat]) long_sheet)
           "t1" sample_path sample_name); reflexivity.
Defined.

(** The sample run is canceled at the second check, after 10 rows, 9 of
    them translated after the request. *)
Example canceled_sample_run :
  let w' := (_run_task sample_path "t1"
               (sample_world (sample_env translated_reply [8%nat]) long_sheet)).2 in
  length (translations (trace w')) = 10%nat ∧
  translated_since_request "t1" (trace w') = 9%nat ∧
  ∃ rec, TASKS w' !! "t1" = Some rec ∧ status_is "canceled" rec.
Proof.
  split; [by vm_compute|]. split; [by vm_compute|].
  eexists. split; [vm_compute; reflexivity | by vm_compute].
Qed.

(** In that run the request arrives in the first batch: the second batch
    start is reached with 10 of the 25 rows translated, and after it come
    the check, the update to canceled and the clean-up only. *)
Example canceled_sample_run_second_batch :
  let w' := (_run_task sample_path "t1"
               (sample_world (sample_env translated_reply [8%nat]) long_sheet)).2 in
  ∃ newer older,
    trace w' = newer ++ EvSleep 2 :: older ∧
    before_batch "t1" (length (rows_to_translate long_sheet 1)) (EvSleep 2 :: older) ∧
    requested "t1" older = true ∧
    length newer = 4%nat.
Proof.
  cbv zeta.
  set (tr := trace _).
  exists (take 4 tr), (drop 5 tr). split_and!.
  - by vm_compute.
  - right. exists (drop 5 tr). split; [done|]. vm_compute. lia.
  - by vm_compute.
  - by vm_compute.
Qed.


(** * More properties of the code *)


(** ** The header search *)

Lemma find_title_from idx0 row :
  match find_title idx0 row with
  | Some idx =>
      (idx0 ≤ idx < idx0 + length row)%nat ∧
      (∃ v, row !! (idx - idx0)%nat = Some v ∧ reads_title v = true) ∧
      ∀ j v, (j < idx - idx0)%nat → row !! j = Some v → reads_title v = false
  | None => ∀ v, v ∈ row → reads_title v = false
  end.
Proof.
  revert idx0. induction row as [|v row IH]; intros idx0; simpl.
  - intros v Hv. by apply elem_of_nil in Hv.
  - fold (reads_title v). destruct (reads_title v) eqn:Hv.
    + split; [lia|]. rewrite Nat.sub_diag. split; [by exists v|]. intros j v' Hj. lia.
    + specialize (IH (S idx0)). destruct (find_title (S idx0) row) as [idx|].
      * destruct IH as (Hidx & (x & Hx & Hxt) & Hbefore).
        split; [lia|]. split.
        -- exists x. split; [|done].
           replace (idx - idx0)%nat with (S (idx - S idx0)) by lia. done.
        -- intros j v' Hj Hj'. destruct j as [|j]; simpl in Hj'.
           ++ by injection Hj' as <-.
           ++ apply (Hbefore j); [lia | done].
      * intros v' [->|Hin]%elem_of_cons; [done | by apply IH].
Qed.

(** X1. The header search returns the number (from 1) of the first cell
    of the row that reads "title"; it returns nothing exactly when no cell
    does. *)
Theorem find_title_first_match (row : list cell_value) :
  match find_title 1 row with
  | Some idx =>
      (1 ≤ idx ≤ length row)%nat ∧
      (∃ v, row !! (idx - 1)%nat = Some v ∧ reads_title v = true) ∧
      ∀ j v, (j < idx - 1)%nat → row !! j = Some v → reads_title v = false
  | None => ∀ v, v ∈ row → reads_title v = false
  end.
Proof.
  pose proof (find_title_from 1 row) as H.
  destruct (find_title 1 row); [|done].
  destruct H as (H1 & H2 & H3). split; [lia | done].
Qed.

(** ** The batches *)

Lemma chunks_concat (B : nat) (rows : list nat) k :
  (0 < B)%nat → (length rows ≤ k * B)%nat →
  concat ((λ i, take B (drop (i * B) rows)) <$> seq 0 k) = rows.
Proof.
  intros HB. revert rows. induction k as [|k IH]; intros rows Hlen.
  - simpl in *. destruct rows; [done | simpl in Hlen; lia].
  - rewrite <- cons_seq, <- fmap_S_seq. simpl. rewrite drop_0.
    rewrite <- list_fmap_compose.
    trans (take B rows ++ drop B rows); [|apply take_drop]. f_equal.
    etrans; [|apply (IH (drop B rows)); rewrite length_drop; lia].
    f_equal. apply list_fmap_ext. intros _ i _. simpl.
    by rewrite drop_drop.
Qed.

Lemma py_range_covers total :
  (total ≤ ((total - 0 + BATCH - 1) / BATCH) * BATCH)%nat.
Proof.
  unfold BATCH.
  pose proof (Nat.div_mod_eq (total - 0 + 10 - 1) 10).
  pose proof (Nat.mod_upper_bound (total - 0 + 10 - 1) 10). lia.
Qed.

(** X2. The batches cut the rows to translate into consecutive pieces:
    put one after the other they give the rows back, and every batch has at
    least one row and at most [BATCH]. *)
Theorem batches_partition_rows (rows_to_tr : list nat) :
  let starts := py_range 0 (length rows_to_tr) BATCH in
  concat (batch_rows_at rows_to_tr <$> starts) = rows_to_tr ∧
  Forall (λ b, (1 ≤ length (batch_rows_at rows_to_tr b) ≤ BATCH)%nat) starts.
Proof.
  unfold py_range, batch_rows_at. split.
  - rewrite <- list_fmap_compose.
    etrans; [|apply (chunks_concat BATCH rows_to_tr
                       ((length rows_to_tr - 0 + BATCH - 1) / BATCH));
              [unfold BATCH; lia | apply py_range_covers]].
    done.
  - apply Forall_fmap, Forall_forall. intros i Hi. simpl.
    apply elem_of_seq in Hi. rewrite length_take, length_drop.
    pose proof (range_within (length rows_to_tr) i) as Hw.
    revert Hi Hw. unfold BATCH. intros Hi Hw.
    assert (i * 10 < length rows_to_tr)%nat; [|lia].
    pose proof (Nat.div_mod_eq (length rows_to_tr - 0 + 10 - 1) 10).
    pose proof (Nat.mod_upper_bound (length rows_to_tr - 0 + 10 - 1) 10). lia.
Qed.

(** ** The translation column *)

Lemma cell_value_at_insert_cols_right idx ws r c :
  (idx ≤ c)%nat → cell_value_at (insert_cols idx ws) r (S c) = cell_value_at ws r c.
Proof.
  intros Hc. unfold cell_value_at, insert_cols. simpl.
  assert ((r, S c) = shift_col idx (r, c)) as ->.
  { unfold shift_col. simpl. destruct (Nat.leb_spec idx c); [done | lia]. }
  rewrite lookup_kmap; [done | apply _].
Qed.

Lemma cell_value_at_insert_cols_new idx ws r :
  cell_value_at (insert_cols idx ws) r idx = CNone.
Proof.
  unfold cell_value_at, insert_cols. simpl.
  rewrite (proj2 (lookup_kmap_None (shift_col idx) (cells ws) (r, idx))); [done|].
  intros [r' c']. unfold shift_col. simpl.
  destruct (Nat.leb_spec idx c'); intros [= -> ?]; lia.
Qed.

Lemma cell_value_at_write_cell_eq r c v ws :
  cell_value_at (write_cell r c v ws) r c = v.
Proof. unfold cell_value_at, write_cell. simpl. by rewrite lookup_insert_eq. Qed.

Lemma cell_value_at_write_cell_row r0 c0 v ws r c :
  r ≠ r0 → cell_value_at (write_cell r0 c0 v ws) r c = cell_value_at ws r c.
Proof.
  intros Hr. unfold cell_value_at, write_cell. simpl.
  rewrite lookup_insert_ne; [done | congruence].
Qed.

Lemma cell_differs_false v s : cell_differs v s = false ↔ v = CStr s.
Proof.
  destruct v; simpl; try (split; [discriminate | congruence]).
  unfold str_eqb. rewrite negb_false_iff, bool_decide_eq_true.
  split; [by intros -> | congruence].
Qed.

(** X3. After lines 72 to 75 the column to the right of Title is headed
    "中文" and no cell is lost: the columns up to Title are as they were; when
    the header was not there yet, the columns to the right are found one
    column further, and the new column is empty below its header; when it
    was there, the sheet is as it was. *)
Theorem translation_column_keeps_cells (ws : worksheet) (title_col_idx : nat) :
  let insert_idx := (title_col_idx + 1)%nat in
  let ws' := with_translation_column ws title_col_idx in
  cell_value_at ws' 1 insert_idx = CStr (utf8 "中文") ∧
  (∀ r c, (c ≤ title_col_idx)%nat → cell_value_at ws' r c = cell_value_at ws r c) ∧
  (cell_value_at ws 1 insert_idx = CStr (utf8 "中文") → ws' = ws) ∧
  (cell_value_at ws 1 insert_idx ≠ CStr (utf8 "中文") →
   (∀ r c, (insert_idx ≤ c)%nat → cell_value_at ws' r (S c) = cell_value_at ws r c) ∧
   (∀ r, r ≠ 1%nat → cell_value_at ws' r insert_idx = CNone)).
Proof.
  cbv zeta. unfold with_translation_column.
  destruct (cell_differs _ _) eqn:Hd.
  - assert (cell_value_at ws 1 (title_col_idx + 1) ≠ CStr (utf8 "中文")) as Hne.
    { intros H%cell_differs_false. congruence. }
    split; [apply cell_value_at_write_cell_eq|]. split; [|split; [done|]].
    + intros r c Hc. rewrite cell_value_at_write_cell by lia.
      apply cell_value_at_insert_cols. lia.
    + intros _. split.
      * intros r c Hc. rewrite cell_value_at_write_cell by lia.
        by apply cell_value_at_insert_cols_right.
      * intros r Hr. rewrite cell_value_at_write_cell_row by done.
        apply cell_value_at_insert_cols_new.
  - apply cell_differs_false in Hd. split; [done|]. split; [done|]. split; [done|].
    intros Hne. by destruct Hne.
Qed.

(** X4. Making room for the translations twice is the same as making room
    once: a sheet that has the column is not given another. *)
Theorem translation_column_once (ws : worksheet) (title_col_idx : nat) :
  with_translation_column (with_translation_column ws title_col_idx) title_col_idx
  = with_translation_column ws title_col_idx.
Proof.
  unfold with_translation_column at 1.
  destruct (cell_differs _ _) eqn:Hd; [|done].
  assert (cell_differs (cell_value_at (with_translation_column ws title_col_idx) 1
                          (title_col_idx + 1)) (utf8 "中文") = false); [|congruence].
  apply cell_differs_false. unfold with_translation_column.
  destruct (cell_differs (cell_value_at ws _ _) _) eqn:Hd'.
  - apply cell_value_at_write_cell_eq.
  - by apply cell_differs_false.
Qed.

(** ** The rows to translate *)

Lemma filter_seq_increasing (P : nat → Prop) `{!∀ x, Decision (P x)} start n i j x y :
  (i < j)%nat →
  filter P (seq start n) !! i = Some x → filter P (seq start n) !! j = Some y →
  (x < y)%nat.
Proof.
  revert start i j. induction n as [|n IH]; intros start i j Hij Hi Hj; [done|].
  simpl in Hi, Hj. rewrite filter_cons in Hi, Hj.
  destruct (decide (P start)); [|by eapply IH].
  destruct j as [|j]; [lia|]. simpl in Hj.
  destruct i as [|i]; simpl in Hi.
  - injection Hi as <-.
    apply list_elem_of_lookup_2, list_elem_of_filter in Hj as [_ Hy%elem_of_seq]. lia.
  - eapply (IH (S start) i j); [lia | done | done].
Qed.

(** X5. The rows to translate are listed in increasing order, the header
    row is not among them, none lies below the last row, and a row is listed
    exactly when the text of its Title cell is not empty once stripped.
    Making room for the translations does not change the list. *)
Theorem rows_to_translate_sorted (ws : worksheet) (title_col_idx : nat) :
  let rows := rows_to_translate ws title_col_idx in
  (∀ i j x y, (i < j)%nat → rows !! i = Some x → rows !! j = Some y → (x < y)%nat) ∧
  (∀ r, r ∈ rows ↔
        (2 ≤ r ≤ max_row ws)%nat ∧
        strip (str_of_cell (cell_value_at ws r title_col_idx)) ≠ []) ∧
  rows_to_translate (with_translation_column ws title_col_idx) title_col_idx = rows.
Proof.
  cbv zeta. split; [|split].
  - intros i j x y. unfold rows_to_translate. apply filter_seq_increasing.
  - intros r. unfold rows_to_translate. rewrite list_elem_of_filter, elem_of_seq.
    pose proof (max_row_ge_1 ws).
    destruct (strip _); simpl; split; intros [? ?]; split; try lia; done.
  - apply rows_to_translate_column.
Qed.



(** ** The progress fields *)

(** X6. For a run with rows to translate, [percent] is the integer part of
    the share of rows done, it lies between 0 and 100, and it is 100 only
    when every row is done. *)
Theorem percent_full_only_at_end (done_total total : nat) :
  (0 < total)%nat → (done_total ≤ total)%nat →
  ∃ p, percent_of done_total total = inr p ∧
       p = Z.of_nat done_total * 100 / Z.of_nat total ∧
       0 ≤ p ≤ 100 ∧ (p = 100 ↔ done_total = total).
Proof.
  intros Htotal Hdone. rewrite percent_of_eq by done. eexists. split; [done|].
  unfold pct. destruct (Z.eqb_spec (Z.of_nat total) 0) as [|_]; [lia|].
  split; [done|].
  assert (0 ≤ Z.of_nat done_total * 100 / Z.of_nat total ≤ 100) as Hb.
  { split; [apply Z.div_pos; lia|]. apply Z.div_le_upper_bound; lia. }
  split; [done|]. split.
  - intros Hp. destruct (decide (done_total = total)) as [|Hne]; [done|].
    assert (Z.of_nat done_total * 100 / Z.of_nat total < 100); [|lia].
    apply Z.div_lt_upper_bound; lia.
  - intros ->. rewrite Z.mul_comm. apply Z.div_mul. lia.
Qed.

Lemma py_max_floor (x : Q) : (0 < py_max x (1 # 1000000))%Q.
Proof.
  unfold py_max. destruct (Qle_bool (1 # 1000000) x) eqn:H.
  - apply Qle_bool_iff in H. eapply Qlt_le_trans; [|exact H]. reflexivity.
  - reflexivity.
Qed.

Lemma truediv_nonzero (a b : Q) : ¬ (b == 0)%Q → truediv a b = inr (a / b)%Q.
Proof.
  intros Hb. unfold truediv. destruct (Qeq_bool b 0) eqn:H; [|done].
  by apply Qeq_bool_iff in H.
Qed.

Lemma eta_seconds_defined (total done_total : nat) (now start : Q) :
  (done_total ≤ total)%nat →
  ∃ eta, eta_seconds total done_total (py_max (now - start) (1 # 1000000)) = inr eta ∧
         0 ≤ eta ∧ (done_total = total → eta = 0).
Proof.
  intros Hdone. unfold eta_seconds.
  destruct (Nat.eqb_spec done_total 0) as [Hz|Hnz].
  { exists 0. split; [done|]. split; [lia | done]. }
  set (elapsed := py_max _ _).
  pose proof (py_max_floor (now - start)) as Hel. fold elapsed in Hel.
  rewrite truediv_nonzero; [|intros H; rewrite H in Hel; by apply Qlt_irrefl in Hel].
  assert (0 < inject_Z (Z.of_nat done_total) / elapsed)%Q as Hrate.
  { apply Qlt_shift_div_l; [done|]. rewrite Qmult_0_l.
    rewrite <- (Zlt_Qlt 0). lia. }
  rewrite truediv_nonzero; [|intros H; rewrite H in Hrate; by apply Qlt_irrefl in Hrate].
  set (rest := inject_Z (Z.of_nat total - Z.of_nat done_total)).
  assert (0 <= rest / (inject_Z (Z.of_nat done_total) / elapsed))%Q as Hx.
  { apply Qle_shift_div_l; [done|]. rewrite Qmult_0_l. unfold rest.
    rewrite <- (Zle_Qle 0). lia. }
  eexists. split; [done|]. unfold py_int.
  destruct (Qle_bool 0 _) eqn:Hle; [|apply not_true_iff_false in Hle;
                                      by rewrite Qle_bool_iff in Hle].
  split.
  - change 0 with (Qfloor 0). by apply Qfloor_resp_le.
  - intros ->. unfold rest. rewrite Z.sub_diag.
    assert ((inject_Z 0 / (inject_Z (Z.of_nat total) / elapsed) == 0)%Q) as ->; [|done].
    unfold Qdiv. apply Qmult_0_l.
Qed.

(** X7. The estimate of the remaining time never fails, whatever the clock
    says (the elapsed time is at least a microsecond, line 103): it is an
    integer that is not negative, and 0 once every row is done. *)
Theorem eta_never_raises (total done_total : nat) (now start : Q) :
  (done_total ≤ total)%nat →
  ∃ eta, eta_seconds total done_total (py_max (now - start) (1 # 1000000)) = inr eta ∧
         0 ≤ eta ∧ (done_total = total → eta = 0).
Proof. apply eta_seconds_defined. Qed.



(** ** Paths *)

Lemma take_while_Forall {A} (f : A → bool) l : Forall (λ x, f x = true) (take_while f l).
Proof.
  induction l as [|x l IH]; simpl; [constructor|].
  destruct (f x) eqn:Hx; by constructor.
Qed.

Lemma drop_while_subseteq {A} (f : A → bool) (l : list A) : drop_while f l ⊆ l.
Proof.
  induction l as [|x l IH]; simpl; [done|].
  destruct (f x); [|done]. intros y Hy. right. by apply IH.
Qed.

Lemma take_while_app_stop {A} (f : A → bool) l y r :
  Forall (λ x, f x = true) l → f y = false → take_while f (l ++ y :: r) = l.
Proof.
  intros Hl Hy. induction Hl as [|x l Hx _ IH]; simpl.
  - by rewrite Hy.
  - by rewrite Hx, IH.
Qed.

Lemma drop_while_all {A} (f : A → bool) l :
  Forall (λ x, f x = true) l → drop_while f l = [].
Proof. intros Hl. induction Hl as [|x l Hx _ IH]; simpl; [done|]. by rewrite Hx. Qed.

Lemma elem_of_rev_iff {A} (x : A) l : x ∈ rev l ↔ x ∈ l.
Proof. rewrite !list_elem_of_In. symmetry. apply in_rev. Qed.

Lemma slash_free_test p :
  slash_free p ↔ Forall (λ x, negb (x =? SLASH)%N = true) p.
Proof.
  unfold slash_free. apply Forall_proper; [|done]. intros x.
  rewrite negb_true_iff, N.eqb_neq. done.
Qed.

Lemma basename_slash_free p : slash_free (basename p).
Proof.
  apply slash_free_test. unfold basename, after_last.
  apply Forall_rev, take_while_Forall.
Qed.

Lemma splitext_root_slash_free p : slash_free p → slash_free (splitext_root p).
Proof.
  intros Hp. unfold splitext_root.
  destruct (upto_last DOT (after_last SLASH p)) as [|c stem] eqn:Hstem; [done|].
  destruct (forallb _ _); [done|].
  assert (upto_last SLASH p = []) as ->.
  { unfold upto_last. rewrite drop_while_all; [done|].
    apply Forall_rev. by apply slash_free_test. }
  simpl. apply Forall_forall. intros x Hx.
  assert (x ∈ c :: stem) as Hin.
  { apply elem_of_take in Hx as (i & Hi & _). by eapply list_elem_of_lookup_2. }
  rewrite <- Hstem in Hin. unfold upto_last in Hin.
  rewrite elem_of_rev_iff in Hin. apply drop_while_subseteq in Hin.
  unfold after_last in Hin. rewrite !elem_of_rev_iff in Hin.
  pose proof (take_while_Forall (λ x, negb (x =? SLASH)%N) (rev p)) as Hb.
  apply (proj1 (Forall_forall _ _) Hb) in Hin.
  by apply negb_true_iff, N.eqb_neq in Hin.
Qed.

Lemma basename_join_tmp name :
  slash_free name → basename (path_join (utf8 "/tmp") name) = name.
Proof.
  intros Hname. destruct name as [|c name].
  - by vm_compute.
  - unfold path_join.
    assert (c ≠ SLASH) as Hc by (by inversion Hname).
    apply N.eqb_neq in Hc. rewrite Hc.
    change (last (utf8 "/tmp")) with (Some 112%N). cbv beta iota.
    change (112 =? SLASH)%N with false. cbv beta iota.
    unfold basename, after_last. rewrite rev_app_distr.
    change (rev (SLASH :: c :: name)) with (rev (c :: name) ++ [SLASH]).
    rewrite <- app_assoc. simpl ([SLASH] ++ _).
    rewrite take_while_app_stop.
    + apply rev_involutive.
    + apply Forall_rev. by apply slash_free_test.
    + done.
Qed.

Lemma output_name file_path :
  basename (output_path_of file_path)
  = splitext_root (basename file_path) ++ utf8 "_中文翻译.xlsx" ∧
  slash_free (basename (output_path_of file_path)).
Proof.
  assert (slash_free (splitext_root (basename file_path) ++ utf8 "_中文翻译.xlsx")) as Hfree.
  { apply Forall_app. split.
    - apply splitext_root_slash_free, basename_slash_free.
    - apply Forall_forall. intros x Hx. vm_compute in Hx.
      intros ->. repeat (apply elem_of_cons in Hx as [Hx|Hx]; [discriminate|]).
      by apply elem_of_nil in Hx. }
  assert (basename (output_path_of file_path)
          = splitext_root (basename file_path) ++ utf8 "_中文翻译.xlsx") as Hname.
  { unfold output_path_of. by apply basename_join_tmp. }
  split; [done | by rewrite Hname].
Qed.

Lemma join_output_name file_path :
  path_join (utf8 "/tmp") (basename (output_path_of file_path)) = output_path_of file_path.
Proof. by rewrite (proj1 (output_name file_path)). Qed.

(** X8. The name published as [download_filename] is the name of the
    uploaded file without its extension followed by "_中文翻译.xlsx"; it holds
    no slash, and joined onto "/tmp", as the download route does, it gives
    the path the worker saved the workbook to. *)
Theorem download_name_round_trip (file_path : pystr) :
  let name := basename (output_path_of file_path) in
  name = splitext_root (basename file_path) ++ utf8 "_中文翻译.xlsx" ∧
  (SLASH ∉ name) ∧
  path_join (utf8 "/tmp") name = output_path_of file_path.
Proof.
  cbv zeta. destruct (output_name file_path) as [Hname Hfree].
  split; [done|]. split; [|apply join_output_name].
  intros Hin. by apply (proj1 (Forall_forall _ _) Hfree) in Hin.
Qed.



(** ** Which headers read "title" *)

Lemma isspace_lower c : py_isspace c = true → lower_char c = [c].
Proof.
  unfold py_isspace, lower_char. intros H.
  rewrite !orb_true_iff, !andb_true_iff, !N.leb_le, !N.eqb_eq in H.
  destruct (N.leb_spec 65 c), (N.leb_spec c 90); cbn [andb]; try lia;
    (destruct (N.eqb_spec c 8490); [lia|]); (destruct (N.eqb_spec c 304); [lia | done]).
Qed.

Lemma title_no_space s c : lower s = utf8 "title" → c ∈ s → py_isspace c = false.
Proof.
  intros Hs Hc. destruct (py_isspace c) eqn:Hsp; [|done].
  assert (c ∈ lower s) as Hin.
  { unfold lower. apply list_elem_of_bind. exists c. split; [|done].
    rewrite (isspace_lower _ Hsp). by apply list_elem_of_singleton. }
  rewrite Hs in Hin. vm_compute in Hin.
  repeat (apply elem_of_cons in Hin as [->|Hin]; [by vm_compute in Hsp|]).
  by apply elem_of_nil in Hin.
Qed.

Lemma lstrip_app_blank pre s :
  blank pre = true → lstrip (pre ++ s) = lstrip s.
Proof.
  induction pre as [|c pre IH]; [done|]. simpl.
  intros [Hc Hpre]%andb_true_iff. rewrite Hc. by apply IH.
Qed.

Lemma lstrip_nonspace c s : py_isspace c = false → lstrip (c :: s) = c :: s.
Proof. intros H. simpl. by rewrite H. Qed.

Lemma blank_rev s : blank s = true → blank (rev s) = true.
Proof.
  unfold blank. rewrite !forallb_forall. intros H x Hx. apply H. by apply in_rev.
Qed.

Lemma strip_padded pre s post :
  blank pre = true → blank post = true → s ≠ [] →
  (∀ c, c ∈ s → py_isspace c = false) →
  strip (pre ++ s ++ post) = s.
Proof.
  intros Hpre Hpost Hne Hs. unfold strip, rstrip.
  rewrite lstrip_app_blank by done.
  destruct s as [|c s]; [done|].
  rewrite <- app_comm_cons, lstrip_nonspace by (apply Hs; by left).
  rewrite app_comm_cons, rev_app_distr.
  rewrite lstrip_app_blank by (by apply blank_rev).
  destruct (rev (c :: s)) as [|d t] eqn:Hrev.
  { apply (f_equal (@length N)) in Hrev. rewrite length_rev in Hrev. discriminate. }
  rewrite lstrip_nonspace.
  - by rewrite <- Hrev, rev_involutive.
  - apply Hs. apply list_elem_of_In, in_rev. rewrite Hrev. by left.
Qed.

(** X21. The header is found whatever its case and whatever white space
    surrounds it: a text cell whose text is a spelling of "title" in upper or
    lower case between two stretches of white space reads "title". *)
Theorem title_header_any_case_and_padding (pre s post : pystr) :
  blank pre = true → blank post = true → lower s = utf8 "title" →
  reads_title (CStr (pre ++ s ++ post)) = true.
Proof.
  intros Hpre Hpost Hs. unfold reads_title. cbn [str_of_cell].
  rewrite strip_padded; [| done | done | | intros c Hc; by eapply title_no_space].
  - rewrite Hs. by vm_compute.
  - intros ->. by vm_compute in Hs.
Qed.



(** ** The translation client: what one call does *)

Lemma steps_log e w : steps (log e w) = steps w.
Proof. done. Qed.
#[global] Hint Rewrite steps_log : world.

Lemma attempt_once_turn text attempt w : turn text attempt w (attempt_once text attempt w).
Proof.
  unfold attempt_once, try_except, bind at 1. rewrite requests_get_eq.
  set (w1 := log (EvRequest text) (ticked w)).
  assert (Hhandler : turn text attempt w
            ((if attempt =? 3 then print;; Return FAILED
              else time_sleep (backoff attempt)) w1)).
  { destruct (attempt =? 3).
    - unfold bind. rewrite print_eq. unfold turn, w1. split_and!; [wsimp; (done || lia)..|].
      right. eexists. split; [done | by wsimp].
    - rewrite time_sleep_eq. unfold turn, w1. split_and!; [wsimp; (done || lia)..|].
      left. split; [done | by wsimp]. }
  assert (Hsleep : turn text attempt w (time_sleep (R:=pystr) (backoff attempt) w1)).
  { rewrite time_sleep_eq. unfold turn, w1. split_and!; [wsimp; (done || lia)..|].
    left. split; [done | by wsimp]. }
  assert (Hret : ∀ s, turn text attempt w (Ret s, w1)).
  { intros s. unfold turn, w1. split_and!; [wsimp; (done || lia)..|].
    right. eexists. split; [done | by wsimp]. }
  destruct (net (outside w) (steps w)) as [r|e]; [|apply Hhandler].
  destruct (status_code r =? 200); [|unfold bind, ret; apply Hsleep].
  unfold bind, response_json, lift, ret, raise, Return.
  destruct (body r) as [data|]; [|apply Hhandler].
  destruct (py_truthy data).
  - destruct (getitem0 data) as [e|d0]; [apply Hhandler|].
    destruct (py_truthy d0); [|apply Hret].
    destruct (iterate d0) as [e|segs]; [apply Hhandler|].
    destruct (map_exn getitem0 segs) as [e|parts]; [apply Hhandler|].
    destruct (str_join parts) as [e|s]; [apply Hhandler | apply Hret].
  - apply Hret.
Qed.

(** X9. Whatever the endpoint does, one call of [translate_text] sends at
    most three requests, each with the first 5000 characters of the text,
    and sleeps at most three times: the sleeps are the first of 2.5, 4.5 and
    8.5 seconds, as many as there are requests or one less.  It leaves the
    files as they are. *)
Theorem translate_text_bounded {R} (text : pystr) (w : world) :
  ∃ k j : nat,
    (k ≤ 3)%nat ∧ (j = k ∨ S j = k) ∧
    let w' := (call (R:=R) (translate_text text) w).2 in
    requests (trace w') = replicate k (take 5000 text) ++ requests (trace w) ∧
    sleeps (trace w') = rev (take j BACKOFFS) ++ sleeps (trace w) ∧
    files w' = files w.
Proof.
  unfold translate_text, call.
  destruct (negb (str_truthy text) || negb (str_truthy (strip text))).
  { exists 0%nat, 0%nat. split; [lia|]. split; [by left | done]. }
  cbv zeta. set (t := take 5000 text). unfold for_, bind.
  destruct (attempt_once_turn t 1 w) as (Ho1 & Hf1 & _ & Hr1 & H1).
  destruct (attempt_once t 1 w) as [r1 w1]. simpl in *.
  destruct H1 as [[-> Hs1]|(s & -> & Hs1)].
  2:{ exists 1%nat, 0%nat. split; [lia|]. split; [by right|]. simpl. by rewrite Hr1, Hs1. }
  destruct (attempt_once_turn t 2 w1) as (Ho2 & Hf2 & _ & Hr2 & H2).
  destruct (attempt_once t 2 w1) as [r2 w2]. simpl in *.
  destruct H2 as [[-> Hs2]|(s & -> & Hs2)].
  2:{ exists 2%nat, 1%nat. split; [lia|]. split; [by right|]. simpl.
      rewrite Hr2, Hr1, Hs2, Hs1, Hf2, Hf1. done. }
  destruct (attempt_once_turn t 3 w2) as (Ho3 & Hf3 & _ & Hr3 & H3).
  destruct (attempt_once t 3 w2) as [r3 w3]. simpl in *.
  destruct H3 as [[-> Hs3]|(s & -> & Hs3)].
  - exists 3%nat, 3%nat. split; [lia|]. split; [by left|]. simpl.
    rewrite Hr3, Hr2, Hr1, Hs3, Hs2, Hs1, Hf3, Hf2, Hf1. done.
  - exists 3%nat, 2%nat. split; [lia|]. split; [by right|]. simpl.
    rewrite Hr3, Hr2, Hr1, Hs3, Hs2, Hs1, Hf3, Hf2, Hf1. done.
Qed.

Lemma map_exn_segments (segs : list (pystr * list pyval)) :
  map_exn getitem0 ((λ seg, PList (PStr seg.1 :: seg.2)) <$> segs)
  = inr (PStr <$> (fst <$> segs)).
Proof. induction segs as [|seg segs IH]; csimpl; [done | by rewrite IH]. Qed.

Lemma str_join_texts (l : list pystr) : str_join (PStr <$> l) = inr (concat l).
Proof. induction l as [|s l IH]; csimpl; [done | by rewrite IH]. Qed.

Lemma attempt_once_segments text attempt w segs rest :
  net (outside w) (steps w) = Answers (Response 200 (Some (segments_body segs rest))) →
  segs ≠ [] →
  attempt_once text attempt w
  = (Ret (concat (fst <$> segs)), log (EvRequest text) (ticked w)).
Proof.
  intros Hnet Hsegs. unfold attempt_once, try_except, bind at 1.
  rewrite requests_get_eq, Hnet. cbn [status_code body Z.eqb Pos.eqb].
  unfold bind, response_json, ret, Return, segments_body.
  cbn [body py_truthy getitem0 lift]. unfold ret.
  assert (py_truthy (PList ((λ seg : pystr * list pyval, PList (PStr seg.1 :: seg.2)) <$> segs))
          = true) as -> by (by destruct segs).
  cbn [iterate lift]. unfold ret.
  rewrite map_exn_segments. cbn [lift]. unfold ret.
  rewrite str_join_texts. done.
Qed.

Lemma attempt_once_failing text attempt w :
  attempt ≠ 3 → failing (net (outside w) (steps w)) →
  ∃ w', attempt_once text attempt w = (Val tt, w') ∧
        outside w' = outside w ∧ steps w' = S (S (steps w)) ∧
        requests (trace w') = text :: requests (trace w) ∧
        sleeps (trace w') = backoff attempt :: sleeps (trace w).
Proof.
  intros Ha Hfail. destruct (net (outside w) (steps w)) as [r|e] eqn:Hnet; simpl in Hfail.
  - rewrite (attempt_once_refused _ _ _ _ Hnet Hfail).
    eexists. split; [done|]. split_and!; by wsimp.
  - rewrite (attempt_once_raised _ _ _ _ Hnet).
    apply Z.eqb_neq in Ha. rewrite Ha.
    eexists. split; [done|]. split_and!; by wsimp.
Qed.

Lemma sent_text text :
  blank text = false → str_truthy text = true ∧ str_truthy (strip text) = true.
Proof.
  intros Hsent. split.
  - by destruct text.
  - destruct (strip text) eqn:E; [|done].
    apply strip_nil_blank in E. congruence.
Qed.

(** X10. When the first [j] attempts fail ([j] is 0, 1 or 2) and the next
    one is answered with a translation, [translate_text] returns the texts of
    the segments put together; it has sent [j + 1] requests and slept the
    first [j] back-offs, and nothing after the answer.  (An attempt that
    fails takes two atomic actions, the request and the sleep.) *)
Theorem translate_text_joins_segments {R} (text : pystr) (w : world) (j : nat)
    (segs : list (pystr * list pyval)) (rest : list pyval) :
  blank text = false → (j < 3)%nat → segs ≠ [] →
  (∀ i, (i < j)%nat → failing (net (outside w) (steps w + 2 * i)%nat)) →
  net (outside w) (steps w + 2 * j)%nat
    = Answers (Response 200 (Some (segments_body segs rest))) →
  ∃ w', call (R:=R) (translate_text text) w = (Val (concat (fst <$> segs)), w') ∧
        requests (trace w') = replicate (S j) (take 5000 text) ++ requests (trace w) ∧
        sleeps (trace w') = rev (take j BACKOFFS) ++ sleeps (trace w).
Proof.
  intros Hsent Hj Hsegs Hfail Hgood. unfold translate_text, call.
  destruct (sent_text _ Hsent) as [-> ->]. cbn [negb orb]. cbv zeta.
  set (t := take 5000 text). unfold for_, bind.
  destruct j as [|j].
  { rewrite (attempt_once_segments t 1 w segs rest); [|by rewrite <- Hgood, Nat.add_0_r|done].
    eexists. split; [done|]. by wsimp. }
  destruct (attempt_once_failing t 1 w) as (w1 & -> & Ho1 & Hs1 & Hr1 & Hz1);
    [done | by rewrite <- (Nat.add_0_r (steps w)); apply (Hfail 0%nat); lia |].
  destruct j as [|j].
  { rewrite (attempt_once_segments t 2 w1 segs rest);
      [|rewrite Ho1, Hs1, <- Hgood; f_equal; lia | done].
    eexists. split; [done|]. wsimp. by rewrite Hr1, Hz1. }
  destruct (attempt_once_failing t 2 w1) as (w2 & -> & Ho2 & Hs2 & Hr2 & Hz2);
    [done | rewrite Ho1, Hs1; replace (S (S (steps w))) with (steps w + 2 * 1)%nat by lia;
            apply Hfail; lia |].
  destruct j as [|j]; [|lia].
  rewrite (attempt_once_segments t 3 w2 segs rest);
    [|rewrite Ho2, Ho1, Hs2, Hs1, <- Hgood; f_equal; lia | done].
  eexists. split; [done|]. wsimp. by rewrite Hr2, Hr1, Hz2, Hz1.
Qed.

Lemma attempt_once_empty text attempt w data :
  net (outside w) (steps w) = Answers (Response 200 (Some data)) →
  empty_body data →
  attempt_once text attempt w = (Ret FAILED, log (EvRequest text) (ticked w)).
Proof.
  intros Hnet Hempty. unfold attempt_once, try_except, bind at 1.
  rewrite requests_get_eq, Hnet. cbn [status_code body Z.eqb Pos.eqb].
  unfold bind, response_json, ret, Return. cbn [body].
  destruct Hempty as [->|(d0 & rest & -> & Hd0)]; [done|].
  cbn [py_truthy getitem0 lift]. unfold ret. by rewrite Hd0.
Qed.

(** X11. An answer 200 without a translation ([data] or [data[0]] is
    empty) ends the call at once: the failure text is returned after this
    one request, without a sleep and without another attempt. *)
Theorem translate_text_empty_answer {R} (text : pystr) (w : world) (data : pyval) :
  blank text = false →
  net (outside w) (steps w) = Answers (Response 200 (Some data)) →
  empty_body data →
  ∃ w', call (R:=R) (translate_text text) w = (Val FAILED, w') ∧
        requests (trace w') = take 5000 text :: requests (trace w) ∧
        sleeps (trace w') = sleeps (trace w).
Proof.
  intros Hsent Hnet Hempty. unfold translate_text, call.
  destruct (sent_text _ Hsent) as [-> ->]. cbn [negb orb]. cbv zeta.
  unfold for_, bind. rewrite (attempt_once_empty _ _ _ _ Hnet Hempty).
  eexists. split; [done|]. by wsimp.
Qed.



(** ** The worker cleans up *)

Lemma isdir_filter fs base :
  isdir (filter (λ kv : pystr * file, under base kv.1 = false) fs) base = false.
Proof.
  unfold isdir. apply not_true_iff_false. intros H.
  apply existsb_exists in H as ([p f] & Hin & Hunder).
  apply list_elem_of_In, elem_of_map_to_list, map_lookup_filter_Some in Hin as [_ Hp].
  simpl in *. congruence.
Qed.

Lemma run_task_finally_cleans file_path task_id w :
  ∃ w', run_task_finally file_path task_id w = (Val tt, w') ∧
        head (trace w') = Some (EvCleanup task_id) ∧
        isdir (files w') (dirname file_path) = false.
Proof.
  unfold run_task_finally, bind, try_except, the_world, _schedule_state_cleanup, rmtree,
    tick, emit, ret.
  destruct (isdir (files w) (dirname file_path)) eqn:Hdir.
  - eexists. split; [reflexivity|]. split; [done|].
    cbn [files log set_files]. rewrite files_ticked. cbn [files log set_files].
    rewrite files_ticked. apply isdir_filter.
  - eexists. split; [reflexivity|]. split; [done|].
    cbn [files log]. by rewrite files_ticked.
Qed.

Lemma run_task_failed_eq task_id e w :
  run_task_failed task_id e w =
    (Val tt,
     updated task_id
       {[ "status" := VStr (utf8 "error"); "message" := VStr (exn_msg e);
          "finished_at" := VFloat (clock (outside w) (steps w)) ]}
       (ticked (ticked w))).
Proof. unfold run_task_failed, bind. by rewrite time_time_eq, safe_update_eq. Qed.

(** X12. Whatever the registry, the files and the endpoint are like, the
    worker does not let an exception escape, and it ends with the clean-up:
    the directory of the uploaded file is gone and the last thing it does is
    to schedule the eviction of the record. *)
Theorem run_task_always_cleans_up (file_path : pystr) (task_id : string) (w : world) :
  let '(r, w') := _run_task file_path task_id w in
  no_exc r ∧
  head (trace w') = Some (EvCleanup task_id) ∧
  isdir (files w') (dirname file_path) = false.
Proof.
  unfold _run_task, bind at 1. rewrite time_time_eq. unfold bind at 1.
  rewrite safe_update_eq. set (w2 := updated _ _ _). unfold try_finally.
  pose proof (try_except_no_exc (run_task_body file_path task_id)
                (run_task_failed task_id) w2) as Hbody.
  destruct (try_except _ _ w2) as [r w3].
  destruct (run_task_finally_cleans file_path task_id w3) as (w' & -> & Hlast & Hdir).
  split; [|done]. apply Hbody. intros e w0. by rewrite run_task_failed_eq.
Qed.

(** ** The worker ends in a terminal status *)

Lemma terminal_view_shaped v : terminal_view v → shaped v.
Proof.
  intros [(N & c & H)|[[H|(N & c & H)]|(N & c & H)]];
    [by exists (DoneFull N c) | by exists DoneEmpty | by exists (Canceled N c)
    | by exists (Failed N c)].
Qed.

Lemma run_task_failed_terminal task_id e w :
  Hist task_id live_view (see w) →
  Hist task_id failed_view (see (run_task_failed task_id e w).2).
Proof.
  intros Hw. unfold run_task_failed, bind. rewrite time_time_eq.
  assert (Hist task_id live_view (see (ticked w))) as H1.
  { eapply (Hist_stable task_id live_view live_view_shaped); [apply evo_ticked | done]. }
  pose proof (triple_safe_update (R:=unit) task_id
                {[ "status" := VStr (utf8 "error"); "message" := VStr (exn_msg e);
                   "finished_at" := VFloat (clock (outside w) (steps w)) ]}
                live_view failed_view
                (View (vstr "error") None None None None
                   (Some (VFloat (clock (outside w) (steps w)))))) as Hup.
  specialize (Hup eq_refl live_view_shaped).
  assert (Hstep : ∀ v, live_view v →
            failed_view (merge_view (View (vstr "error") None None None None
                           (Some (VFloat (clock (outside w) (steps w))))) v) ∧
            shaped (merge_view (View (vstr "error") None None None None
                      (Some (VFloat (clock (outside w) (steps w))))) v) ∧
            advances v (merge_view (View (vstr "error") None None None None
                          (Some (VFloat (clock (outside w) (steps w))))) v)).
  { intros v (N & c & Hc & ->). unfold merge_view. simpl.
    assert (Hnew : has_shape (Failed N c)
              (View (vstr "error") (vint (pct c N)) (vint c) (vint N) None
                 (Some (VFloat (clock (outside w) (steps w)))))).
    { split; [done | by eexists]. }
    split; [by exists N, c | split; [by exists (Failed N c) | unfold advances; simpl; lia]]. }
  specialize (Hup Hstep (ticked w) H1).
  by destruct (_safe_update _ _ _) as [[] ?].
Qed.

Lemma run_task_terminal file_path task_id :
  triple (λ w, Hist task_id (has_shape Idle) (see w)) (_run_task file_path task_id)
    (λ _ w, Hist task_id terminal_view (see w)).
Proof.
  unfold _run_task.
  assert (Hidle : ∀ v, has_shape Idle v → shaped v) by (intros v Hv; by exists Idle).
  intros w Hw. unfold bind at 1. rewrite time_time_eq. unfold bind at 1.
  assert (Hist task_id (has_shape Idle) (see (ticked w))) as H1.
  { eapply (Hist_stable task_id _ Hidle); [apply evo_ticked | done]. }
  pose proof (triple_safe_update (R:=unit) task_id
                {[ "status" := VStr (utf8 "running"); "message" := VStr (utf8 "读取文件...");
                   "percent" := VInt 0;
                   "started_at" := VFloat (clock (outside w) (steps w)) ]}
                (has_shape Idle) (has_shape (Live 0 0))
                (View (vstr "running") (vint 0) None None None None) eq_refl Hidle) as Hup.
  assert (Hstep : ∀ v, has_shape Idle v →
            has_shape (Live 0 0)
              (merge_view (View (vstr "running") (vint 0) None None None None) v) ∧
            shaped (merge_view (View (vstr "running") (vint 0) None None None None) v) ∧
            advances v (merge_view (View (vstr "running") (vint 0) None None None None) v)).
  { intros v ->. unfold merge_view. simpl.
    assert (Hnew : has_shape (Live 0 0)
              (View (vstr "running") (vint 0) (vint 0) (vint 0) None None)).
    { split; [lia | reflexivity]. }
    split; [exact Hnew | split; [by exists (Live 0 0) | unfold advances; simpl; lia]]. }
  specialize (Hup Hstep (ticked w) H1).
  destruct (_safe_update _ _ (ticked w)) as [[[]|?|?] w2]; [|done..]. cbn [fst snd] in Hup.
  revert w2 Hup. change (triple (λ w, Hist task_id (has_shape (Live 0 0)) (see w))
    (try_finally (try_except (run_task_body file_path task_id) (run_task_failed task_id))
       (run_task_finally file_path task_id))
    (λ _ w, Hist task_id terminal_view (see w))).
  apply triple_try_finally.
  - intros w2 Hw2. unfold try_except.
    pose proof (run_task_body_history file_path task_id w2 Hw2) as Hbody.
    destruct (run_task_body file_path task_id w2) as [[[]|[]|e] w3]; cbn [fst snd] in *.
    + eapply Hist_mono; [|exact Hbody]. intros v Hv. by left.
    + eapply Hist_mono; [|exact Hbody]. intros v Hv. right. by left.
    + eapply Hist_mono; [|apply (run_task_failed_terminal _ _ _ Hbody)].
      intros v Hv. right. by right.
  - eapply (triple_ambient not_tasks); [apply Hist_stable, terminal_view_shaped|].
    apply ambient_run_task_finally. by intros [].
Qed.

(** X13. A run that starts from the record [start_background_task]
    registered leaves the task in a terminal status: done, canceled or
    error.  The worker never ends with the task idle or running. *)
Theorem run_ends_in_terminal_status (w : world) (task_id : string)
    (file_path filename : pystr) :
  TASKS w !! task_id = Some (initial_state file_path filename) →
  trace w = [] →
  ∃ rec, TASKS (_run_task file_path task_id w).2 !! task_id = Some rec ∧
         (status_is "done" rec ∨ status_is "canceled" rec ∨ status_is "error" rec).
Proof.
  intros HT Htr.
  pose proof (run_task_terminal file_path task_id w
                (Hist_initial _ _ file_path filename HT Htr)) as [(rec & Hrec & Hv) _].
  exists rec. split; [exact Hrec|]. unfold status_is.
  destruct Hv as [(N & c & _ & _ & f & t & Hv)|[[Hv|(N & c & _ & Hv)]|(N & c & _ & t & Hv)]];
    apply view_of_fields in Hv as (Hs & _); auto.
Qed.



(** ** A file the worker cannot use *)

Lemma translations_foldr_deliver w l :
  translations (trace (foldr deliver w l)) = translations (trace w).
Proof. induction l; simpl; auto. Qed.
Lemma translations_ticked w : translations (trace (ticked w)) = translations (trace w).
Proof. apply translations_foldr_deliver. Qed.
#[global] Hint Rewrite translations_ticked translations_foldr_deliver : world.

Lemma run_task_body_unusable file_path task_id w e :
  unusable (files w) file_path = Some e →
  run_task_body file_path task_id w = (Exc e, ticked w).
Proof.
  unfold unusable. intros He. unfold run_task_body, bind at 1.
  rewrite load_workbook_eq.
  destruct (files w !! file_path) as [[wb|]|]; [|by injection He as <-..].
  destruct (active wb) as [ws|]; [|by injection He as <-].
  unfold bind at 1, ret at 1.
  destruct (find_title 1 (row_values ws 1)); [done | by injection He as <-].
Qed.

Lemma failed_with_flag_blind msg : flag_blind (failed_with msg).
Proof.
  intros rec (H1 & H2 & [t H3]). unfold failed_with, status_is, has_field.
  rewrite !lookup_update, H1, H2, H3. split_and!; [done | done | by eexists].
Qed.

Lemma run_task_finally_trace file_path task_id w :
  let w' := (run_task_finally file_path task_id w).2 in
  requests (trace w') = requests (trace w) ∧
  translations (trace w') = translations (trace w) ∧
  saves (trace w') = saves (trace w).
Proof.
  unfold run_task_finally, bind, try_except, the_world, _schedule_state_cleanup, rmtree,
    tick, emit, ret.
  destruct (isdir (files w) (dirname file_path)); cbn [snd trace log set_files];
    split_and!; by wsimp.
Qed.

(** X14. When the uploaded file cannot be used (it cannot be loaded, it has
    no active sheet, or its first row has no Title cell) the task ends in
    error with the text of the exception as its message and with
    [finished_at]; no row is translated, the endpoint is not called and no
    workbook is saved. *)
Theorem unusable_file_ends_in_error (w : world) (task_id : string)
    (file_path filename : pystr) (e : exn) :
  TASKS w !! task_id = Some (initial_state file_path filename) →
  unusable (files w) file_path = Some e →
  ∃ w', _run_task file_path task_id w = (Val tt, w') ∧
        record_has task_id (failed_with (exn_msg e)) (TASKS w') ∧
        translations (trace w') = translations (trace w) ∧
        requests (trace w') = requests (trace w) ∧
        saves (trace w') = saves (trace w).
Proof.
  intros HT He. unfold _run_task, bind at 1.
  rewrite time_time_eq. unfold bind at 1. rewrite safe_update_eq.
  set (w2 := updated _ _ _).
  assert (He2 : unusable (files w2) file_path = Some e).
  { unfold w2. by rewrite files_updated, !files_ticked. }
  unfold try_finally, try_except.
  rewrite (run_task_body_unusable _ _ _ _ He2), run_task_failed_eq.
  set (w5 := updated _ _ _).
  pose proof (run_task_finally_trace file_path task_id w5) as (Hreq & Htrans & Hsaves).
  destruct (run_task_finally_eq file_path task_id w5) as (w' & Hfin & Hevo & _ & _).
  rewrite Hfin in *. cbn [snd] in *.
  exists w'. split; [done|].
  assert (H0 : record_has task_id (λ _, True) (TASKS w)).
  { exists (initial_state file_path filename). split; [done|]. split; [|done].
    by eapply (dict_truthy_lookup _ "status"). }
  assert (H5 : record_has task_id (failed_with (exn_msg e)) (TASKS w5)).
  { unfold w5, w2.
    apply (record_has_updated _ (λ _, True)).
    { intros rec _. unfold failed_with, status_is, has_field.
      rewrite !lookup_update. split_and!; [done | done | by eexists]. }
    do 3 (apply record_has_ticked; [done|]).
    apply (record_has_updated _ (λ _, True)); [done|].
    by do 2 (apply record_has_ticked; [done|]). }
  split_and!.
  - apply (record_has_stable task_id _ _ (failed_with_flag_blind _) _ _ Hevo H5).
  - rewrite Htrans. unfold w5, w2, updated. by wsimp.
  - rewrite Hreq. unfold w5, w2, updated. by wsimp.
  - rewrite Hsaves. unfold w5, w2. by saves_simpl.
Qed.



(** ** The percentage in the records *)

(** X23. In every record a run exposes, [percent] agrees with [current]
    and [total]: it is 100 when the status is done, and otherwise the integer
    part of 100 * current / total (0 while the total is 0). *)
Theorem percent_agrees_with_current (w : world) (task_id : string)
    (file_path filename : pystr) :
  TASKS w !! task_id = Some (initial_state file_path filename) →
  trace w = [] →
  ∀ r, seen task_id (_run_task file_path task_id w).2 r →
       ∃ c t, r !! "current" = Some (VInt c) ∧ r !! "total" = Some (VInt t) ∧
              (status_is "done" r → r !! "percent" = Some (VInt 100)) ∧
              (¬ status_is "done" r → r !! "percent" = Some (VInt (pct c t))).
Proof.
  intros HT Htr r Hr.
  destruct (seen_shaped _ _ _ _ _ HT Htr Hr) as [s Hs].
  assert (Hother : ∀ st c N,
            view_of r = View (vstr st) (vint (pct c N)) (vint c) (vint N)
                          (r !! "download_filename") (r !! "finished_at") →
            utf8 st ≠ utf8 "done" →
            ∃ c t, r !! "current" = Some (VInt c) ∧ r !! "total" = Some (VInt t) ∧
                   (status_is "done" r → r !! "percent" = Some (VInt 100)) ∧
                   (¬ status_is "done" r → r !! "percent" = Some (VInt (pct c t)))).
  { intros st c N Hv Hne. apply view_of_fields in Hv as (Hst & Hp & Hc & Ht & _).
    exists c, N. split; [done|]. split; [done|]. split; [|done].
    unfold status_is. rewrite Hst. unfold vstr. intros [= H]. by destruct Hne. }
  assert (Hdone : ∀ c N,
            view_of r = View (vstr "done") (vint 100) (vint c) (vint N)
                          (r !! "download_filename") (r !! "finished_at") →
            ∃ c t, r !! "current" = Some (VInt c) ∧ r !! "total" = Some (VInt t) ∧
                   (status_is "done" r → r !! "percent" = Some (VInt 100)) ∧
                   (¬ status_is "done" r → r !! "percent" = Some (VInt (pct c t)))).
  { intros c N Hv. apply view_of_fields in Hv as (Hst & Hp & Hc & Ht & _).
    exists c, N. split; [done|]. split; [done|]. split; [done|].
    intros Hnot. by destruct Hnot. }
  assert (Hfields : ∀ a b c d e f, view_of r = View a b c d e f →
            view_of r = View a b c d (r !! "download_filename") (r !! "finished_at")).
  { intros a b c d e f Hv. rewrite Hv.
    by apply view_of_fields in Hv as (_ & _ & _ & _ & <- & <-). }
  destruct s as [|N c| |N c|N c|N c]; simpl in Hs.
  - apply (Hother "idle" 0 0); [by eapply Hfields | by vm_compute].
  - destruct Hs as [_ Hs]. apply (Hother "running" c N); [by eapply Hfields | by vm_compute].
  - apply (Hdone 0 0). by eapply Hfields.
  - destruct Hs as [_ Hs]. apply (Hother "canceled" c N); [by eapply Hfields | by vm_compute].
  - destruct Hs as (_ & _ & f & t & Hs). apply (Hdone c N). by eapply Hfields.
  - destruct Hs as (_ & t & Hs). apply (Hother "error" c N); [by eapply Hfields | by vm_compute].
Qed.

Lemma percent_agrees_with_current_witness :
  let w := sample_world (sample_env translated_reply [8%nat]) long_sheet in
  TASKS w !! "t1" = Some (initial_state sample_path sample_name) ∧
  trace w = [] ∧
  ∀ r, seen "t1" (_run_task sample_path "t1" w).2 r →
       ∃ c t, r !! "current" = Some (VInt c) ∧ r !! "total" = Some (VInt t) ∧
              (status_is "done" r → r !! "percent" = Some (VInt 100)) ∧
              (¬ status_is "done" r → r !! "percent" = Some (VInt (pct c t))).
Proof.
  split; [reflexivity|]. split; [reflexivity|].
  apply (percent_agrees_with_current
           (sample_world (sample_env translated_reply [8%nat]) long_sheet)
           "t1" sample_path sample_name); reflexivity.
Defined.



(** ** A run that translates every row *)

Lemma lookup_foldr_deliver task_id w l :
  task_id ∉ l → TASKS (foldr deliver w l) !! task_id = TASKS w !! task_id.
Proof.
  induction l as [|tid l IH]; [done|]. intros [Hne Hl]%not_elem_of_cons.
  simpl. unfold request_cancel. rewrite safe_update_tasks_other by done. by apply IH.
Qed.

Lemma lookup_ticked task_id w :
  quiet_for task_id (outside w) → TASKS (ticked w) !! task_id = TASKS w !! task_id.
Proof. intros Hq. unfold ticked. cbn [TASKS set_steps]. apply lookup_foldr_deliver, Hq. Qed.

Lemma kept_refl task_id w : kept task_id w w.
Proof. by unfold kept. Qed.

Lemma kept_trans task_id w1 w2 w3 :
  kept task_id w1 w2 → kept task_id w2 w3 → kept task_id w1 w3.
Proof.
  intros (Ho & Hf & HT & Ht & Hs) (Ho' & Hf' & HT' & Ht' & Hs').
  split_and!; try congruence.
  intros Hq. rewrite HT' by (by rewrite Ho). by apply HT.
Qed.

Lemma kept_ticked task_id w : kept task_id w (ticked w).
Proof.
  split_and!; [by wsimp | by wsimp | apply lookup_ticked | by wsimp | by wsimp].
Qed.

Lemma kept_log task_id e w :
  is_translate e = false → (∀ path wb, e ≠ EvSave path wb) → kept task_id w (log e w).
Proof.
  intros He Hs. split_and!; [done..| |].
  - cbn [trace log]. unfold translations. by destruct e.
  - cbn [trace log]. rewrite saves_cons. destruct e; try done. by destruct (Hs path wb).
Qed.

Lemma kept_attempt_once task_id text attempt w :
  kept task_id w (attempt_once text attempt w).2.
Proof.
  unfold attempt_once, try_except, bind at 1. rewrite requests_get_eq.
  set (w1 := log (EvRequest text) (ticked w)).
  assert (H1 : kept task_id w w1).
  { eapply kept_trans; [apply kept_ticked | by apply kept_log]. }
  assert (Hhandler : kept task_id w
            ((if attempt =? 3 then print;; Return FAILED
              else time_sleep (backoff attempt)) w1).2).
  { destruct (attempt =? 3).
    - unfold bind. rewrite print_eq. cbn [snd].
      eapply kept_trans; [exact H1|].
      eapply kept_trans; [apply kept_ticked | by apply kept_log].
    - rewrite time_sleep_eq. cbn [snd]. eapply kept_trans; [exact H1|].
      eapply kept_trans; [apply kept_ticked | by apply kept_log]. }
  assert (Hsleep : kept task_id w (time_sleep (R:=pystr) (backoff attempt) w1).2).
  { rewrite time_sleep_eq. cbn [snd]. eapply kept_trans; [exact H1|].
    eapply kept_trans; [apply kept_ticked | by apply kept_log]. }
  destruct (net (outside w) (steps w)) as [r|e]; [|apply Hhandler].
  destruct (status_code r =? 200); [|unfold bind, ret; apply Hsleep].
  unfold bind, response_json, lift, ret, raise, Return.
  destruct (body r) as [data|]; [|apply Hhandler].
  destruct (py_truthy data).
  - destruct (getitem0 data) as [e|d0]; [apply Hhandler|].
    destruct (py_truthy d0); [|apply H1].
    destruct (iterate d0) as [e|segs]; [apply Hhandler|].
    destruct (map_exn getitem0 segs) as [e|parts]; [apply Hhandler|].
    destruct (str_join parts) as [e|s]; [apply Hhandler | apply H1].
  - apply H1.
Qed.

Lemma kept_translate_text task_id text w : kept task_id w (translate_text text w).2.
Proof.
  unfold translate_text.
  destruct (negb (str_truthy text) || negb (str_truthy (strip text))); [apply kept_refl|].
  cbv zeta. set (t := take 5000 text). unfold for_, bind.
  pose proof (kept_attempt_once task_id t 1 w) as H1.
  destruct (attempt_once t 1 w) as [[[]|?|?] w1]; cbn [snd] in *; [|done..].
  pose proof (kept_attempt_once task_id t 2 w1) as H2.
  destruct (attempt_once t 2 w1) as [[[]|?|?] w2]; cbn [snd] in *;
    [|by eapply kept_trans..].
  pose proof (kept_attempt_once task_id t 3 w2) as H3.
  destruct (attempt_once t 3 w2) as [[[]|?|?] w3]; cbn [snd] in *;
    eapply kept_trans; [exact H1 | by eapply kept_trans | exact H1 | by eapply kept_trans
                       | exact H1 | by eapply kept_trans].
Qed.

Lemma call_translate_text task_id text w :
  ∃ s w', call (R:=unit) (translate_text text) w = (Val s, w') ∧ kept task_id w w'.
Proof.
  pose proof (translate_text_returns (R:=unit) text w) as [s Hs].
  pose proof (kept_translate_text task_id text w) as Hk.
  unfold call in *. destruct (translate_text text w) as [[a|a|e] w']; simpl in *;
    [|by eauto|done].
  injection Hs as <-. by eauto.
Qed.

(** *** Texts that a worksheet takes *)

Lemma clean_getitem0 v x :
  clean_value v = true → getitem0 v = inr x → clean_value x = true.
Proof.
  destruct v as [| | | |[|c s]|[|y l]|]; try done; simpl; intros H [= <-].
  - simpl. apply negb_true_iff in H. apply orb_false_elim in H as [-> _]. done.
  - by apply andb_prop in H as [H _].
Qed.

Lemma clean_iterate v l :
  clean_value v = true → iterate v = inr l → forallb clean_value l = true.
Proof.
  destruct v as [| | | |s|l'|d]; try done; simpl; intros H [= <-]; [|done|].
  - apply negb_true_iff in H. induction s as [|c s IH]; [done|].
    simpl in *. apply orb_false_elim in H as [-> H]. simpl. by apply IH.
  - induction d as [|[k v] d IH]; [done|].
    simpl in *. apply andb_prop in H as [[-> _]%andb_prop H]. simpl. by apply IH.
Qed.

Lemma clean_map_getitem0 l parts :
  forallb clean_value l = true → map_exn getitem0 l = inr parts →
  forallb clean_value parts = true.
Proof.
  revert parts. induction l as [|v l IH]; intros parts H; simpl.
  - by intros [= <-].
  - simpl in H. apply andb_prop in H as [Hv Hl].
    destruct (getitem0 v) as [|x] eqn:Ex; [done|].
    destruct (map_exn getitem0 l) as [|xs]; [done|]. intros [= <-]. simpl.
    by rewrite (clean_getitem0 v x Hv Ex), (IH xs Hl).
Qed.

Lemma clean_str_join parts s :
  forallb clean_value parts = true → str_join parts = inr s →
  existsb illegal_char s = false.
Proof.
  revert s. induction parts as [|v parts IH]; intros s H; simpl.
  - by intros [= <-].
  - simpl in H. apply andb_prop in H as [Hv Hl].
    destruct v as [| | | |t| |]; try done.
    destruct (str_join parts) as [|u]; [done|]. intros [= <-].
    rewrite existsb_app, (IH u Hl eq_refl), orb_false_r.
    simpl in Hv. by apply negb_true_iff in Hv.
Qed.

(** What a turn of the retry loop returns has no character that a worksheet
    refuses, when the endpoint sends none. *)
Lemma attempt_once_clean text attempt w s :
  clean_endpoint (outside w) →
  (attempt_once text attempt w).1 = Ret s → existsb illegal_char s = false.
Proof.
  intros Hclean. unfold attempt_once, try_except, bind at 1. rewrite requests_get_eq.
  set (w1 := log (EvRequest text) (ticked w)).
  assert (Hhandler : ((if attempt =? 3 then print;; Return FAILED
                       else time_sleep (backoff attempt)) w1).1 = Ret s →
                     existsb illegal_char s = false).
  { destruct (attempt =? 3).
    - unfold bind. rewrite print_eq. cbn [fst Return]. by intros [= <-].
    - by rewrite time_sleep_eq. }
  destruct (net (outside w) (steps w)) as [r|e] eqn:Enet; [|apply Hhandler].
  destruct (status_code r =? 200); [|unfold bind, ret; by rewrite time_sleep_eq].
  unfold bind, response_json, lift, ret, raise, Return.
  destruct (body r) as [data|] eqn:Ebody; [|apply Hhandler].
  pose proof (Hclean _ _ _ Enet Ebody) as Hdata.
  destruct (py_truthy data).
  - destruct (getitem0 data) as [e|d0] eqn:E0; [apply Hhandler|].
    pose proof (clean_getitem0 _ _ Hdata E0) as Hd0.
    destruct (py_truthy d0); [|cbn [fst]; by intros [= <-]].
    destruct (iterate d0) as [e|segs] eqn:Eit; [apply Hhandler|].
    pose proof (clean_iterate _ _ Hd0 Eit) as Hsegs.
    destruct (map_exn getitem0 segs) as [e|parts] eqn:Emap; [apply Hhandler|].
    pose proof (clean_map_getitem0 _ _ Hsegs Emap) as Hparts.
    destruct (str_join parts) as [e|t] eqn:Ejoin; [apply Hhandler|].
    cbn [fst]. intros [= <-]. by apply (clean_str_join parts).
  - cbn [fst]. by intros [= <-].
Qed.

Lemma translate_text_clean {R} text w s :
  clean_endpoint (outside w) →
  (call (R:=R) (translate_text text) w).1 = Val s → existsb illegal_char s = false.
Proof.
  intros Hclean. unfold call, translate_text.
  destruct (negb (str_truthy text) || negb (str_truthy (strip text)));
    [cbn [fst Return]; by intros [= <-]|].
  cbv zeta. set (t := take 5000 text). unfold for_, bind.
  pose proof (attempt_once_clean t 1 w) as H1.
  pose proof (kept_attempt_once "" t 1 w) as (Ho1 & _).
  destruct (attempt_once t 1 w) as [[[]|s1|?] w1]; cbn [fst snd] in *;
    [|intros [= <-]; by apply H1|done].
  pose proof (attempt_once_clean t 2 w1) as H2.
  pose proof (kept_attempt_once "" t 2 w1) as (Ho2 & _).
  destruct (attempt_once t 2 w1) as [[[]|s2|?] w2]; cbn [fst snd] in *;
    [|intros [= <-]; apply H2; [by rewrite Ho1 | done]|done].
  pose proof (attempt_once_clean t 3 w2) as H3.
  destruct (attempt_once t 3 w2) as [[[]|s3|?] w3]; cbn [fst snd] in *;
    [by intros [= <-]|intros [= <-]; apply H3; [by rewrite Ho2, Ho1 | done]|done].
Qed.

Lemma existsb_take {A} (f : A → bool) n l :
  existsb f l = false → existsb f (take n l) = false.
Proof.
  revert n. induction l as [|x l IH]; intros [|n]; simpl; try done.
  intros [-> H]%orb_false_elim. by apply IH.
Qed.

(** The write of line 100 goes through for such a text; the cell takes the
    text, cut to the length a cell holds. *)
Lemma set_cell_text_clean r c text ws :
  existsb illegal_char text = false →
  set_cell_text r c text ws = inr (write_cell r c (CStr (take CELL_TEXT_LIMIT text)) ws).
Proof.
  intros H. unfold set_cell_text, check_string. cbv zeta.
  by rewrite (existsb_take _ _ _ H).
Qed.



Lemma running_at_truthy N k rec : running_at N k rec → dict_truthy rec = true.
Proof. intros (H & _). by eapply dict_truthy_lookup. Qed.

Lemma lookup_updated task_id kv w rec :
  TASKS w !! task_id = Some rec → dict_truthy rec = true →
  TASKS (updated task_id kv w) !! task_id = Some (kv ∪ rec).
Proof.
  intros Hrec Htr. unfold updated. cbn [TASKS log set_TASKS].
  by rewrite (safe_update_tasks_here _ _ _ _ Hrec Htr), lookup_insert_eq.
Qed.

Lemma translations_updated task_id kv w :
  translations (trace (updated task_id kv w)) = translations (trace w).
Proof. done. Qed.

Lemma saves_updated task_id kv w : saves (trace (updated task_id kv w)) = saves (trace w).
Proof. done. Qed.

Lemma outside_updated task_id kv w : outside (updated task_id kv w) = outside w.
Proof. done. Qed.

Section success.
Context (task_id : string) (E : env) (ws0 : worksheet) (title_col_idx : nat).
Context (rows : list nat) (T0 : list (nat * pystr)).
Context (start : Q) (output_path : pystr).
Hypothesis quiet : quiet_for task_id E.
Hypothesis working : saves_work E.
Hypothesis clean : clean_endpoint E.
Local Abbreviation insert_idx := (title_col_idx + 1)%nat.
Local Abbreviation N := (length rows).
Local Abbreviation Going := (going task_id E ws0 title_col_idx rows T0).

Lemma going_kept k F Sv w w' : Going k F Sv w → kept task_id w w' → Going k F Sv w'.
Proof.
  intros (Ho & (rec & Hrec & Hrun) & Ht & Hf & Hs) (Ho' & Hf' & HT' & Ht' & Hs').
  split_and!; try congruence.
  exists rec. split; [|done]. rewrite HT'; [done|]. by rewrite Ho.
Qed.

Lemma going_ticked k F Sv w : Going k F Sv w → Going k F Sv (ticked w).
Proof. intros H. eapply going_kept; [exact H | apply kept_ticked]. Qed.

Lemma translated_sheet_write ws k row s :
  rows !! k = Some row →
  translated_sheet ws0 insert_idx (take k rows) ws →
  translated_sheet ws0 insert_idx (take (S k) rows)
    (write_cell row insert_idx (CStr s) ws).
Proof.
  intros Hrow (Hother & Hdone & Hrest).
  rewrite (take_S_r _ _ _ Hrow). split_and!.
  - intros r c Hc. rewrite cell_value_at_write_cell by done. by apply Hother.
  - intros r [Hr| ->%list_elem_of_singleton]%elem_of_app.
    + destruct (decide (r = row)) as [->|Hne].
      * exists s. apply cell_value_at_write_cell_eq.
      * rewrite cell_value_at_write_cell_row by done. by apply Hdone.
    + exists s. apply cell_value_at_write_cell_eq.
  - intros r Hr. apply not_elem_of_app in Hr as [Hr Hne].
    rewrite cell_value_at_write_cell_row; [by apply Hrest|].
    intros ->. apply Hne. by apply list_elem_of_singleton.
Qed.

Lemma translate_row_going batch_start j row ws k F Sv w :
  k = (batch_start + j - 1)%nat → (0 < j)%nat → rows !! k = Some row →
  translated_sheet ws0 insert_idx (take k rows) ws →
  Going k F Sv w →
  ∃ s w',
    translate_row task_id title_col_idx insert_idx N start batch_start (j, row) ws w
    = (Val (write_cell row insert_idx (CStr s) ws), w') ∧
    Going (S k) F Sv w'.
Proof.
  intros Hk Hj Hrow Hsheet Hw.
  assert (Hlt : (k < N)%nat) by (by eapply lookup_lt_Some).
  unfold translate_row. unfold bind at 1. unfold emit at 1.
  set (text := str_of_cell (cell_value_at ws row title_col_idx)).
  set (w1 := log (EvTranslate row text) w).
  destruct (call_translate_text task_id text w1) as (s0 & w2 & Hcall & Hkept).
  assert (Hlegal : existsb illegal_char s0 = false).
  { apply (translate_text_clean (R:=unit) text w1).
    - destruct Hw as (Ho & _). unfold w1. cbn [outside log]. by rewrite Ho.
    - by rewrite Hcall. }
  set (s := take CELL_TEXT_LIMIT s0).
  unfold bind at 1. rewrite Hcall. cbv zeta.
  unfold bind at 1. rewrite (set_cell_text_clean _ _ _ _ Hlegal). cbn [lift]. unfold ret at 1.
  fold s.
  unfold bind at 1. rewrite time_time_eq.
  destruct (eta_seconds_defined N (batch_start + j) (clock (outside w2) (steps w2)) start)
    as (eta & Heta & _); [lia|].
  unfold bind at 1. rewrite Heta. cbn [lift]. unfold ret at 1.
  rewrite percent_of_eq by lia.
  unfold bind at 1. cbn [lift]. unfold ret at 1.
  unfold bind at 1. rewrite safe_update_eq. unfold ret.
  exists s. eexists. split; [reflexivity|].
  destruct Hw as (Ho & (rec & Hrec & Hrun) & Ht & Hf & Hs).
  assert (Htext : text = str_of_cell (cell_value_at ws0 row title_col_idx)).
  { unfold text. destruct Hsheet as (Hother & _). rewrite Hother; [done | lia]. }
  assert (Hq : ∀ w0, outside w0 = E → quiet_for task_id (outside w0)).
  { intros w0 ->. exact quiet. }
  destruct Hkept as (Ho2 & Hf2 & HT2 & Ht2 & Hs2).
  assert (Ho1 : outside w1 = E) by done.
  assert (Hrec2 : TASKS (ticked (ticked w2)) !! task_id = Some rec).
  { rewrite !lookup_ticked; [|apply Hq; by rewrite ?outside_ticked, Ho2..].
    rewrite HT2; [done | by apply Hq]. }
  split_and!.
  - by rewrite outside_updated, !outside_ticked, Ho2.
  - eexists. split.
    + apply lookup_updated; [exact Hrec2 | by eapply running_at_truthy].
    + destruct Hrun as (Hst & Htot & Hcur & Hflag).
      unfold running_at, status_is, dict_get. rewrite !lookup_update.
      rewrite Hst, Htot. split_and!; [done | done | | ].
      * replace (S k) with (batch_start + j)%nat by lia. reflexivity.
      * unfold dict_get in Hflag. exact Hflag.
  - rewrite translations_updated. autorewrite with world. rewrite Ht2.
    unfold w1. cbn [trace log]. unfold translations at 1. cbn [omap list_omap].
    fold (translations (trace w)). rewrite Ht.
    rewrite (take_S_r _ _ _ Hrow). unfold row_texts. rewrite fmap_app, rev_app_distr.
    cbn [fmap list_fmap rev app]. by rewrite Htext.
  - by rewrite files_updated, !files_ticked, Hf2.
  - rewrite saves_updated. autorewrite with world. by rewrite Hs2.
Qed.

Lemma batch_rows_going batch_start l :
  ∀ j ws k F Sv w,
    k = (batch_start + j - 1)%nat → (0 < j)%nat →
    (∀ i x, l !! i = Some x → rows !! (k + i)%nat = Some x) →
    translated_sheet ws0 insert_idx (take k rows) ws →
    Going k F Sv w →
    ∃ ws' w',
      for_with (enumerate j l) ws
        (translate_row task_id title_col_idx insert_idx N start batch_start) w
      = (Val ws', w') ∧
      translated_sheet ws0 insert_idx (take (k + length l) rows) ws' ∧
      Going (k + length l)%nat F Sv w'.
Proof.
  induction l as [|row l IH]; intros j ws k F Sv w Hk Hj Hl Hsheet Hw.
  - exists ws, w. rewrite Nat.add_0_r. done.
  - cbn [enumerate for_with]. unfold bind at 1.
    destruct (translate_row_going batch_start j row ws k F Sv w) as (s & w1 & -> & Hw1);
      [done | done | | done | done |].
    { rewrite <- (Nat.add_0_r k). by apply Hl. }
    destruct (IH (S j) (write_cell row insert_idx (CStr s) ws) (S k) F Sv w1)
      as (ws' & w' & -> & Hsheet' & Hw'); [lia | lia | | | done |].
    { intros i x Hi. replace (S k + i)%nat with (k + S i)%nat by lia. by apply Hl. }
    { apply translated_sheet_write; [|done]. rewrite <- (Nat.add_0_r k). by apply Hl. }
    exists ws', w'. cbn [length]. replace (k + S (length l))%nat with (S k + length l)%nat by lia.
    done.
Qed.

Lemma save_eq {R} wb path w :
  save_error (outside w) (steps w) = None →
  save (R:=R) wb path w =
    (Val tt, set_files (<[path := XlsxFile wb]> (files w)) (log (EvSave path wb) (ticked w))).
Proof.
  intros Hsave. unfold save, bind, tick, emit, the_world, ret.
  cbn [outside log]. rewrite outside_ticked, Hsave. cbn [files log]. by rewrite files_ticked.
Qed.

Lemma run_batch_going batch_start ws F Sv w :
  (batch_start < N)%nat →
  translated_sheet ws0 insert_idx (take batch_start rows) ws →
  Going batch_start F Sv w →
  ∃ ws' w',
    run_batch task_id title_col_idx insert_idx rows start output_path batch_start ws w
    = (Val ws', w') ∧
    translated_sheet ws0 insert_idx
      (take (batch_start + length (batch_rows_at rows batch_start)) rows) ws' ∧
    Going (batch_start + length (batch_rows_at rows batch_start))%nat
      (<[output_path := XlsxFile (Workbook (Some ws'))]> F) (output_path :: Sv) w'.
Proof.
  intros Hlt Hsheet Hw. unfold run_batch. cbv zeta. unfold bind at 1.
  rewrite get_state_eq.
  set (w1 := log (EvSnapshot task_id) (ticked w)).
  assert (Hw1 : Going batch_start F Sv w1).
  { eapply going_kept; [exact Hw|].
    eapply kept_trans; [apply kept_ticked | by apply kept_log]. }
  destruct Hw as (Ho & (rec & Hrec & Hrun) & _).
  rewrite lookup_ticked by (by rewrite Ho). rewrite Hrec.
  rewrite (running_at_truthy _ _ _ Hrun).
  destruct Hrun as (_ & _ & _ & ->).
  fold (batch_rows_at rows batch_start).
  destruct (batch_rows_going batch_start (batch_rows_at rows batch_start) 1 ws batch_start
              F Sv w1) as (ws' & w2 & Hloop & Hsheet' & Hw2); [lia | lia | | done | done |].
  { intros i x Hi. unfold batch_rows_at in Hi.
    apply lookup_take_Some in Hi as [Hi _]. by rewrite lookup_drop in Hi. }
  unfold bind at 1. rewrite Hloop.
  destruct Hw2 as (Ho2 & (rec2 & Hrec2 & Hrun2) & Ht2 & Hf2 & Hs2).
  unfold bind at 1. rewrite save_eq by (rewrite Ho2; apply working).
  unfold bind at 1. rewrite time_sleep_eq. unfold ret.
  exists ws'. eexists. split; [reflexivity|]. split; [done|].
  split_and!.
  - by wsimp.
  - exists rec2. split; [|done]. cbn [TASKS log set_files].
    rewrite lookup_ticked by (wsimp; by rewrite Ho2). cbn [TASKS log set_files].
    rewrite lookup_ticked by (by rewrite Ho2). done.
  - wsimp. exact Ht2.
  - wsimp. by rewrite Hf2.
  - saves_simpl. by rewrite Hs2.
Qed.

Lemma replicate_cons_app {A} n (x : A) l : replicate n x ++ x :: l = x :: replicate n x ++ l.
Proof. induction n as [|n IH]; simpl; [done | by rewrite IH]. Qed.

Lemma batch_end (i : nat) :
  (i * BATCH < N)%nat →
  (i * BATCH + length (batch_rows_at rows (i * BATCH)) = Nat.min (S i * BATCH) N)%nat.
Proof. intros Hi. unfold batch_rows_at. rewrite length_take, length_drop. unfold BATCH in *. lia. Qed.

Lemma batches_going n :
  ∀ i ws F Sv w,
    (∀ i', (i ≤ i' < i + n)%nat → (i' * BATCH < N)%nat) →
    translated_sheet ws0 insert_idx (take (Nat.min (i * BATCH) N) rows) ws →
    Going (Nat.min (i * BATCH) N) F Sv w →
    ∃ ws' w',
      for_with ((λ i, 0 + i * BATCH)%nat <$> seq i n) ws
        (run_batch task_id title_col_idx insert_idx rows start output_path) w
      = (Val ws', w') ∧
      (n = 0%nat → ws' = ws) ∧
      translated_sheet ws0 insert_idx (take (Nat.min ((i + n) * BATCH) N) rows) ws' ∧
      Going (Nat.min ((i + n) * BATCH) N)
        (match n with
         | 0%nat => F
         | _ => <[output_path := XlsxFile (Workbook (Some ws'))]> F
         end)
        (replicate n output_path ++ Sv) w'.
Proof.
  induction n as [|n IH]; intros i ws F Sv w Hin Hsheet Hw.
  - exists ws, w. rewrite Nat.add_0_r. done.
  - cbn [seq fmap list_fmap for_with]. unfold bind at 1.
    assert (Hi : (i * BATCH < N)%nat) by (apply Hin; lia).
    replace (Nat.min (i * BATCH) N) with (i * BATCH)%nat in * by lia.
    destruct (run_batch_going (i * BATCH) ws F Sv w Hi Hsheet Hw)
      as (ws1 & w1 & Hb & Hsheet1 & Hw1).
    rewrite batch_end in Hsheet1, Hw1 by done.
    change (0 + i * BATCH)%nat with (i * BATCH)%nat. rewrite Hb.
    destruct (IH (S i) ws1 (<[output_path := XlsxFile (Workbook (Some ws1))]> F)
                (output_path :: Sv) w1) as (ws' & w' & Hloop & Hnil & Hsheet' & Hw');
      [intros i' Hi'; apply Hin; lia | done | done |].
    change (list_fmap nat nat (λ i0 : nat, (0 + i0 * BATCH)%nat) (seq (S i) n))
      with ((λ i0 : nat, (0 + i0 * BATCH)%nat) <$> seq (S i) n).
    rewrite Hloop. exists ws', w'. split; [done|]. split; [done|].
    replace (i + S n)%nat with (S i + n)%nat by lia. split; [done|].
    cbn [replicate app]. rewrite replicate_cons_app in Hw'.
    destruct n as [|n].
    + by rewrite (Hnil eq_refl).
    + by rewrite insert_insert_eq in Hw'.
Qed.
End success.



Lemma with_translation_column_title ws title_col_idx r c :
  (c ≤ title_col_idx)%nat →
  cell_value_at (with_translation_column ws title_col_idx) r c = cell_value_at ws r c.
Proof.
  intros Hc. unfold with_translation_column. destruct (cell_differs _ _); [|done].
  rewrite cell_value_at_write_cell by lia. apply cell_value_at_insert_cols. lia.
Qed.

Lemma row_texts_column ws title_col_idx rows :
  row_texts (with_translation_column ws title_col_idx) title_col_idx rows
  = row_texts ws title_col_idx rows.
Proof.
  unfold row_texts. apply list_fmap_ext. intros _ r _.
  by rewrite with_translation_column_title.
Qed.

Lemma py_range_batches (total i : nat) :
  (i < length (py_range 0 total BATCH))%nat → (i * BATCH < total)%nat.
Proof.
  unfold py_range. rewrite length_fmap, length_seq. unfold BATCH. intros Hi.
  pose proof (Nat.div_mod_eq (total - 0 + 10 - 1) 10).
  pose proof (Nat.mod_upper_bound (total - 0 + 10 - 1) 10). lia.
Qed.

Lemma run_task_body_success file_path task_id w ws title_col_idx rec :
  quiet_for task_id (outside w) → saves_work (outside w) →
  clean_endpoint (outside w) →
  TASKS w !! task_id = Some rec →
  status_is "running" rec → truthy (dict_get rec "cancel_requested") = false →
  files w !! file_path = Some (XlsxFile (Workbook (Some ws))) →
  find_title 1 (row_values ws 1) = Some title_col_idx →
  rows_to_translate ws title_col_idx ≠ [] →
  let rows := rows_to_translate ws title_col_idx in
  ∃ out w',
    run_task_body file_path task_id w = (Val tt, w') ∧
    outside w' = outside w ∧
    (∃ rec', TASKS w' !! task_id = Some rec' ∧
             done_all (length rows) (basename (output_path_of file_path)) rec') ∧
    translations (trace w')
      = rev (row_texts ws title_col_idx rows) ++ translations (trace w) ∧
    saves (trace w')
      = replicate (length (py_range 0 (length rows) BATCH)) (output_path_of file_path)
        ++ saves (trace w) ∧
    files w' = <[output_path_of file_path := XlsxFile (Workbook (Some out))]> (files w) ∧
    translated_sheet (with_translation_column ws title_col_idx) (title_col_idx + 1)
      rows out.
Proof.
  intros Hquiet Hwork Hclean Hrec Hstatus Hflag Hfile Htitle Hrows. cbv zeta.
  unfold run_task_body, bind at 1.
  rewrite load_workbook_eq, Hfile. cbn [active]. unfold bind at 1, ret at 1.
  rewrite Htitle. unfold bind at 1, ret at 1. cbv zeta.
  rewrite rows_to_translate_column.
  set (rows := rows_to_translate ws title_col_idx) in *.
  set (ws0 := with_translation_column ws title_col_idx).
  unfold bind at 1. rewrite safe_update_eq.
  destruct (Nat.eqb_spec (length rows) 0) as [Hz|Hnz].
  { destruct rows; [done | discriminate Hz]. }
  unfold bind at 1. rewrite time_time_eq. cbv zeta.
  fold (output_path_of file_path).
  set (start := clock _ _).
  set (w3 := ticked (updated _ _ _)).
  set (kv0 := ({[ "total" := VInt (Z.of_nat (length rows)); "current" := VInt 0 ]} : record)).
  assert (Hq : ∀ w0, outside w0 = outside w → quiet_for task_id (outside w0)).
  { by intros w0 ->. }
  assert (Hrec3 : TASKS w3 !! task_id = Some (kv0 ∪ rec)).
  { unfold w3. rewrite lookup_ticked by (apply Hq; by wsimp).
    apply lookup_updated; [|by eapply dict_truthy_lookup].
    rewrite !lookup_ticked; [done | apply Hq; by wsimp..]. }
  assert (Hw3 : going task_id (outside w) ws0 title_col_idx rows (translations (trace w))
                  (Nat.min (0 * BATCH) (length rows)) (files w) (saves (trace w)) w3).
  { unfold w3. split_and!.
    - by wsimp.
    - exists (kv0 ∪ rec). split; [done|].
      unfold running_at, status_is, dict_get. rewrite !lookup_update.
      unfold status_is in Hstatus. rewrite Hstatus. split_and!; [done..|].
      unfold dict_get in Hflag. exact Hflag.
    - unfold updated. by wsimp.
    - by wsimp.
    - unfold updated. by wsimp. }
  unfold py_range.
  destruct (batches_going task_id (outside w) ws0 title_col_idx rows (translations (trace w))
              start (output_path_of file_path) Hquiet Hwork Hclean
              ((length rows - 0 + BATCH - 1) / BATCH) 0 ws0 (files w) (saves (trace w)) w3)
    as (out & w4 & Hloop & _ & Hsheet & Hw4).
  { intros i Hi. apply py_range_batches. unfold py_range.
    rewrite length_fmap, length_seq. lia. }
  { cbn [Nat.mul Nat.min take]. split_and!; [done | |done].
    intros r Hr. by apply elem_of_nil in Hr. }
  { exact Hw3. }
  unfold bind at 1. fold w3. rewrite Hloop.
  assert (Hall : Nat.min ((0 + (length rows - 0 + BATCH - 1) / BATCH) * BATCH) (length rows)
                 = length rows).
  { pose proof (py_range_covers (length rows)) as Hc. revert Hc. unfold BATCH. lia. }
  rewrite Hall in Hsheet, Hw4. rewrite firstn_all in Hsheet.
  destruct ((length rows - 0 + BATCH - 1) / BATCH)%nat as [|nb] eqn:Hnb.
  { exfalso. revert Hall. unfold BATCH. lia. }
  destruct Hw4 as (Ho4 & (rec4 & Hrec4 & Hrun4) & Ht4 & Hf4 & Hs4).
  unfold bind at 1. rewrite time_time_eq, safe_update_eq.
  exists out. eexists. split; [reflexivity|]. split_and!.
  - wsimp. exact Ho4.
  - eexists. split.
    + apply lookup_updated; [|by eapply running_at_truthy].
      rewrite !lookup_ticked; [exact Hrec4 | apply Hq; by wsimp..].
    + destruct Hrun4 as (Hst4 & Htot4 & Hcur4 & _).
      unfold done_all, status_is, has_field. rewrite !lookup_update.
      rewrite Htot4, Hcur4. split_and!; [done..|by eexists].
  - unfold updated. wsimp. rewrite Ht4. rewrite firstn_all.
    unfold ws0. by rewrite row_texts_column.
  - saves_simpl. rewrite Hs4. by rewrite length_fmap, length_seq.
  - unfold updated. wsimp. by rewrite Hf4.
  - exact Hsheet.
Qed.



Lemma run_task_finally_keeps file_path task_id w :
  ∃ w', run_task_finally file_path task_id w = (Val tt, w') ∧
        outside w' = outside w ∧
        (quiet_for task_id (outside w) → TASKS w' !! task_id = TASKS w !! task_id) ∧
        (∀ p, under (dirname file_path) p = false → files w' !! p = files w !! p).
Proof.
  unfold run_task_finally, bind, try_except, the_world, _schedule_state_cleanup, rmtree,
    tick, emit, ret.
  destruct (isdir (files w) (dirname file_path)).
  - eexists. split; [reflexivity|]. split_and!.
    + by wsimp.
    + intros Hq. cbn [TASKS log set_files].
      rewrite lookup_ticked by (wsimp; done). cbn [TASKS log set_files].
      by rewrite lookup_ticked.
    + intros p Hp. cbn [files log set_files]. rewrite files_ticked. cbn [files log set_files].
      rewrite files_ticked.
      destruct (files w !! p) as [f|] eqn:Hf.
      * by apply map_lookup_filter_Some.
      * apply map_lookup_filter_None. left. done.
  - eexists. split; [reflexivity|]. split_and!.
    + by wsimp.
    + intros Hq. cbn [TASKS log]. by rewrite lookup_ticked.
    + intros p Hp. cbn [files log]. by rewrite files_ticked.
Qed.

(** What a run that nothing disturbs leaves. *)
Lemma run_task_success w task_id file_path filename ws title_col_idx :
  undisturbed w task_id file_path filename ws title_col_idx →
  let rows := rows_to_translate ws title_col_idx in
  ∃ out w',
    _run_task file_path task_id w = (Val tt, w') ∧
    (∃ rec, TASKS w' !! task_id = Some rec ∧
            done_all (length rows) (basename (output_path_of file_path)) rec) ∧
    translations (trace w')
      = rev (row_texts ws title_col_idx rows) ++ translations (trace w) ∧
    saves (trace w')
      = replicate (length (py_range 0 (length rows) BATCH)) (output_path_of file_path)
        ++ saves (trace w) ∧
    (∀ p, under (dirname file_path) p = false →
          files w' !! p
          = (<[output_path_of file_path := XlsxFile (Workbook (Some out))]> (files w)) !! p) ∧
    translated_sheet (with_translation_column ws title_col_idx) (title_col_idx + 1)
      rows out.
Proof.
  intros (HT & Hfile & Htitle & Hrows & Hquiet & Hwork & Hclean). cbv zeta.
  unfold _run_task, bind at 1. rewrite time_time_eq. unfold bind at 1.
  rewrite safe_update_eq. set (w2 := updated _ _ _).
  set (kv := ({[ "status" := VStr (utf8 "running"); "message" := VStr (utf8 "读取文件...");
                 "percent" := VInt 0;
                 "started_at" := VFloat (clock (outside w) (steps w)) ]} : record)).
  assert (Hrec2 : TASKS w2 !! task_id = Some (kv ∪ initial_state file_path filename)).
  { unfold w2. apply lookup_updated; [|by eapply (dict_truthy_lookup _ "status")].
    by rewrite !lookup_ticked by (by wsimp). }
  destruct (run_task_body_success file_path task_id w2 ws title_col_idx
              (kv ∪ initial_state file_path filename))
    as (out & w3 & Hbody & Ho3 & (rec3 & Hrec3 & Hdone3) & Ht3 & Hs3 & Hf3 & Hsheet);
    [by unfold w2; wsimp | by unfold w2; wsimp | by unfold w2; wsimp | done | | |
    | done | done |].
  { unfold status_is. by rewrite lookup_update. }
  { unfold dict_get. by rewrite lookup_update. }
  { unfold w2. by rewrite files_updated, !files_ticked. }
  unfold try_finally, try_except. rewrite Hbody.
  pose proof (run_task_finally_trace file_path task_id w3) as (_ & Htrans & Hsaves).
  destruct (run_task_finally_keeps file_path task_id w3) as (w' & Hfin & Ho' & HT' & Hf').
  rewrite Hfin in *. cbn [snd] in *.
  exists out, w'. split; [done|]. split_and!.
  - exists rec3. split; [|done]. rewrite HT'; [done|]. rewrite Ho3. unfold w2. by wsimp.
  - rewrite Htrans, Ht3. unfold w2, updated. by wsimp.
  - rewrite Hsaves, Hs3. unfold w2. by saves_simpl.
  - intros p Hp. rewrite Hf' by done. rewrite Hf3. unfold w2.
    by rewrite files_updated, !files_ticked.
  - done.
Qed.

Lemma translation_column_header ws title_col_idx :
  cell_value_at (with_translation_column ws title_col_idx) 1 (title_col_idx + 1)
  = CStr (utf8 "中文").
Proof.
  unfold with_translation_column. destruct (cell_differs _ _) eqn:Hd.
  - apply cell_value_at_write_cell_eq.
  - by apply cell_differs_false.
Qed.

Lemma rows_to_translate_below_header ws title_col_idx r :
  r ∈ rows_to_translate ws title_col_idx → (2 ≤ r)%nat.
Proof.
  unfold rows_to_translate. intros [_ Hr%elem_of_seq]%list_elem_of_filter. lia.
Qed.






(** ** A task canceled before its first batch *)

Lemma flag_on_flag_blind : flag_blind flag_on.
Proof. intros rec _. unfold flag_on, dict_get. by rewrite lookup_update. Qed.

Lemma canceled_at_start_flag_blind N : flag_blind (canceled_at_start N).
Proof.
  intros rec (H1 & H2 & H3 & H4). unfold canceled_at_start, status_is.
  by rewrite !lookup_update, H1, H2, H3, H4.
Qed.

Lemma py_range_first total :
  (0 < total)%nat → ∃ rest, py_range 0 total BATCH = 0%nat :: rest.
Proof.
  intros Htotal. unfold py_range.
  destruct ((total - 0 + BATCH - 1) / BATCH)%nat as [|n] eqn:Hn.
  - exfalso. pose proof (py_range_covers total) as Hc. rewrite Hn in Hc. lia.
  - by eexists.
Qed.

Lemma run_task_body_canceled file_path task_id w ws title_col_idx :
  record_has task_id flag_on (TASKS w) →
  files w !! file_path = Some (XlsxFile (Workbook (Some ws))) →
  find_title 1 (row_values ws 1) = Some title_col_idx →
  rows_to_translate ws title_col_idx ≠ [] →
  ∃ w', run_task_body file_path task_id w = (Ret tt, w') ∧
        record_has task_id
          (canceled_at_start (length (rows_to_translate ws title_col_idx))) (TASKS w') ∧
        files w' = files w ∧
        translations (trace w') = translations (trace w) ∧
        requests (trace w') = requests (trace w) ∧
        saves (trace w') = saves (trace w).
Proof.
  intros Hrec Hfile Htitle Hrows. unfold run_task_body, bind at 1.
  rewrite load_workbook_eq, Hfile. cbn [active]. unfold bind at 1, ret at 1.
  rewrite Htitle. unfold bind at 1, ret at 1. cbv zeta.
  rewrite rows_to_translate_column.
  set (rows := rows_to_translate ws title_col_idx) in *.
  unfold bind at 1. rewrite safe_update_eq.
  destruct (Nat.eqb_spec (length rows) 0) as [Hz|Hnz].
  { destruct rows; [done | discriminate Hz]. }
  unfold bind at 1. rewrite time_time_eq. cbv zeta.
  destruct (py_range_first (length rows)) as [rest ->]; [lia|].
  cbn [for_with]. unfold bind at 1 2. unfold run_batch. cbv zeta. unfold bind at 1.
  rewrite get_state_eq.
  set (w3 := ticked (ticked (updated _ _ _))).
  assert (H3 : record_has task_id
                 (λ rec, flag_on rec ∧ rec !! "total" = Some (VInt (Z.of_nat (length rows)))
                         ∧ rec !! "current" = Some (VInt 0)) (TASKS w3)).
  { unfold w3.
    assert (Hblind : flag_blind (λ rec, flag_on rec ∧
                       rec !! "total" = Some (VInt (Z.of_nat (length rows))) ∧
                       rec !! "current" = Some (VInt 0))).
    { intros rec (H1 & H2 & H3). unfold flag_on, dict_get.
      by rewrite !lookup_update, H2, H3. }
    do 2 (apply record_has_ticked; [done|]).
    apply (record_has_updated _ flag_on).
    { intros rec Hflag. unfold flag_on, dict_get in *. by rewrite !lookup_update. }
    do 2 (apply record_has_ticked; [apply flag_on_flag_blind|]). done. }
  destruct H3 as (rec & Hrec3 & Htruthy & Hflag & Htot & Hcur).
  rewrite Hrec3, Htruthy. unfold flag_on in Hflag. rewrite Hflag.
  unfold bind at 1. rewrite safe_update_eq. unfold Return.
  eexists. split; [reflexivity|]. split_and!.
  - apply (record_has_updated _ (λ rec, rec !! "total" = Some (VInt (Z.of_nat (length rows)))
                                        ∧ rec !! "current" = Some (VInt 0))).
    { intros rec' (H1 & H2). unfold canceled_at_start, status_is.
      by rewrite !lookup_update, H1, H2. }
    apply record_has_ticked.
    { intros rec' (H1 & H2). by rewrite !lookup_update, H1, H2. }
    cbn [TASKS log]. exists rec. split; [done|]. by split.
  - unfold w3, updated. by wsimp.
  - unfold w3, updated. by wsimp.
  - unfold w3, updated. by wsimp.
  - unfold w3. by saves_simpl.
Qed.

(** X22. When the cancel flag is already set as the worker starts, the
    task is canceled at the first check: no row is translated, the endpoint
    is not called, no workbook is saved, and the record shows the number of
    rows found with none of them done. *)
Theorem canceled_before_first_batch (w : world) (task_id : string)
    (file_path : pystr) (ws : worksheet) (title_col_idx : nat) :
  record_has task_id flag_on (TASKS w) →
  files w !! file_path = Some (XlsxFile (Workbook (Some ws))) →
  find_title 1 (row_values ws 1) = Some title_col_idx →
  rows_to_translate ws title_col_idx ≠ [] →
  ∃ w', _run_task file_path task_id w = (Ret tt, w') ∧
        record_has task_id
          (canceled_at_start (length (rows_to_translate ws title_col_idx))) (TASKS w') ∧
        translations (trace w') = translations (trace w) ∧
        requests (trace w') = requests (trace w) ∧
        saves (trace w') = saves (trace w).
Proof.
  intros Hrec Hfile Htitle Hrows. unfold _run_task, bind at 1.
  rewrite time_time_eq. unfold bind at 1. rewrite safe_update_eq.
  set (w2 := updated _ _ _).
  assert (Hrec2 : record_has task_id flag_on (TASKS w2)).
  { unfold w2. apply (record_has_updated _ flag_on).
    { intros rec Hflag. unfold flag_on, dict_get in *. by rewrite !lookup_update. }
    do 2 (apply record_has_ticked; [apply flag_on_flag_blind|]). done. }
  assert (Hfile2 : files w2 !! file_path = Some (XlsxFile (Workbook (Some ws)))).
  { unfold w2. by rewrite files_updated, !files_ticked. }
  destruct (run_task_body_canceled _ _ _ _ _ Hrec2 Hfile2 Htitle Hrows)
    as (w3 & Hbody & Hrec3 & _ & Ht3 & Hr3 & Hs3).
  unfold try_finally, try_except. rewrite Hbody.
  pose proof (run_task_finally_trace file_path task_id w3) as (Hreq & Htrans & Hsaves).
  destruct (run_task_finally_eq file_path task_id w3) as (w' & Hfin & Hevo & _ & _).
  rewrite Hfin in *. cbn [snd] in *.
  exists w'. split; [done|]. split_and!.
  - apply (record_has_stable task_id _ _ (canceled_at_start_flag_blind _) _ _ Hevo Hrec3).
  - rewrite Htrans, Ht3. unfold w2, updated. by wsimp.
  - rewrite Hreq, Hr3. unfold w2, updated. by wsimp.
  - rewrite Hsaves, Hs3. unfold w2. by saves_simpl.
Qed.



(** ** A run whose save fails *)

Lemma save_fails_eq {R} wb path w e :
  save_error (outside w) (steps w) = Some e →
  save (R:=R) wb path w = (Exc e, log (EvSave path wb) (ticked w)).
Proof.
  intros Hsave. unfold save, bind, tick, emit, the_world, ret.
  cbn [outside log]. by rewrite outside_ticked, Hsave.
Qed.

Lemma take_batch_rows_at (rows : list nat) :
  take (length (batch_rows_at rows 0)) rows = batch_rows_at rows 0.
Proof.
  unfold batch_rows_at. rewrite drop_0, length_take.
  destruct (Nat.le_ge_cases BATCH (length rows)) as [Hle|Hge].
  - by rewrite Nat.min_l.
  - rewrite Nat.min_r by done. by rewrite firstn_all, take_ge.
Qed.

Lemma run_task_body_save_fails file_path task_id w ws title_col_idx rec e :
  quiet_for task_id (outside w) → saves_fail (outside w) e →
  clean_endpoint (outside w) →
  TASKS w !! task_id = Some rec →
  status_is "running" rec → truthy (dict_get rec "cancel_requested") = false →
  files w !! file_path = Some (XlsxFile (Workbook (Some ws))) →
  find_title 1 (row_values ws 1) = Some title_col_idx →
  rows_to_translate ws title_col_idx ≠ [] →
  let rows := rows_to_translate ws title_col_idx in
  ∃ w',
    run_task_body file_path task_id w = (Exc e, w') ∧
    outside w' = outside w ∧
    (∃ rec', TASKS w' !! task_id = Some rec' ∧
             running_at (length rows) (length (batch_rows_at rows 0)) rec') ∧
    translations (trace w')
      = rev (row_texts ws title_col_idx (batch_rows_at rows 0)) ++ translations (trace w) ∧
    saves (trace w') = output_path_of file_path :: saves (trace w) ∧
    files w' = files w.
Proof.
  intros Hquiet Hfail Hclean Hrec Hstatus Hflag Hfile Htitle Hrows. cbv zeta.
  unfold run_task_body, bind at 1.
  rewrite load_workbook_eq, Hfile. cbn [active]. unfold bind at 1, ret at 1.
  rewrite Htitle. unfold bind at 1, ret at 1. cbv zeta.
  rewrite rows_to_translate_column.
  set (rows := rows_to_translate ws title_col_idx) in *.
  set (ws0 := with_translation_column ws title_col_idx).
  unfold bind at 1. rewrite safe_update_eq.
  destruct (Nat.eqb_spec (length rows) 0) as [Hz|Hnz].
  { destruct rows; [done | discriminate Hz]. }
  unfold bind at 1. rewrite time_time_eq. cbv zeta.
  fold (output_path_of file_path).
  set (start := clock _ _).
  set (w3 := ticked (updated _ _ _)).
  set (kv0 := ({[ "total" := VInt (Z.of_nat (length rows)); "current" := VInt 0 ]} : record)).
  assert (Hq : ∀ w0, outside w0 = outside w → quiet_for task_id (outside w0)).
  { by intros w0 ->. }
  assert (Hrec3 : TASKS w3 !! task_id = Some (kv0 ∪ rec)).
  { unfold w3. rewrite lookup_ticked by (apply Hq; by wsimp).
    apply lookup_updated; [|by eapply dict_truthy_lookup].
    rewrite !lookup_ticked; [done | apply Hq; by wsimp..]. }
  assert (Hrun3 : running_at (length rows) 0 (kv0 ∪ rec)).
  { unfold running_at, status_is, dict_get. rewrite !lookup_update.
    unfold status_is in Hstatus. rewrite Hstatus. split_and!; [done..|].
    unfold dict_get in Hflag. exact Hflag. }
  assert (Hw3 : going task_id (outside w) ws0 title_col_idx rows (translations (trace w))
                  0 (files w) (saves (trace w)) w3).
  { unfold w3. split_and!.
    - by wsimp.
    - by exists (kv0 ∪ rec).
    - unfold updated. by wsimp.
    - by wsimp.
    - unfold updated. by wsimp. }
  destruct (py_range_first (length rows)) as [rest ->]; [lia|].
  cbn [for_with]. unfold bind at 1 2. unfold run_batch. cbv zeta. unfold bind at 1.
  rewrite get_state_eq.
  set (w4 := log (EvSnapshot task_id) (ticked w3)).
  assert (Hw4 : going task_id (outside w) ws0 title_col_idx rows (translations (trace w))
                  0 (files w) (saves (trace w)) w4).
  { eapply going_kept; [exact Hquiet | exact Hw3 |].
    eapply kept_trans; [apply kept_ticked | by apply kept_log]. }
  rewrite lookup_ticked by (apply Hq; unfold w3; by wsimp). rewrite Hrec3.
  rewrite (running_at_truthy _ _ _ Hrun3).
  destruct Hrun3 as (_ & _ & _ & Hflag3). rewrite Hflag3.
  fold (batch_rows_at rows 0).
  destruct (batch_rows_going task_id (outside w) ws0 title_col_idx rows
              (translations (trace w)) start Hquiet Hclean 0 (batch_rows_at rows 0) 1 ws0 0
              (files w) (saves (trace w)) w4)
    as (ws' & w5 & Hloop & _ & Hw5); [lia | lia | | | done |].
  { intros i x Hi. unfold batch_rows_at in Hi.
    apply lookup_take_Some in Hi as [Hi _]. by rewrite lookup_drop in Hi. }
  { cbn [take]. split_and!; [done | |done]. intros r Hr. by apply elem_of_nil in Hr. }
  unfold bind at 1. rewrite Hloop.
  destruct Hw5 as (Ho5 & Hrec5 & Ht5 & Hf5 & Hs5). cbn [Nat.add] in *.
  unfold bind at 1. rewrite (save_fails_eq _ _ _ e) by (rewrite Ho5; apply Hfail).
  eexists. split; [reflexivity|]. split_and!.
  - by wsimp.
  - destruct Hrec5 as (rec5 & Hrec5 & Hrun5). exists rec5. split; [|done].
    cbn [TASKS log]. rewrite lookup_ticked by (by apply Hq). done.
  - wsimp. rewrite Ht5, take_batch_rows_at. unfold ws0. by rewrite row_texts_column.
  - saves_simpl. by rewrite Hs5.
  - wsimp. exact Hf5.
Qed.




(** ** The routes *)

Lemma request_cancel_is_Some tid T task_id :
  is_Some (request_cancel tid T !! task_id) ↔ is_Some (T !! task_id).
Proof.
  unfold request_cancel. destruct (decide (tid = task_id)) as [->|Hne].
  - unfold safe_update_tasks. destruct (T !! task_id) as [st|] eqn:Hst.
    + destruct (dict_truthy st).
      * rewrite lookup_insert_eq. split; by eexists.
      * by rewrite Hst.
    + by rewrite Hst.
  - by rewrite safe_update_tasks_other.
Qed.

Lemma foldr_deliver_is_Some task_id w l :
  is_Some (TASKS (foldr deliver w l) !! task_id) ↔ is_Some (TASKS w !! task_id).
Proof.
  induction l as [|tid l IH]; [done|]. simpl. by rewrite request_cancel_is_Some.
Qed.

Lemma ticked_is_Some task_id w :
  is_Some (TASKS (ticked w) !! task_id) ↔ is_Some (TASKS w !! task_id).
Proof. unfold ticked. cbn [TASKS set_steps]. apply foldr_deliver_is_Some. Qed.

Lemma ticked_None task_id w :
  TASKS w !! task_id = None → TASKS (ticked w) !! task_id = None.
Proof.
  intros Hnone. apply eq_None_not_Some. rewrite ticked_is_Some, Hnone.
  by intros [? ?].
Qed.

(** X18. On a registry the program built, the status route answers 404
    with an error object exactly when the task is not in the registry (never
    registered, or evicted); otherwise it answers 200 with the record as it
    is in the registry at that moment. *)
Theorem task_status_404_iff_absent {R} (w : world) (task_id : string) :
  reachable (TASKS w) →
  let '(r, w') := task_status (R:=R) task_id w in
  match TASKS w !! task_id with
  | None => r = Val (404, {[ "error" := VStr (utf8 "任务不存在") ]})
  | Some _ => ∃ st, TASKS w' !! task_id = Some st ∧ r = Val (200, st)
  end.
Proof.
  intros Hreach. unfold task_status, bind. rewrite get_state_eq.
  destruct (TASKS w !! task_id) as [st0|] eqn:Hst0.
  - assert (is_Some (TASKS (ticked w) !! task_id)) as [st Hst].
    { apply ticked_is_Some. by rewrite Hst0. }
    rewrite Hst.
    rewrite (reachable_truthy _ (reachable_ticked _ Hreach) _ _ Hst).
    rewrite (reachable_truthy _ (reachable_ticked _ Hreach) _ _ Hst).
    exists st. by split.
  - by rewrite (ticked_None _ _ Hst0).
Qed.

Section sse_facts.
Context (float_str : Q → pystr).

(** X19. For a task that is not in the registry the event stream holds one
    message, the error object, and is over: the generator does not sleep and
    asks for the state once. *)
Theorem sse_unknown_task_ends_at_once {R} (w : world) (task_id : string) (turns : nat) :
  TASKS w !! task_id = None →
  sse_progress (R:=R) float_str (S turns) task_id w
  = (Val ([SseData {[ "status" := VStr (utf8 "error");
                      "message" := VStr (utf8 "任务不存在") ]}], true),
     log (EvSnapshot task_id) (ticked w)).
Proof.
  intros Hnone. cbn [sse_progress]. unfold bind at 1, sse_turn, bind at 1.
  rewrite get_state_eq, (ticked_None _ _ Hnone). done.
Qed.

Lemma view_status_terminal rec :
  terminal_view (view_of rec) →
  is_terminal (dict_get rec "status") = true ∧
  (rec !! "download_filename" ≠ None → status_is "done" rec).
Proof.
  unfold dict_get, status_is.
  intros [(N & c & _ & _ & f & t & Hv)|[[Hv|(N & c & _ & Hv)]|(N & c & _ & t & Hv)]];
    apply view_of_fields in Hv as (Hs & _ & _ & _ & Hd & _); rewrite Hs, Hd;
    (split; [by vm_compute | done]).
Qed.

(** X20. Once a run has ended, the event stream of its task holds one
    progress message and is over, without a sleep: the message carries a
    terminal status, and it offers a download link only if the status is
    done. *)
Theorem sse_finished_task_one_message {R} (w : world) (task_id : string)
    (file_path filename : pystr) (turns : nat) :
  TASKS w !! task_id = Some (initial_state file_path filename) →
  trace w = [] →
  let w' := (_run_task file_path task_id w).2 in
  ∃ st,
    TASKS (ticked w') !! task_id = Some st ∧
    sse_progress (R:=R) float_str (S turns) task_id w'
    = (Val ([SseEvent (utf8 "progress") (sse_payload float_str task_id st)], true),
       log (EvSnapshot task_id) (ticked w')) ∧
    is_terminal (dict_get (sse_payload float_str task_id st) "status") = true ∧
    (dict_get (sse_payload float_str task_id st) "download_url" ≠ VNone →
     dict_get (sse_payload float_str task_id st) "status" = VStr (utf8 "done")).
Proof.
  intros HT Htr. cbv zeta. set (w' := (_run_task file_path task_id w).2).
  pose proof (run_task_terminal file_path task_id w
                (Hist_initial _ _ file_path filename HT Htr)) as Hend.
  fold w' in Hend.
  assert (Hist task_id terminal_view (see (ticked w'))) as [(st & Hst & Hv) _].
  { eapply (Hist_stable task_id terminal_view terminal_view_shaped);
      [apply evo_ticked | done]. }
  cbn [fst see] in Hst.
  destruct (view_status_terminal st Hv) as [Hterm Hlink].
  assert (Htruthy : dict_truthy st = true).
  { apply shaped_truthy. by apply terminal_view_shaped. }
  exists st. split; [done|].
  assert (Hstatus : dict_get (sse_payload float_str task_id st) "status"
                    = dict_get st "status") by reflexivity.
  split_and!.
  - cbn [sse_progress]. unfold bind at 1, sse_turn, bind at 1.
    rewrite get_state_eq, Hst, Htruthy. cbv beta iota zeta.
    rewrite Htruthy. cbn [negb]. by rewrite Hterm.
  - by rewrite Hstatus.
  - rewrite Hstatus.
    assert (Hurl : dict_get (sse_payload float_str task_id st) "download_url"
              = if truthy (dict_get st "download_filename")
                then VStr (utf8 "/download/"
                           ++ format_value float_str (dict_get st "download_filename"))
                else VNone) by reflexivity.
    rewrite Hurl. intros Hne.
    assert (st !! "download_filename" ≠ None) as Hd.
    { intros Hd. apply Hne. unfold dict_get. by rewrite Hd. }
    specialize (Hlink Hd). unfold dict_get, status_is in *. by rewrite Hlink.
Qed.
End sse_facts.



(** ** The theorems at sample inputs *)

Lemma percent_full_only_at_end_witness :
  ∃ p, percent_of 7 25 = inr p ∧ p = Z.of_nat 7 * 100 / Z.of_nat 25 ∧
       0 ≤ p ≤ 100 ∧ (p = 100 ↔ 7%nat = 25%nat).
Proof. apply (percent_full_only_at_end 7 25); lia. Defined.

Lemma eta_never_raises_witness :
  ∃ eta, eta_seconds 25 7 (py_max (12 - 2) (1 # 1000000)) = inr eta ∧
         0 ≤ eta ∧ (7%nat = 25%nat → eta = 0).
Proof. apply (eta_never_raises 25 7 12 2); lia. Defined.

Lemma translate_text_joins_segments_witness :
  ∃ w', call (R:=unit) (translate_text (utf8 "hello")) (sample_world flaky_env header_only)
        = (Val (concat (fst <$> [(utf8 "你好", [PStr (utf8 "hello")])])), w') ∧
        requests (trace w') = replicate 2 (take 5000 (utf8 "hello")) ++ [] ∧
        sleeps (trace w') = rev (take 1 BACKOFFS) ++ [].
Proof.
  apply (translate_text_joins_segments (utf8 "hello") (sample_world flaky_env header_only)
           1 [(utf8 "你好", [PStr (utf8 "hello")])] []).
  - reflexivity.
  - lia.
  - discriminate.
  - intros i Hi. assert (i = 0%nat) as -> by lia. simpl. lia.
  - reflexivity.
Defined.

Lemma translate_text_empty_answer_witness :
  ∃ w', call (R:=unit) (translate_text (utf8 "hello"))
          (sample_world (sample_env empty_reply []) header_only)
        = (Val FAILED, w') ∧
        requests (trace w') = take 5000 (utf8 "hello") :: [] ∧
        sleeps (trace w') = [].
Proof.
  apply (translate_text_empty_answer (utf8 "hello")
           (sample_world (sample_env empty_reply []) header_only) (PList [])).
  - reflexivity.
  - reflexivity.
  - left. reflexivity.
Defined.

Lemma run_ends_in_terminal_status_witness :
  ∃ rec, TASKS (_run_task sample_path "t1"
                  (sample_world (sample_env translated_reply [8%nat]) long_sheet)).2 !! "t1"
         = Some rec ∧
         (status_is "done" rec ∨ status_is "canceled" rec ∨ status_is "error" rec).
Proof.
  apply (run_ends_in_terminal_status
           (sample_world (sample_env translated_reply [8%nat]) long_sheet)
           "t1" sample_path sample_name); reflexivity.
Defined.

Lemma unusable_file_ends_in_error_witness :
  ∃ w', _run_task sample_path "t1" (sample_world (sample_env translated_reply []) no_title)
        = (Val tt, w') ∧
        record_has "t1" (failed_with (utf8 "找不到 Title 列")) (TASKS w') ∧
        translations (trace w') = [] ∧ requests (trace w') = [] ∧ saves (trace w') = [].
Proof.
  apply (unusable_file_ends_in_error
           (sample_world (sample_env translated_reply []) no_title)
           "t1" sample_path sample_name (ValueError (utf8 "找不到 Title 列")));
    reflexivity.
Defined.

Lemma sample_undisturbed :
  undisturbed (sample_world (sample_env translated_reply []) long_sheet)
    "t1" sample_path sample_name long_sheet 1.
Proof.
  split; [reflexivity|]. split; [reflexivity|]. split; [reflexivity|].
  split; [by vm_compute|]. split; [intros n; apply not_elem_of_nil|].
  split; [by intros n|].
  intros n r data [= <-] [= <-]. reflexivity.
Defined.




Lemma task_status_404_iff_absent_witness :
  let '(r, w') := task_status (R:=unit) "t1"
                    (sample_world (sample_env translated_reply []) header_only) in
  match TASKS (sample_world (sample_env translated_reply []) header_only) !! "t1" with
  | None => r = Val (404, {[ "error" := VStr (utf8 "任务不存在") ]})
  | Some _ => ∃ st, TASKS w' !! "t1" = Some st ∧ r = Val (200, st)
  end.
Proof.
  apply (task_status_404_iff_absent
           (sample_world (sample_env translated_reply []) header_only) "t1").
  apply (reach_create ∅ "t1" sample_path sample_name), reach_start.
Defined.

Lemma sse_unknown_task_ends_at_once_witness :
  sse_progress (R:=unit) (λ _, []) 3 "t2"
    (sample_world (sample_env translated_reply []) header_only)
  = (Val ([SseData {[ "status" := VStr (utf8 "error");
                      "message" := VStr (utf8 "任务不存在") ]}], true),
     log (EvSnapshot "t2")
       (ticked (sample_world (sample_env translated_reply []) header_only))).
Proof.
  apply (sse_unknown_task_ends_at_once (λ _, [])
           (sample_world (sample_env translated_reply []) header_only) "t2" 2).
  reflexivity.
Defined.

Lemma sse_finished_task_one_message_witness :
  let w' := (_run_task sample_path "t1"
               (sample_world (sample_env translated_reply [8%nat]) long_sheet)).2 in
  ∃ st,
    TASKS (ticked w') !! "t1" = Some st ∧
    sse_progress (R:=unit) (λ _, []) 3 "t1" w'
    = (Val ([SseEvent (utf8 "progress") (sse_payload (λ _, []) "t1" st)], true),
       log (EvSnapshot "t1") (ticked w')) ∧
    is_terminal (dict_get (sse_payload (λ _, []) "t1" st) "status") = true ∧
    (dict_get (sse_payload (λ _, []) "t1" st) "download_url" ≠ VNone →
     dict_get (sse_payload (λ _, []) "t1" st) "status" = VStr (utf8 "done")).
Proof.
  apply (sse_finished_task_one_message (λ _, [])
           (sample_world (sample_env translated_reply [8%nat]) long_sheet)
           "t1" sample_path sample_name 2); reflexivity.
Defined.

Lemma title_header_any_case_and_padding_witness :
  reads_title (CStr (utf8 "  " ++ utf8 "TiTLE" ++ utf8 " ")) = true.
Proof.
  apply (title_header_any_case_and_padding (utf8 "  ") (utf8 "TiTLE") (utf8 " "));
    reflexivity.
Defined.

Lemma canceled_before_first_batch_witness :
  ∃ w', _run_task sample_path "t1"
          (flagged_world (sample_env translated_reply []) long_sheet) = (Ret tt, w') ∧
        record_has "t1" (canceled_at_start (length (rows_to_translate long_sheet 1)))
          (TASKS w') ∧
        translations (trace w') = [] ∧ requests (trace w') = [] ∧ saves (trace w') = [].
Proof.
  apply (canceled_before_first_batch
           (flagged_world (sample_env translated_reply []) long_sheet)
           "t1" sample_path long_sheet 1).
  - eexists. split; [reflexivity|]. split; reflexivity.
  - reflexivity.
  - reflexivity.
  - by vm_compute.
Defined.


(** A translation with a character that a worksheet refuses: the write of
    line 100 raises at the first row, and the run ends in error with the
    text of that exception, no row done and nothing saved. *)
Example refused_character_ends_in_error :
  let w' := (_run_task sample_path "t1"
               (sample_world (sample_env bell_reply []) long_sheet)).2 in
  (∃ rec, TASKS w' !! "t1" = Some rec ∧
          status_is "error" rec ∧
          rec !! "message"
            = Some (VStr (bell_text ++ utf8 " cannot be used in worksheets.")) ∧
          rec !! "current" = Some (VInt 0)) ∧
  length (translations (trace w')) = 1%nat ∧
  saves (trace w') = [].
Proof.
  split; [|by vm_compute].
  eexists. split; [vm_compute; reflexivity | by vm_compute].
Qed.

